(** * LADA execution engine: a shallow embedding of the Python sources

    The development follows the layout of [lada_v2]:
      - [core/step_graph.py]       StepNode, StepGraph
      - [core/state_machine.py]    StateMachine (TaskState, ALLOWED)
      - [core/error_classifier.py] ErrorClass, RETRY_BUDGET
      - [utils/retry_policy.py]    RetryPolicy
      - [core/rollback_manager.py] RollbackManager
      - [utils/watchdog.py]        Watchdog
      - [core/execution_context.py] ExecutionContext
      - [core/orchestrator.py]     Orchestrator

    Python objects that are shared by reference (the nodes of a graph, which
    both [StepGraph.nodes] and [StepGraph._id_index] point to) are modelled
    by their position in the node list: the list is the store, the index a
    pointer.  Dictionaries are [gmap]s.  Clock readings are inputs; the
    readings of [time.monotonic()] and what is computed from them are
    binary64 floating-point numbers, as in Python. *)

From Stdlib Require Import ZArith QArith Ascii String List Sorted Lia.
From Stdlib Require Import DecimalString DecimalNat.
From Stdlib Require Import PrimFloat.
From stdpp Require Import gmap strings list relations.

Open Scope string_scope.

(** ** Common data *)

(** A plan step, and every step dictionary passed to an executor, is a
    Python [dict] with string keys and string values. *)
Abbreviation step_dict := (gmap string string).

(** [d.get(k, dflt)] *)
Definition dict_get (d : step_dict) (k dflt : string) : string :=
  default dflt (d !! k).

(** Python truthiness of a [str] and of an [Optional[str]]. *)
Definition truthy (s : string) : bool := negb (bool_decide (s = "")).
Definition truthy_opt (o : option string) : bool :=
  match o with Some s => truthy s | None => false end.

(** [datetime.now()] readings are abstract time stamps. *)
Definition datetime := Z.

(** The exceptions that cross function boundaries in the modelled code. *)
Inductive exn :=
| GraphBuildError (msg : string)
| GraphMutationError (msg : string)
| IllegalTransitionError (src dst : string)
| KeyError (key : string)
| AttributeError (name : string).

(** Result of a call: a value, a raised exception, or exhaustion of the
    recursion fuel of the model (never a behaviour of the source). *)
Inductive res (A : Type) :=
| Ok (a : A)
| Raise (e : exn)
| OutOfFuel.
Arguments Ok {A} a.
Arguments Raise {A} e.
Arguments OutOfFuel {A}.

(** [str(n)] for a non-negative [int]. *)
Definition str_of_nat (n : nat) : string :=
  NilEmpty.string_of_uint (Nat.to_uint n).

(** ** core/step_graph.py *)

Inductive StepStatus :=
| PENDING | RUNNING | SUCCESS | FAILED | SKIPPED | ROLLED_BACK.

#[global] Instance StepStatus_eq_dec : EqDecision StepStatus.
Proof. solve_decision. Defined.

(** Lookup in an association table written as a Python dict literal. *)
Fixpoint table_get {V} (tbl : list (string * V)) (k : string) : option V :=
  match tbl with
  | [] => None
  | (k', v) :: rest => if bool_decide (k = k') then Some v else table_get rest k
  end.

Definition ACTION_TIMEOUT : list (string * Q) :=
  [ ("open_app", 12%Q); ("open_terminal", 8%Q); ("navigate", 30%Q);
    ("find_and_click", 8%Q); ("click_button", 6%Q); ("click_result", 6%Q);
    ("type_text", 5%Q); ("search", 5%Q); ("verify_window", 15%Q);
    ("focus_window", 5%Q); ("close_window", 5%Q); ("wait_for_element", 20%Q);
    ("set_volume", 4%Q); ("set_brightness", 4%Q); ("run_command", 30%Q);
    ("scroll", 3%Q); ("get_text", 5%Q); ("open_menu", 5%Q) ].
Definition DEFAULT_TIMEOUT : Q := 10%Q.

Definition ACTION_MAX_RETRIES : list (string * nat) :=
  [ ("open_app", 2); ("navigate", 3); ("find_and_click", 3);
    ("click_button", 3); ("type_text", 2); ("verify_window", 3);
    ("run_command", 2); ("wait_for_element", 2) ].
Definition DEFAULT_MAX_RETRIES : nat := 3.

Definition ROLLBACK_MAP : list (string * option string) :=
  [ ("open_app", Some "close_window"); ("open_terminal", Some "close_window");
    ("navigate", None); ("find_and_click", None); ("click_button", None);
    ("type_text", None); ("set_volume", None); ("set_brightness", None);
    ("focus_window", None); ("close_window", Some "open_app") ].

Module StepNode.

Record t := mk {
  step_id : string;
  seq_num : nat;
  action : string;
  value : string;
  method : string;
  depends_on : list string;
  timeout_s : Q;
  max_retries : nat;
  rollback_action : option string;
  (* runtime state *)
  status : StepStatus;
  attempts : nat;
  error : string;
  started_at : option datetime;
  finished_at : option datetime;
  method_used : string
}.

Definition set_runtime (n : t) (st : StepStatus) (att : nat) (err : string)
    (sa fa : option datetime) (mu : string) : t :=
  mk (step_id n) (seq_num n) (action n) (value n) (method n) (depends_on n)
     (timeout_s n) (max_retries n) (rollback_action n) st att err sa fa mu.

(** [mark_running]: [now] is the reading of [datetime.now()]. *)
Definition mark_running (now : datetime) (n : t) : t :=
  if bool_decide (status n = SUCCESS) then n
  else set_runtime n RUNNING (attempts n + 1) (error n)
                   (Some now) (finished_at n) (method_used n).

Definition mark_success (now : datetime) (mu : string) (n : t) : t :=
  set_runtime n SUCCESS (attempts n) (error n) (started_at n) (Some now) mu.

Definition mark_failed (now : datetime) (err : string) (n : t) : t :=
  set_runtime n FAILED (attempts n) err (started_at n) (Some now)
              (method_used n).

Definition mark_skipped (reason : string) (n : t) : t :=
  set_runtime n SKIPPED (attempts n) reason (started_at n) (finished_at n)
              (method_used n).

Definition is_done (n : t) : bool :=
  bool_decide (status n = SUCCESS) || bool_decide (status n = SKIPPED).

Definition can_retry (n : t) : bool :=
  (attempts n <? max_retries n)%nat && negb (is_done n).

Definition reset_for_retry (n : t) : t :=
  set_runtime n PENDING (attempts n) "" None None (method_used n).

Definition to_step_dict (n : t) : step_dict :=
  <["action" := action n]> (<["value" := value n]>
    (<["method" := method n]> ∅)).

(** The fields fixed at construction: everything but the runtime state. *)
Definition structure (n : t) :=
  (step_id n, seq_num n, action n, value n, method n, depends_on n,
   timeout_s n, max_retries n, rollback_action n).

End StepNode.

Module StepGraph.

Record t := mk {
  nodes : list StepNode.t;
  task_name : string;
  _id_index : gmap string nat;   (* id -> position of the node object *)
  _frozen : bool
}.

Definition init : t := mk [] "" ∅ false.

(** [self._id_index.get(step_id)]: the node object, if any. *)
Definition get_node (g : t) (sid : string) : option StepNode.t :=
  i ← _id_index g !! sid; nodes g !! i.

(** In-place update of the node object at position [i]. *)
Definition update_node (i : nat) (f : StepNode.t -> StepNode.t) (g : t) : t :=
  mk (alter f i (nodes g)) (task_name g) (_id_index g) (_frozen g).

(** The two statements of the construction loop that add a node:
    [graph.nodes.append(node); graph._id_index[node.step_id] = node]. *)
Definition append_node (n : StepNode.t) (g : t) : t :=
  mk (nodes g ++ [n]) (task_name g)
     (<[StepNode.step_id n := length (nodes g)]> (_id_index g)) (_frozen g).

Definition freeze (g : t) : t :=
  mk (nodes g) (task_name g) (_id_index g) true.

Definition _assert_mutable (g : t) : res unit :=
  if _frozen g
  then Raise (GraphMutationError
    "Cannot modify frozen StepGraph during execution. Create a new graph to replan.")
  else Ok tt.

Definition _deps_ok (g : t) (n : StepNode.t) : bool :=
  forallb (fun dep_id =>
             match get_node g dep_id with
             | Some dep => StepNode.is_done dep
             | None => true
             end) (StepNode.depends_on n).

(** [pending_nodes]: the ready node objects, as positions. *)
Definition pending_nodes (g : t) : list nat :=
  (imap (fun i n => (i, n)) (nodes g)) ≫=
    (fun p => if bool_decide (StepNode.status p.2 = PENDING) && _deps_ok g p.2
              then [p.1] else []).

Definition is_complete (g : t) : bool := forallb StepNode.is_done (nodes g).

Definition has_failed (g : t) : bool :=
  existsb (fun n => bool_decide (StepNode.status n = FAILED)) (nodes g).

Definition failed_nodes (g : t) : list StepNode.t :=
  List.filter (fun n => bool_decide (StepNode.status n = FAILED)) (nodes g).

Definition progress (g : t) : nat * nat :=
  (length (List.filter StepNode.is_done (nodes g)), length (nodes g)).

Definition rollback_dict (n : StepNode.t) (ra : string) : step_dict :=
  <["action" := ra]> (<["value" := StepNode.value n]>
    (<["method" := "system"]> (<["_for" := StepNode.step_id n]> ∅))).

(** The body shared by the two rollback listings: the dictionary
    appended for a node that is SUCCESS and has a rollback action. *)
Definition rollback_entry (n : StepNode.t) : list step_dict :=
  if bool_decide (StepNode.status n = SUCCESS)
     && truthy_opt (StepNode.rollback_action n)
  then [rollback_dict n (default "" (StepNode.rollback_action n))]
  else [].

(** The loop of [rollback_steps_after] over [reversed(self.nodes)],
    threading the [found] flag. *)
Fixpoint rollback_scan (failed_step_id : string) (found : bool)
    (rev_nodes : list StepNode.t) : list step_dict :=
  match rev_nodes with
  | [] => []
  | n :: rest =>
      let found' :=
        if bool_decide (StepNode.step_id n = failed_step_id) then true
        else found in
      (if found' then rollback_entry n else [])
        ++ rollback_scan failed_step_id found' rest
  end.

Definition rollback_steps_after (g : t) (failed_step_id : string)
    : list step_dict :=
  rollback_scan failed_step_id false (rev (nodes g)).

Definition rollback_all (g : t) : list step_dict :=
  (rev (nodes g)) ≫= rollback_entry.

(** The loop of [replan_from], threading the [retrying] flag. *)
Fixpoint replan_scan (failed_step_id : string) (retrying : bool)
    (ns : list StepNode.t) : list StepNode.t :=
  match ns with
  | [] => []
  | n :: rest =>
      let retrying' :=
        if bool_decide (StepNode.step_id n = failed_step_id) then true
        else retrying in
      (if retrying' then StepNode.reset_for_retry n else n)
        :: replan_scan failed_step_id retrying' rest
  end.

Definition replan_from (g : t) (failed_step_id : string) : t :=
  mk (replan_scan failed_step_id false (nodes g)) (task_name g)
     (_id_index g) true.

(** *** Construction *)

(** A plan: [plan.get("task", "unknown")] reads [plan_task], and
    [plan.get("steps", [])] reads [plan_steps] (a missing key is the
    empty list). *)
Record Plan := mk_plan {
  plan_task : option string;
  plan_steps : list step_dict
}.

(** The node built for the [i]-th step (counting from 0); [hex6] is the
    reading of [uuid.uuid4().hex[:6]] for this node. *)
Definition make_node (hex6 : string) (i : nat) (prev_id : option string)
    (step : step_dict) : StepNode.t :=
  let action := dict_get step "action" "" in
  StepNode.mk
    ("s" ++ str_of_nat (i + 1) ++ "_" ++ hex6)
    (i + 1)
    action
    (dict_get step "value" "")
    (dict_get step "method" "auto")
    (match prev_id with
     | Some p => if truthy p then [p] else []
     | None => []
     end)
    (default DEFAULT_TIMEOUT (table_get ACTION_TIMEOUT action))
    (default DEFAULT_MAX_RETRIES (table_get ACTION_MAX_RETRIES action))
    (mjoin (table_get ROLLBACK_MAP action))
    PENDING 0 "" None None "".

(** The [for i, step in enumerate(steps)] loop of [from_plan]. *)
Fixpoint build_loop (uuid : nat -> string) (i : nat)
    (prev_id : option string) (steps : list step_dict) (g : t) : t :=
  match steps with
  | [] => g
  | step :: rest =>
      let node := make_node (uuid i) i prev_id step in
      build_loop uuid (S i) (Some (StepNode.step_id node)) rest
                 (append_node node g)
  end.

(** [for x in xs: body], where the body may raise. *)
Fixpoint for_each {A S : Type} (body : A -> S -> res S) (xs : list A)
    (s : S) : res S :=
  match xs with
  | [] => Ok s
  | x :: rest =>
      match body x s with
      | Ok s' => for_each body rest s'
      | Raise e => Raise e
      | OutOfFuel => OutOfFuel
      end
  end.

Definition ids (g : t) : gset string := dom (_id_index g).

(** The orphan check of [_validate]. *)
Definition check_orphans (g : t) : res unit :=
  for_each (fun node _ =>
    for_each (fun dep_id _ =>
      if bool_decide (dep_id ∈ ids g) then Ok tt
      else Raise (GraphBuildError
             ("Node " ++ StepNode.step_id node ++
              " depends on unknown ID: " ++ dep_id)))
      (StepNode.depends_on node) tt)
    (nodes g) tt.

(** State of the cycle check: the [visited] and [rec_stack] sets. *)
Record dfs_state := mk_dfs {
  visited : gset string;
  rec_stack : gset string
}.

(** The nested function [dfs] of [_validate].  Every call marks a node
    that was not visited before, so the recursion depth is bounded by the
    number of ids; [fuel] carries that bound. *)
Fixpoint dfs (g : t) (fuel : nat) (nid : string) (s : dfs_state)
    : res dfs_state :=
  match fuel with
  | O => OutOfFuel
  | S fuel' =>
      let s1 := mk_dfs ({[nid]} ∪ visited s) ({[nid]} ∪ rec_stack s) in
      match get_node g nid with
      | None => Raise (KeyError nid)
      | Some node =>
          match
            for_each (fun dep_id s' =>
              if bool_decide (dep_id ∉ visited s') then dfs g fuel' dep_id s'
              else if bool_decide (dep_id ∈ rec_stack s')
              then Raise (GraphBuildError
                     ("Circular dependency detected involving node: "
                      ++ dep_id))
              else Ok s')
              (StepNode.depends_on node) s1
          with
          | Ok s2 => Ok (mk_dfs (visited s2) (rec_stack s2 ∖ {[nid]}))
          | Raise e => Raise e
          | OutOfFuel => OutOfFuel
          end
      end
  end.

(** [_validate].  [order] lists the elements of the set [ids] in the
    order in which [for nid in ids] visits them. *)
Definition _validate (order : list string) (g : t) : res unit :=
  match check_orphans g with
  | Ok _ =>
      match
        for_each (fun nid s =>
          if bool_decide (nid ∉ visited s)
          then dfs g (size (ids g)) nid s else Ok s)
          order (mk_dfs ∅ ∅)
      with
      | Ok _ => Ok tt
      | Raise e => Raise e
      | OutOfFuel => OutOfFuel
      end
  | Raise e => Raise e
  | OutOfFuel => OutOfFuel
  end.

(** [from_plan].  [uuid i] is the random suffix drawn for the [i]-th
    node and [set_order] the iteration order of Python sets. *)
Definition from_plan (uuid : nat -> string)
    (set_order : gset string -> list string) (plan : Plan) : res t :=
  let graph := mk [] (default "unknown" (plan_task plan)) ∅ false in
  let steps := plan_steps plan in
  match steps with
  | [] => Raise (GraphBuildError "Plan has no steps.")
  | _ =>
      let graph := build_loop uuid 0 None steps graph in
      match _validate (set_order (ids graph)) graph with
      | Ok _ => Ok graph
      | Raise e => Raise e
      | OutOfFuel => OutOfFuel
      end
  end.

(** *** Notions the validation is specified with *)

(** [depends g a b]: some node with id [a] lists [b] in [depends_on]. *)
Definition depends (g : t) (a b : string) : Prop :=
  exists n, n ∈ nodes g /\ StepNode.step_id n = a
            /\ b ∈ StepNode.depends_on n.

(** A dependency cycle: an id that reaches itself along dependency edges. *)
Definition has_cycle (g : t) : Prop := exists a, tc (depends g) a a.

(** An orphan: a dependency id that is the id of no node. *)
Definition has_orphan (g : t) : Prop :=
  exists n d, n ∈ nodes g /\ d ∈ StepNode.depends_on n
              /\ forall m, m ∈ nodes g -> StepNode.step_id m <> d.

(** The index is the id-indexed view of the node list: it maps exactly
    the id of each node to the position of that node. *)
Definition index_ok (g : t) : Prop :=
  forall sid i, _id_index g !! sid = Some i <->
                exists n, nodes g !! i = Some n /\ StepNode.step_id n = sid.

(** An iteration order of Python sets: any listing of the elements. *)
Definition lists_elements (set_order : gset string -> list string) : Prop :=
  forall (X : gset string) (x : string), x ∈ set_order X <-> x ∈ X.

(** The id given to the [j]-th node, and the [prev_id] seen by it. *)
Definition node_id (uuid : nat -> string) (j : nat) : string :=
  "s" ++ str_of_nat (j + 1) ++ "_" ++ uuid j.

Definition prev_of (uuid : nat -> string) (i : nat) : option string :=
  match i with
  | O => None
  | S j => Some (node_id uuid j)
  end.

(** The nodes the construction loop appends for [steps], from counter [i]. *)
Fixpoint chain_nodes (uuid : nat -> string) (i : nat)
    (steps : list step_dict) : list StepNode.t :=
  match steps with
  | [] => []
  | step :: rest =>
      make_node (uuid i) i (prev_of uuid i) step
        :: chain_nodes uuid (S i) rest
  end.

(** *** Notions used in the correctness argument of the cycle check *)

(** [index_edge g a b]: the node registered under [a] in the index lists
    [b] as a dependency (the edges [dfs] follows). *)
Definition index_edge (g : t) (a b : string) : Prop :=
  exists n, get_node g a = Some n /\ b ∈ StepNode.depends_on n.

Definition index_cyclic (g : t) : Prop := exists a, tc (index_edge g) a a.

(** A node is black once its [dfs] call has returned. *)
Definition black (s : dfs_state) (b : string) : Prop :=
  b ∈ visited s /\ b ∉ rec_stack s.

Definition dfs_inv (g : t) (s : dfs_state) : Prop :=
  visited s ⊆ ids g /\ rec_stack s ⊆ visited s
  /\ (forall b d, black s b -> index_edge g b d -> black s d)
  /\ (forall b, black s b -> ~ tc (index_edge g) b b).

(** The graph [from_plan] has assembled when it calls [_validate]. *)
Definition built (uuid : nat -> string) (plan : Plan) : t :=
  build_loop uuid 0 None (plan_steps plan)
    (mk [] (default "unknown" (plan_task plan)) ∅ false).

(** Strings without an underscore. *)
Fixpoint no_us (s : string) : Prop :=
  match s with
  | EmptyString => True
  | String c r => c <> "_"%char /\ no_us r
  end.

End StepGraph.

(** ** core/action_result.py *)

Module ECode.
Definition NONE := "".
Definition ELEMENT_NOT_FOUND := "element_not_found".
Definition WINDOW_NOT_OPEN := "window_not_open".
Definition TIMEOUT := "timeout".
Definition PROCESS_DEAD := "process_dead".
Definition PERMISSION_DENIED := "permission_denied".
Definition BROWSER_CRASH := "browser_crash".
Definition NETWORK_ERROR := "network_error".
Definition SCHEMA_INVALID := "schema_invalid".
Definition ACCESSIBILITY_FAIL := "accessibility_fail".
Definition CV_NO_MATCH := "cv_no_match".
Definition COMMAND_FAILED := "command_failed".
Definition UNKNOWN := "unknown".
End ECode.

Module RHint.
Definition NONE := "".
Definition SWITCH_METHOD := "switch_method".
Definition REOPEN_APP := "reopen_app".
Definition RETRY_LONGER_WAIT := "retry_with_longer_wait".
Definition RELAUNCH_PROCESS := "relaunch_process".
Definition SKIP := "skip_or_escalate".
Definition RESTART_BROWSER := "restart_browser".
Definition RETRY_BACKOFF := "retry_with_backoff".
Definition REPLAN := "replan".
Definition SWITCH_CV := "switch_to_cv".
Definition SWITCH_OCR := "switch_to_ocr".
Definition ALT_COMMAND := "alternative_command".
Definition FULL_RESET := "full_reset".
End RHint.

Definition _CODE_TO_HINT : list (string * string) :=
  [ (ECode.ELEMENT_NOT_FOUND, RHint.SWITCH_METHOD);
    (ECode.WINDOW_NOT_OPEN, RHint.REOPEN_APP);
    (ECode.TIMEOUT, RHint.RETRY_LONGER_WAIT);
    (ECode.PROCESS_DEAD, RHint.RELAUNCH_PROCESS);
    (ECode.PERMISSION_DENIED, RHint.SKIP);
    (ECode.BROWSER_CRASH, RHint.RESTART_BROWSER);
    (ECode.NETWORK_ERROR, RHint.RETRY_BACKOFF);
    (ECode.SCHEMA_INVALID, RHint.REPLAN);
    (ECode.ACCESSIBILITY_FAIL, RHint.SWITCH_CV);
    (ECode.CV_NO_MATCH, RHint.SWITCH_OCR);
    (ECode.COMMAND_FAILED, RHint.ALT_COMMAND);
    (ECode.UNKNOWN, RHint.FULL_RESET) ].

Module ActionResult.

(** The [metadata] dictionary and the creation [timestamp] are never read
    by the modelled code and are left out. *)
Record t := mk {
  success : bool;
  action : string;
  value : string;
  method : string;
  error : string;
  error_code : string;
  recovery_hint : string;
  execution_time_ms : float;
  attempt : nat
}.

(** [__bool__] *)
Definition to_bool (r : t) : bool := success r.

Definition ok (action value method : string) (execution_time_ms : float)
    : t :=
  mk true action value method "" ECode.NONE RHint.NONE execution_time_ms 1.

Definition fail (action value method error error_code recovery_hint : string)
    (execution_time_ms : float) : t :=
  let hint :=
    if truthy recovery_hint then recovery_hint
    else default RHint.FULL_RESET (table_get _CODE_TO_HINT error_code) in
  mk false action value method error error_code hint execution_time_ms 1.

Definition is_retryable (r : t) : bool :=
  negb (success r)
  && negb (bool_decide (error_code r = ECode.PERMISSION_DENIED)
           || bool_decide (error_code r = ECode.SCHEMA_INVALID)).

End ActionResult.

(** ** core/error_classifier.py *)

Inductive ErrorClass :=
| ELEMENT_NOT_FOUND | WINDOW_NOT_OPEN | TIMEOUT | PROCESS_DEAD
| PERMISSION_DENIED | BROWSER_CRASH | NETWORK_ERROR | SCHEMA_INVALID
| ACCESSIBILITY_FAIL | CV_NO_MATCH | COMMAND_FAILED | UNKNOWN.

#[global] Instance ErrorClass_eq_dec : EqDecision ErrorClass.
Proof. solve_decision. Defined.

Definition ErrorClass_value (c : ErrorClass) : string :=
  match c with
  | ELEMENT_NOT_FOUND => "element_not_found"
  | WINDOW_NOT_OPEN => "window_not_open"
  | TIMEOUT => "timeout"
  | PROCESS_DEAD => "process_dead"
  | PERMISSION_DENIED => "permission_denied"
  | BROWSER_CRASH => "browser_crash"
  | NETWORK_ERROR => "network_error"
  | SCHEMA_INVALID => "schema_invalid"
  | ACCESSIBILITY_FAIL => "accessibility_fail"
  | CV_NO_MATCH => "cv_no_match"
  | COMMAND_FAILED => "command_failed"
  | UNKNOWN => "unknown"
  end.

Definition RECOVERY_STRATEGY (c : ErrorClass) : string :=
  match c with
  | ELEMENT_NOT_FOUND => "switch_method"
  | WINDOW_NOT_OPEN => "reopen_app"
  | TIMEOUT => "retry_with_longer_wait"
  | PROCESS_DEAD => "relaunch_process"
  | PERMISSION_DENIED => "skip_or_escalate"
  | BROWSER_CRASH => "restart_browser"
  | NETWORK_ERROR => "retry_with_backoff"
  | SCHEMA_INVALID => "replan"
  | ACCESSIBILITY_FAIL => "switch_to_cv"
  | CV_NO_MATCH => "switch_to_ocr"
  | COMMAND_FAILED => "alternative_command"
  | UNKNOWN => "full_reset"
  end.

Definition RETRY_BUDGET (c : ErrorClass) : nat :=
  match c with
  | ELEMENT_NOT_FOUND => 3
  | WINDOW_NOT_OPEN => 2
  | TIMEOUT => 3
  | PROCESS_DEAD => 1
  | PERMISSION_DENIED => 0    (* don't retry, will keep failing *)
  | BROWSER_CRASH => 1
  | NETWORK_ERROR => 4
  | SCHEMA_INVALID => 1
  | ACCESSIBILITY_FAIL => 2
  | CV_NO_MATCH => 2
  | COMMAND_FAILED => 2
  | UNKNOWN => 1
  end.

Module ClassifiedError.
Record t := mk {
  error_class : ErrorClass;
  original_msg : string;
  strategy : string;
  retry_budget : nat
}.

Definition should_retry (c : t) : bool := (0 <? retry_budget c)%nat.

Definition consume_retry (c : t) : t :=
  mk (error_class c) (original_msg c) (strategy c)
     (Nat.max 0 (retry_budget c - 1)).
End ClassifiedError.

Module ErrorClassifier.

Definition _PATTERNS : list (string * ErrorClass) :=
  [ ("timeout|timed? out|asyncio\.timeouterror", TIMEOUT);
    ("element not found|no such element|locator.*not visible|element.*invisible|find_element|elementnotfound",
     ELEMENT_NOT_FOUND);
    ("window not found|wmctrl.*fail|no window.*title|window.*does not exist",
     WINDOW_NOT_OPEN);
    ("process.*dead|pgrep.*fail|no such process|process not running",
     PROCESS_DEAD);
    ("permission denied|operation not permitted|access denied|sudo required",
     PERMISSION_DENIED);
    ("browser.*crash|playwright.*closed|page.*crashed|connection refused.*browser|target closed",
     BROWSER_CRASH);
    ("connection refused|network.*error|dns.*fail|http.*error [45]\d\d|ssl.*error|name.*resolution",
     NETWORK_ERROR);
    ("pyatspi|at-spi|dbus.*error|accessibility.*fail|atspi",
     ACCESSIBILITY_FAIL);
    ("template.*not found|no match|matchtemplate|confidence.*below",
     CV_NO_MATCH);
    ("schema.*fail|validation.*fail|missing.*field|invalid.*json",
     SCHEMA_INVALID);
    ("command.*fail|returncode.*[1-9]|subprocess.*error|exit code",
     COMMAND_FAILED) ].

Section classifier.
(** The regular-expression engine and [str.lower] belong to the Python
    library: [re_search pattern msg] stands for
    [re.search(pattern, msg, re.IGNORECASE)] being a match. *)
Variable re_search : string -> string -> bool.
Variable str_lower : string -> string.

Fixpoint first_match (pats : list (string * ErrorClass)) (msg : string)
    : ErrorClass :=
  match pats with
  | [] => UNKNOWN
  | (pattern, error_class) :: rest =>
      if re_search pattern msg then error_class else first_match rest msg
  end.

Definition _match_patterns (msg : string) : ErrorClass :=
  first_match _PATTERNS msg.

Definition _contextual_classify (action method msg : string) : ErrorClass :=
  if bool_decide (method = "accessibility") then ACCESSIBILITY_FAIL
  else if bool_decide (method = "cv") then CV_NO_MATCH
  else if bool_decide (action ∈ ["find_and_click"; "click_button";
                                 "navigate"; "type_text";
                                 "wait_for_element"])
  then ELEMENT_NOT_FOUND
  else if bool_decide (action ∈ ["focus_window"; "verify_window";
                                 "close_window"])
  then WINDOW_NOT_OPEN
  else UNKNOWN.

Definition classify (error_msg action method : string)
    : ClassifiedError.t :=
  let msg_lower := str_lower error_msg in
  let matched_class := _match_patterns msg_lower in
  let matched_class :=
    if bool_decide (matched_class = UNKNOWN)
    then _contextual_classify action method msg_lower
    else matched_class in
  ClassifiedError.mk matched_class error_msg
    (RECOVERY_STRATEGY matched_class) (RETRY_BUDGET matched_class).
End classifier.

End ErrorClassifier.

(** ** utils/retry_policy.py *)

Module RetryPolicy.

Definition METHOD_PRIORITY : list (string * list string) :=
  [ ("open_app", ["system"; "accessibility"; "cv"]);
    ("open_terminal", ["system"]);
    ("find_and_click", ["accessibility"; "browser"; "cv"]);
    ("click_button", ["accessibility"; "browser"; "cv"]);
    ("click_result", ["accessibility"; "browser"; "cv"]);
    ("type_text", ["accessibility"; "browser"; "system"]);
    ("search", ["accessibility"; "browser"]);
    ("navigate", ["browser"]);
    ("focus_window", ["system"; "accessibility"]);
    ("close_window", ["system"; "accessibility"]);
    ("set_volume", ["system"]);
    ("set_brightness", ["system"]);
    ("run_command", ["system"]);
    ("verify_window", ["system"; "accessibility"]);
    ("wait_for_element", ["accessibility"; "browser"]);
    ("scroll", ["browser"; "system"; "cv"]);
    ("get_text", ["accessibility"; "browser"; "cv"]);
    ("open_menu", ["system"; "accessibility"]) ].
Definition DEFAULT_PRIORITY : list string :=
  ["accessibility"; "system"; "browser"; "cv"].

Definition FAILURE_DEMOTION_THRESHOLD : nat := 3.

Record RetryConfig := mk_config {
  max_attempts : nat;
  base_delay_s : Q;
  backoff_factor : Q;
  max_delay_s : Q;
  jitter : bool
}.

Definition default_config : RetryConfig :=
  mk_config 3 0.5%Q 1.5%Q 4%Q true.

Record t := mk {
  config : RetryConfig;
  _fail_counts : gmap string nat
}.

Definition reset_session (rp : t) : t := mk (config rp) ∅.

(** The dictionary key [f"{action}:{method}"]. *)
Definition fail_key (action method : string) : string :=
  action ++ ":" ++ method.

(** [self._fail_counts.get(f"{action}:{method}", 0)] *)
Definition fails (rp : t) (action method : string) : nat :=
  default 0 (_fail_counts rp !! fail_key action method).

(** [list.sort(key=...)] is a stable sort; it is modelled by stable
    insertion. *)
Fixpoint insert_by {A} (key : A -> nat) (x : A) (l : list A) : list A :=
  match l with
  | [] => [x]
  | y :: rest =>
      if (key x <=? key y)%nat then x :: y :: rest
      else y :: insert_by key x rest
  end.

Definition sort_by {A} (key : A -> nat) (l : list A) : list A :=
  foldr (insert_by key) [] l.

Definition baseline (action : string) : list string :=
  default DEFAULT_PRIORITY (table_get METHOD_PRIORITY action).

Definition get_fallback_chain (rp : t) (action current_method : string)
    : list string :=
  let candidates := filter (fun m => m <> current_method) (baseline action) in
  sort_by (fails rp action) candidates.

Definition _record_failure (action method : string) (rp : t) : t :=
  mk (config rp)
     (<[fail_key action method := fails rp action method + 1]>
        (_fail_counts rp)).

(** What awaiting [fn(...)] yields: a returned object (truthy exactly when
    it is a successful [ActionResult]), an [asyncio.TimeoutError], or any
    other exception. *)
Inductive fn_outcome :=
| Returned (r : ActionResult.t)
| TimedOut
| Raised (msg : string).

Definition is_success (o : fn_outcome) : option ActionResult.t :=
  match o with
  | Returned r => if ActionResult.to_bool r then Some r else None
  | _ => None
  end.

Section execute.
(** [fn] is the callable handed to [execute_with_retry]; [W] is the
    state of whatever it acts on.  The delays between attempts only
    let time pass and are not modelled. *)
Context {W : Type}.
Variable fn : step_dict -> W -> fn_outcome * W.

(** Level 1: [for attempt in range(1, cfg.max_attempts + 1)]. *)
Fixpoint level1 (remaining : nat) (step : step_dict)
    (action method : string) (rp : t) (w : W)
    : option ActionResult.t * t * W :=
  match remaining with
  | O => (None, rp, w)
  | S k =>
      let '(o, w1) := fn (<["method" := method]> step) w in
      match is_success o with
      | Some r => (Some r, rp, w1)
      | None => level1 k step action method
                       (_record_failure action method rp) w1
      end
  end.

(** Level 2: [for fb_method in fallbacks]. *)
Fixpoint level2 (fallbacks : list string) (step : step_dict)
    (action : string) (rp : t) (w : W)
    : option ActionResult.t * t * W :=
  match fallbacks with
  | [] => (None, rp, w)
  | fb_method :: rest =>
      if (FAILURE_DEMOTION_THRESHOLD <=? fails rp action fb_method)%nat
      then level2 rest step action rp w
      else
        let '(o, w1) := fn (<["method" := fb_method]> step) w in
        match is_success o with
        | Some r => (Some r, rp, w1)
        | None => level2 rest step action
                         (_record_failure action fb_method rp) w1
        end
  end.

Definition single_method_actions : list string :=
  ["run_command"; "set_volume"; "set_brightness"; "open_terminal"].

Definition execute_with_retry (step : step_dict) (rp : t) (w : W)
    : option ActionResult.t * t * W :=
  let action := dict_get step "action" "unknown" in
  let method := dict_get step "method" "accessibility" in
  match level1 (max_attempts (config rp)) step action method rp w with
  | (Some r, rp1, w1) => (Some r, rp1, w1)
  | (None, rp1, w1) =>
      let fallbacks := get_fallback_chain rp1 action method in
      match level2 fallbacks step action rp1 w1 with
      | (Some r, rp2, w2) => (Some r, rp2, w2)
      | (None, rp2, w2) =>
          if bool_decide (action ∈ single_method_actions)
          then
            let '(o, w3) := fn (<["method" := "system"]> step) w2 in
            (is_success o, rp2, w3)
          else (None, rp2, w2)
      end
  end.
End execute.

(** A recording wrapper around a callable: it notes the dictionary of
    each call, as a test spy does. *)
Definition spy {W : Type} (fn : step_dict -> W -> fn_outcome * W)
    (step : step_dict) (s : W * list step_dict)
    : fn_outcome * (W * list step_dict) :=
  let '(o, w') := fn step s.1 in (o, (w', (s.2 ++ [step])%list)).

End RetryPolicy.

(** ** core/state_machine.py *)

Module TaskState.
Inductive t :=
| INIT | PLANNED | EXECUTING | VERIFYING | RECOVERING
| SUCCESS | FAILED | CANCELLED.

#[global] Instance eq_dec : EqDecision t.
Proof. solve_decision. Defined.

Definition value (s : t) : string :=
  match s with
  | INIT => "INIT" | PLANNED => "PLANNED" | EXECUTING => "EXECUTING"
  | VERIFYING => "VERIFYING" | RECOVERING => "RECOVERING"
  | SUCCESS => "SUCCESS" | FAILED => "FAILED" | CANCELLED => "CANCELLED"
  end.
End TaskState.

(** The table of legal transitions. *)
Definition ALLOWED (s : TaskState.t) : list TaskState.t :=
  match s with
  | TaskState.INIT => [TaskState.PLANNED; TaskState.CANCELLED]
  | TaskState.PLANNED =>
      [TaskState.EXECUTING; TaskState.FAILED; TaskState.CANCELLED]
  | TaskState.EXECUTING =>
      [TaskState.VERIFYING; TaskState.RECOVERING; TaskState.FAILED]
  | TaskState.VERIFYING =>
      [TaskState.EXECUTING; TaskState.RECOVERING; TaskState.SUCCESS;
       TaskState.FAILED]
  | TaskState.RECOVERING =>
      [TaskState.EXECUTING; TaskState.VERIFYING; TaskState.PLANNED;
       TaskState.FAILED]
  | TaskState.SUCCESS => [TaskState.INIT]
  | TaskState.FAILED => [TaskState.INIT]
  | TaskState.CANCELLED => [TaskState.INIT]
  end.

Definition TERMINAL_STATES : list TaskState.t :=
  [TaskState.SUCCESS; TaskState.FAILED; TaskState.CANCELLED].

Module StateMachine.

Record StepInfo := mk_step_info {
  si_step_num : nat;
  si_action : string;
  si_total : nat;
  si_started : datetime
}.

Record HistoryEntry := mk_entry {
  h_from : string;
  h_to : string;
  h_step_num : nat;
  h_action : string;
  h_timestamp : datetime
}.

Record t := mk {
  _state : TaskState.t;
  _prev : option TaskState.t;
  _step : option StepInfo;
  _history : list HistoryEntry;
  _task_start : option datetime;
  task_name : string
}.

Definition init : t := mk TaskState.INIT None None [] None "".

Definition _validate (new_state : TaskState.t) (sm : t) : res unit :=
  if negb (bool_decide (new_state ∈ ALLOWED (_state sm)))
  then Raise (IllegalTransitionError (TaskState.value (_state sm))
                                     (TaskState.value new_state))
  else if bool_decide (_state sm ∈ TERMINAL_STATES)
          && negb (bool_decide (new_state = TaskState.INIT))
  then Raise (IllegalTransitionError (TaskState.value (_state sm))
                                     (TaskState.value new_state))
  else Ok tt.

(** [_apply]; [now] is the reading of [datetime.now()]. *)
Definition _apply (now : datetime) (new_state : TaskState.t)
    (step_num : nat) (action : string) (total_steps : nat) (sm : t) : t :=
  let history :=
    (_history sm ++ [mk_entry (TaskState.value (_state sm))
                              (TaskState.value new_state)
                              step_num action now])%list in
  let task_start :=
    if bool_decide (new_state = TaskState.PLANNED) then Some now
    else _task_start sm in
  let step :=
    if bool_decide (new_state = TaskState.EXECUTING)
       && negb (bool_decide (step_num = 0))
    then Some (mk_step_info step_num action total_steps now)
    else _step sm in
  if bool_decide (new_state = TaskState.INIT)
  then mk new_state (Some (_state sm)) None history None ""
  else mk new_state (Some (_state sm)) step history task_start
          (task_name sm).

(** [transition] (and [transition_sync]): validate, then apply.  The
    [asyncio.Lock] serialises callers and has no effect on a single
    caller. *)
Definition transition (now : datetime) (new_state : TaskState.t)
    (step_num : nat) (action : string) (total_steps : nat) (sm : t)
    : res t :=
  match _validate new_state sm with
  | Ok _ => Ok (_apply now new_state step_num action total_steps sm)
  | Raise e => Raise e
  | OutOfFuel => OutOfFuel
  end.

Definition force_reset (now : datetime) (sm : t) : t :=
  mk TaskState.INIT (_prev sm) None
     (_history sm ++ [mk_entry (TaskState.value (_state sm))
                               (TaskState.value TaskState.INIT)
                               0 "FORCE_RESET" now])%list
     None "".

Definition is_terminal (sm : t) : bool :=
  bool_decide (_state sm ∈ TERMINAL_STATES).

Definition is_active (sm : t) : bool :=
  negb (bool_decide (_state sm ∈ TERMINAL_STATES))
  && negb (bool_decide (_state sm = TaskState.INIT)).

End StateMachine.

(** ** core/execution_context.py *)

Inductive ExecMode := LIVE | DRY_RUN | SAFE_MODE.

#[global] Instance ExecMode_eq_dec : EqDecision ExecMode.
Proof. solve_decision. Defined.

Definition ExecMode_value (m : ExecMode) : string :=
  match m with LIVE => "live" | DRY_RUN => "dry_run" | SAFE_MODE => "safe_mode" end.

Definition SAFE_ACTIONS : list string :=
  ["verify_window"; "focus_window"; "get_text"; "wait_for_element";
   "scroll"; "set_volume"; "set_brightness"].
Definition BLOCKED_IN_SAFE : list string :=
  ["run_command"; "close_window"; "type_text"; "click_button"].

Module ExecutionContext.

Record DryEntry := mk_dry {
  d_action : option string;
  d_value : option string;
  d_method : option string;
  d_note : string
}.

Record StepRecord := mk_record {
  r_action : string;
  r_method : string;
  r_success : bool
}.

(** The fields filled from probes of the desktop ([_active_window],
    [_system_load], [_step_start_time], [_focused_element]) influence no
    decision of the engine and are left out. *)
Record t := mk {
  mode : ExecMode;
  task_name : string;
  _active_app : string;
  _last_success_method : string;
  _retry_counter : nat;
  _blocked_count : nat;
  _dry_run_log : list DryEntry;
  _step_history : list StepRecord
}.

Definition init (mode : ExecMode) (task_name : string) : t :=
  mk mode task_name "" "" 0 0 [] [].

Definition set_task_name (name : string) (c : t) : t :=
  mk (mode c) name (_active_app c) (_last_success_method c)
     (_retry_counter c) (_blocked_count c) (_dry_run_log c)
     (_step_history c).

Definition set_active_app (app : string) (c : t) : t :=
  mk (mode c) (task_name c) app (_last_success_method c)
     (_retry_counter c) (_blocked_count c) (_dry_run_log c)
     (_step_history c).

Definition set_mode (m : ExecMode) (c : t) : t :=
  mk m (task_name c) (_active_app c) (_last_success_method c)
     (_retry_counter c) (_blocked_count c) (_dry_run_log c)
     (_step_history c).

Definition record_step_end (action method : string) (success : bool)
    (c : t) : t :=
  mk (mode c) (task_name c) (_active_app c)
     (if success then method else _last_success_method c)
     (if success then 0 else _retry_counter c)
     (_blocked_count c) (_dry_run_log c)
     (_step_history c ++ [mk_record action method success])%list.

Definition _record_dry (step : step_dict) (note : string) (c : t) : t :=
  mk (mode c) (task_name c) (_active_app c) (_last_success_method c)
     (_retry_counter c) (_blocked_count c)
     (_dry_run_log c ++ [mk_dry (step !! "action") (step !! "value")
                                (step !! "method") note])%list
     (_step_history c).

Definition incr_blocked (c : t) : t :=
  mk (mode c) (task_name c) (_active_app c) (_last_success_method c)
     (_retry_counter c) (_blocked_count c + 1) (_dry_run_log c)
     (_step_history c).

(** [can_execute]: the answer and the context after the bookkeeping. *)
Definition can_execute (step : step_dict) (c : t) : bool * t :=
  let action := dict_get step "action" "" in
  match mode c with
  | LIVE => (true, c)
  | DRY_RUN => (false, _record_dry step "would execute" c)
  | SAFE_MODE =>
      if bool_decide (action ∈ BLOCKED_IN_SAFE)
      then (false, _record_dry step "BLOCKED safe_mode" (incr_blocked c))
      else if negb (bool_decide (action ∈ SAFE_ACTIONS))
      then (false, _record_dry step "BLOCKED: not in safe whitelist"
                               (incr_blocked c))
      else (true, c)
  end.

Definition simulate (steps : list step_dict) (c : t) : list DryEntry * t :=
  let old := mode c in
  let c1 := mk DRY_RUN (task_name c) (_active_app c)
               (_last_success_method c) (_retry_counter c)
               (_blocked_count c) [] (_step_history c) in
  let c2 := foldl (fun c' step => (can_execute step c').2) c1 steps in
  (_dry_run_log c2, set_mode old c2).

End ExecutionContext.

(** ** utils/watchdog.py *)

Definition HEARTBEAT_INTERVAL_S : float := 3%float.
Definition HEARTBEAT_TIMEOUT_S : float := 15%float.
Definition PROCESS_CHECK_INTERVAL_S : float := 5%float.
Definition RESOURCE_CHECK_INTERVAL_S : float := 8%float.
Definition CPU_SPIKE_THRESHOLD : float := 92%float.
Definition MEMORY_LIMIT_MB : float := 600%float.

Module WatchdogEvent.
Definition HEARTBEAT_TIMEOUT := "heartbeat_timeout".
Definition PROCESS_DEAD := "process_dead".
Definition WINDOW_CRASH := "window_crash".
Definition CPU_SPIKE := "cpu_spike".
Definition MEMORY_HIGH := "memory_high".
End WatchdogEvent.

Module Watchdog.

(** Readings of [time.monotonic()] are floats.  The thread object, the
    stop event and the lock are plumbing of the real threads and are not
    part of the state. *)
Record t := mk {
  _running : bool;
  _last_heartbeat : float;
  _step_label : string;
  abort_requested : bool;
  abort_reason : string;
  _watched_procs : list string;
  _has_alert_cb : bool;
  _last_proc_check : float;
  _last_res_check : float;
  events_count : nat;
  last_event : option string
}.

Definition init (now : float) : t :=
  mk false now "" false "" [] false 0%float 0%float 0 None.

Definition start (now : float) (wd : t) : t :=
  if _running wd then wd
  else mk true now (_step_label wd) false (abort_reason wd)
          (_watched_procs wd) (_has_alert_cb wd) (_last_proc_check wd)
          (_last_res_check wd) (events_count wd) (last_event wd).

Definition stop (wd : t) : t :=
  mk false (_last_heartbeat wd) (_step_label wd) (abort_requested wd)
     (abort_reason wd) (_watched_procs wd) (_has_alert_cb wd)
     (_last_proc_check wd) (_last_res_check wd) (events_count wd)
     (last_event wd).

Definition heartbeat (now : float) (step_label : string) (wd : t) : t :=
  mk (_running wd) now
     (if truthy step_label then step_label else _step_label wd)
     (abort_requested wd) (abort_reason wd) (_watched_procs wd)
     (_has_alert_cb wd) (_last_proc_check wd) (_last_res_check wd)
     (events_count wd) (last_event wd).

Definition on_alert (wd : t) : t :=
  mk (_running wd) (_last_heartbeat wd) (_step_label wd)
     (abort_requested wd) (abort_reason wd) (_watched_procs wd) true
     (_last_proc_check wd) (_last_res_check wd) (events_count wd)
     (last_event wd).

Definition watch_process (name : string) (wd : t) : t :=
  mk (_running wd) (_last_heartbeat wd) (_step_label wd)
     (abort_requested wd) (abort_reason wd)
     (if bool_decide (name ∈ _watched_procs wd) then _watched_procs wd
      else (_watched_procs wd ++ [name])%list)
     (_has_alert_cb wd) (_last_proc_check wd) (_last_res_check wd)
     (events_count wd) (last_event wd).

Definition step_started (now : float) (action label : string) (wd : t)
    : t :=
  heartbeat now (if truthy label then label else action) wd.

Definition step_finished (now : float) (wd : t) : t := heartbeat now "" wd.

Section with_client.
(** [C] is the state of the object that registered the alert callback
    and [alert_cb event message] the callback itself. *)
Context {C : Type}.
Variable alert_cb : string -> string -> C -> C.
(** [fmt0 x] stands for the text of [f"{x:.0f}"]. *)
Variable fmt0 : float -> string.

Definition _fire (event_type message : string) (s : t * C) : t * C :=
  let wd := s.1 in
  let wd' :=
    mk (_running wd) (_last_heartbeat wd) (_step_label wd)
       (abort_requested wd) (abort_reason wd) (_watched_procs wd)
       (_has_alert_cb wd) (_last_proc_check wd) (_last_res_check wd)
       (events_count wd + 1) (Some event_type) in
  (wd', if _has_alert_cb wd then alert_cb event_type message s.2
        else s.2).

Definition heartbeat_msg (age : float) (label : string) : string :=
  "Heartbeat timeout: " ++ fmt0 age ++ "s since last pulse. Step: '"
    ++ label ++ "'".

Definition _check_heartbeat (now : float) (s : t * C) : t * C :=
  let wd := s.1 in
  let age := (now - _last_heartbeat wd)%float in
  if (HEARTBEAT_TIMEOUT_S <? age)%float then
    let msg := heartbeat_msg age (_step_label wd) in
    let wd1 :=
      mk (_running wd) (_last_heartbeat wd) (_step_label wd) true msg
         (_watched_procs wd) (_has_alert_cb wd) (_last_proc_check wd)
         (_last_res_check wd) (events_count wd) (last_event wd) in
    let s2 := _fire WatchdogEvent.HEARTBEAT_TIMEOUT msg (wd1, s.2) in
    let wd2 := s2.1 in
    (mk (_running wd2) now (_step_label wd2) (abort_requested wd2)
        (abort_reason wd2) (_watched_procs wd2) (_has_alert_cb wd2)
        (_last_proc_check wd2) (_last_res_check wd2) (events_count wd2)
        (last_event wd2), s2.2)
  else s.

(** What the probes of one loop iteration report: for each watched
    process whether [pgrep] found it, whether [wmctrl] lists a window
    that is not responding, and the CPU and memory readings. *)
Record Probe := mk_probe {
  p_now : float;
  p_alive : string -> bool;
  p_not_responding : bool;
  p_cpu : float;
  p_mem_mb : float
}.

Definition set_watched (procs : list string) (wd : t) : t :=
  mk (_running wd) (_last_heartbeat wd) (_step_label wd)
     (abort_requested wd) (abort_reason wd) procs (_has_alert_cb wd)
     (_last_proc_check wd) (_last_res_check wd) (events_count wd)
     (last_event wd).

Definition _check_processes (p : Probe) (s : t * C) : t * C :=
  let procs := _watched_procs s.1 in
  let s1 :=
    foldl (fun s' proc =>
             if p_alive p proc then s'
             else _fire WatchdogEvent.PROCESS_DEAD
                        ("Monitored process died: " ++ proc) s')
          s procs in
  let s2 :=
    (set_watched (filter (fun proc => p_alive p proc = true) procs) s1.1,
     s1.2) in
  if p_not_responding p
  then _fire WatchdogEvent.WINDOW_CRASH
             "Window 'Not Responding' detected." s2
  else s2.

(** [_check_resources] only writes warnings to the log. *)
Definition _check_resources (p : Probe) (s : t * C) : t * C := s.

Definition set_proc_check (now : float) (wd : t) : t :=
  mk (_running wd) (_last_heartbeat wd) (_step_label wd)
     (abort_requested wd) (abort_reason wd) (_watched_procs wd)
     (_has_alert_cb wd) now (_last_res_check wd) (events_count wd)
     (last_event wd).

Definition set_res_check (now : float) (wd : t) : t :=
  mk (_running wd) (_last_heartbeat wd) (_step_label wd)
     (abort_requested wd) (abort_reason wd) (_watched_procs wd)
     (_has_alert_cb wd) (_last_proc_check wd) now (events_count wd)
     (last_event wd).

(** One iteration of the loop of [_run]. *)
Definition _run_iteration (p : Probe) (s : t * C) : t * C :=
  let now := p_now p in
  let s1 := _check_heartbeat now s in
  let s2 :=
    if (PROCESS_CHECK_INTERVAL_S <=? now - _last_proc_check s1.1)%float
    then let s' := _check_processes p s1 in
         (set_proc_check now s'.1, s'.2)
    else s1 in
  if (RESOURCE_CHECK_INTERVAL_S <=? now - _last_res_check s2.1)%float
  then let s' := _check_resources p s2 in
       (set_res_check now s'.1, s'.2)
  else s2.
End with_client.

End Watchdog.

(** ** The world the engine acts on *)

(** The three action backends handed to the orchestrator. *)
Inductive Backend := UI | BrowserB | SystemB.

(** What awaiting a backend's [execute(step)] yields. *)
Inductive exec_outcome :=
| Truthy
| Falsy
| ExTimeout
| ExRaise (msg : string).

(** [core/capability_detector.py], as far as the executor consults it. *)
Record Capabilities := mk_capabilities {
  method_available : string -> bool;
  best_method_for : string -> string
}.

(** Everything the engine does not decide itself.  The [n]-th call of a
    backend, the [n]-th call of the verifier and the [n]-th clock reading
    are numbered in the order in which the run makes them, and so are the
    accesses of the orchestrator to the state it shares with the watchdog
    thread (the heartbeat and the abort flags). *)
Record Env := mk_env {
  env_uuid : nat -> string;                       (* uuid4().hex[:6] *)
  env_set_order : gset string -> list string;     (* iteration order of sets *)
  env_backend : nat -> Backend -> step_dict -> exec_outcome;
  env_verifier : nat -> step_dict -> bool;        (* Verifier.verify_step *)
  env_now : nat -> datetime;                      (* datetime.now() *)
  env_monotonic : nat -> float;                   (* time.monotonic() *)
  env_fmt0 : float -> string;                     (* f"{x:.0f}" *)
  env_repr : string -> string;                    (* repr(s) *)
  env_re_search : string -> string -> bool;       (* re.search(p, s, re.I) *)
  env_str_lower : string -> string;               (* s.lower() *)
  (* the iterations the loop of the watchdog thread made between the
     previous access of the orchestrator to the shared state and its
     [n]-th access *)
  env_watchdog : nat -> list Watchdog.Probe;
  env_planner : option StepGraph.Plan;            (* what the planner answered *)
  env_valid_step : step_dict -> bool;             (* SchemaValidator._validate_step *)
  env_capabilities : option Capabilities
}.

Record World := mk_world {
  n_backend : nat;
  n_verify : nat;
  n_clock : nat;
  n_check : nat;
  (* the calls received by the backends, in order *)
  backend_log : list (Backend * step_dict)
}.

Definition world0 : World := mk_world 0 0 0 0 [].

(** ** core/rollback_manager.py *)

Module RollbackManager.

Record RollbackEntry := mk_entry {
  step : step_dict;
  source_step_id : string;
  executed : bool;
  success : bool;
  error : string
}.

(** The result dictionary of [_execute_rollback]. *)
Record RollbackResult := mk_result {
  rr_action : string;
  rr_value : string;
  rr_source_step : string;
  rr_success : bool;
  rr_error : string
}.

Definition new_entry (step : step_dict) (source_step_id : string)
    : RollbackEntry :=
  mk_entry step source_step_id false false "".

(** The manager is its [_stack]. *)
Definition t := list RollbackEntry.

Definition push (rollback_step : step_dict) (source_step_id : string)
    (stack : t) : t :=
  if negb (truthy_opt (rollback_step !! "action")) then stack
  else (stack ++ [new_entry rollback_step source_step_id])%list.

Definition push_from_graph (g : StepGraph.t) (stack : t) : t :=
  foldl (fun st step => push step (dict_get step "_for" "") st) stack
        (StepGraph.rollback_all g).

Definition clear (stack : t) : t := [].

(** [_execute_rollback] on the outcome of the backend call: both backends
    being present, the executor is [system_actions.execute]. *)
Definition result_of (entry : RollbackEntry) (o : exec_outcome)
    : RollbackResult :=
  let action := dict_get (step entry) "action" "" in
  let value := dict_get (step entry) "value" "" in
  match o with
  | Truthy => mk_result action value (source_step_id entry) true ""
  | Falsy => mk_result action value (source_step_id entry) false
                       "Rollback action returned False"
  | ExTimeout => mk_result action value (source_step_id entry) false
                           "Rollback timeout"
  | ExRaise msg => mk_result action value (source_step_id entry) false msg
  end.

End RollbackManager.

(** ** core/orchestrator.py and the components it drives *)

Record TaskResult := mk_task_result {
  tr_success : bool;
  tr_task_name : string;
  tr_command : string;
  tr_steps_done : nat;
  tr_steps_total : nat;
  tr_duration_s : float;
  tr_error : string;
  tr_graph : option StepGraph.t
}.

Module Orchestrator.

(** The orchestrator object with the objects it owns, the graph and the
    context of the run in progress, and the world. *)
Record t := mk {
  state_machine : StateMachine.t;
  retry_policy : RetryPolicy.t;
  watchdog : Watchdog.t;
  rollback_mgr : RollbackManager.t;
  _abort : bool;
  graph : StepGraph.t;
  ctx : ExecutionContext.t;
  world : World
}.

Definition set_sm (x : StateMachine.t) (o : t) : t :=
  mk x (retry_policy o) (watchdog o) (rollback_mgr o) (_abort o) (graph o)
     (ctx o) (world o).
Definition set_rp (x : RetryPolicy.t) (o : t) : t :=
  mk (state_machine o) x (watchdog o) (rollback_mgr o) (_abort o) (graph o)
     (ctx o) (world o).
Definition set_wd (x : Watchdog.t) (o : t) : t :=
  mk (state_machine o) (retry_policy o) x (rollback_mgr o) (_abort o)
     (graph o) (ctx o) (world o).
Definition set_rb (x : RollbackManager.t) (o : t) : t :=
  mk (state_machine o) (retry_policy o) (watchdog o) x (_abort o) (graph o)
     (ctx o) (world o).
Definition set_abort (x : bool) (o : t) : t :=
  mk (state_machine o) (retry_policy o) (watchdog o) (rollback_mgr o) x
     (graph o) (ctx o) (world o).
Definition set_graph (x : StepGraph.t) (o : t) : t :=
  mk (state_machine o) (retry_policy o) (watchdog o) (rollback_mgr o)
     (_abort o) x (ctx o) (world o).
Definition set_ctx (x : ExecutionContext.t) (o : t) : t :=
  mk (state_machine o) (retry_policy o) (watchdog o) (rollback_mgr o)
     (_abort o) (graph o) x (world o).
Definition set_world (x : World) (o : t) : t :=
  mk (state_machine o) (retry_policy o) (watchdog o) (rollback_mgr o)
     (_abort o) (graph o) (ctx o) x.

(** [__init__]: fresh sub-systems; the alert callback is registered. *)
Definition init (env : Env) (exec_mode : ExecMode) : t :=
  mk StateMachine.init
     (RetryPolicy.mk (RetryPolicy.mk_config 3 0.6%Q 1.5%Q 4%Q true) ∅)
     (Watchdog.on_alert (Watchdog.init (env_monotonic env 0)))
     [] false StepGraph.init (ExecutionContext.init exec_mode "") world0.

(** *** The monad of the orchestrator's methods: state and exceptions.
    The state reached when an exception is raised is kept. *)
Definition M (A : Type) : Type := t -> res A * t.

Definition ret {A} (a : A) : M A := fun o => (Ok a, o).

Definition bind {A B} (m : M A) (k : A -> M B) : M B :=
  fun o =>
    match m o with
    | (Ok a, o') => k a o'
    | (Raise e, o') => (Raise e, o')
    | (OutOfFuel, o') => (OutOfFuel, o')
    end.

Definition raise {A} (e : exn) : M A := fun o => (Raise e, o).
Definition out_of_fuel {A} : M A := fun o => (OutOfFuel, o).
Definition get : M t := fun o => (Ok o, o).
Definition modify (f : t -> t) : M unit := fun o => (Ok tt, f o).
Definition lift {A} (r : res A) : M A := fun o => (r, o).

End Orchestrator.

Declare Scope orch_scope.
Delimit Scope orch_scope with orch.
Notation "x <- c1 ;; c2" := (Orchestrator.bind c1 (fun x => c2))
  (at level 100, c1 at next level, right associativity) : orch_scope.
Notation "c1 ;; c2" := (Orchestrator.bind c1 (fun _ => c2))
  (at level 100, right associativity) : orch_scope.

Module StepExecutor.

Definition browser_native : list string :=
  ["navigate"; "find_and_click"; "type_text"; "scroll";
   "wait_for_element"; "get_text"].
Definition system_native : list string :=
  ["set_volume"; "set_brightness"; "run_command"; "focus_window";
   "close_window"; "open_terminal"; "open_menu"; "verify_window";
   "navigate_folder"].

Definition _capability_best (caps : option Capabilities) (action : string)
    : string :=
  match caps with
  | Some c => best_method_for c action
  | None => "system"
  end.

Definition _resolve_method (caps : option Capabilities) (step : step_dict)
    : string :=
  let hinted := dict_get step "method" "auto" in
  if truthy hinted && negb (bool_decide (hinted = "auto")) then
    match caps with
    | Some c =>
        if negb (method_available c hinted)
        then _capability_best caps (dict_get step "action" "")
        else hinted
    | None => hinted
    end
  else
    match caps with
    | Some c => best_method_for c (dict_get step "action" "")
    | None =>
        let action := dict_get step "action" "" in
        if bool_decide (action ∈ browser_native) then "browser"
        else if bool_decide (action ∈ system_native) then "system"
        else "accessibility"
    end.

Definition _pick_executor (action method : string) : Backend :=
  if bool_decide (method = "browser")
     || bool_decide (action ∈ ["navigate"; "wait_for_element"; "scroll";
                               "get_text"; "find_and_click"])
  then BrowserB
  else if bool_decide (method = "system")
          || bool_decide (action ∈ ["set_volume"; "set_brightness";
                                    "run_command"; "focus_window";
                                    "close_window"; "open_terminal";
                                    "open_menu"; "verify_window"])
  then SystemB
  else UI.

End StepExecutor.

Module Run.
Import Orchestrator.
Local Open Scope orch_scope.

Section with_env.
Variable env : Env.

(** *** Readings and calls into the world *)

Definition tick (w : World) : World :=
  mk_world (n_backend w) (n_verify w) (S (n_clock w)) (n_check w)
           (backend_log w).

Definition now : M datetime :=
  fun o => (Ok (env_now env (n_clock (world o))),
            set_world (tick (world o)) o).

Definition monotonic : M float :=
  fun o => (Ok (env_monotonic env (n_clock (world o))),
            set_world (tick (world o)) o).

Definition call_backend (b : Backend) (d : step_dict) : M exec_outcome :=
  fun o =>
    let w := world o in
    (Ok (env_backend env (n_backend w) b d),
     set_world (mk_world (S (n_backend w)) (n_verify w) (n_clock w)
                         (n_check w) (backend_log w ++ [(b, d)])%list) o).

Definition call_verifier (d : step_dict) : M bool :=
  fun o =>
    let w := world o in
    (Ok (env_verifier env (n_verify w) d),
     set_world (mk_world (n_backend w) (S (n_verify w)) (n_clock w)
                         (n_check w) (backend_log w)) o).

(** [await self.state_machine.transition(...)] *)
Definition sm_transition (new_state : TaskState.t) (step_num : nat)
    (action : string) (total_steps : nat) : M unit :=
  o <- get ;;
  match StateMachine._validate new_state (state_machine o) with
  | Ok _ =>
      t <- now ;;
      modify (fun o' =>
        set_sm (StateMachine._apply t new_state step_num action
                  total_steps (state_machine o')) o')
  | Raise e => raise e
  | OutOfFuel => out_of_fuel
  end.

Definition update_node (i : nat) (f : StepNode.t -> StepNode.t) : M unit :=
  modify (fun o => set_graph (StepGraph.update_node i f (graph o)) o).

(** *** core/step_executor.py: [StepExecutor.execute].  It catches every
    exception of the backend and always returns an [ActionResult]. *)
Definition execute (step : step_dict) : M ActionResult.t :=
  let action := dict_get step "action" "" in
  let value := dict_get step "value" "" in
  let method := StepExecutor._resolve_method (env_capabilities env) step in
  t0 <- monotonic ;;
  raw <- call_backend (StepExecutor._pick_executor action method)
                      (<["method" := method]> step) ;;
  t1 <- monotonic ;;
  let duration_ms := (t1 * 1000 - t0 * 1000)%float in
  match raw with
  | Truthy => ret (ActionResult.ok action value method duration_ms)
  | Falsy =>
      ret (ActionResult.fail action value method
             "Executor returned falsy result" ECode.UNKNOWN "" duration_ms)
  | ExTimeout =>
      ret (ActionResult.fail action value method
             ("TimeoutError after " ++ env_fmt0 env duration_ms ++ "ms")
             ECode.UNKNOWN "" duration_ms)
  | ExRaise msg =>
      ret (ActionResult.fail action value method msg ECode.UNKNOWN ""
                             duration_ms)
  end.

(** [execute] as the callable handed to the retry policy. *)
Definition execute_fn (step : step_dict) (o : t)
    : RetryPolicy.fn_outcome * t :=
  match execute step o with
  | (Ok r, o') => (RetryPolicy.Returned r, o')
  | (_, o') => (RetryPolicy.Raised "", o')
  end.

(** [await self.retry_policy.execute_with_retry(fn=self.step_executor.execute, ...)];
    the browser lock only serialises concurrent callers. *)
Definition execute_with_retry (step : step_dict)
    : M (option ActionResult.t) :=
  fun o =>
    let '(r, rp', o') :=
      RetryPolicy.execute_with_retry execute_fn step (retry_policy o) o in
    (Ok r, set_rp rp' o').

(** *** core/recovery.py *)

Definition recovery_system_native : list string :=
  ["run_command"; "set_volume"; "set_brightness"; "open_menu";
   "verify_window"; "focus_window"; "close_window"; "open_terminal"].

(** [RecoveryEngine.full_reset]: two attempts through the backend that
    owns the action. *)
Definition full_reset (step : step_dict) : M bool :=
  let action := dict_get step "action" "" in
  let backend :=
    if bool_decide (action ∈ recovery_system_native) then SystemB
    else UI in
  r1 <- call_backend backend step ;;
  match r1 with
  | Truthy => ret true
  | _ =>
      r2 <- call_backend backend step ;;
      match r2 with
      | Truthy => ret true
      | _ => ret false
      end
  end.

(** [RecoveryEngine.recover_verify_failure]: the re-execution goes
    through [agent._execute_step_with_recovery], an attribute the
    orchestrator does not have. *)
Definition recover_verify_failure (step : step_dict) : M bool :=
  verified <- call_verifier step ;;
  if verified then ret true
  else raise (AttributeError "_execute_step_with_recovery").

(** [Orchestrator._verify]; a verification that times out counts as
    passed ([fallback=True]), which [env_verifier] answering [true]
    covers. *)
Definition _verify (step : step_dict) : M bool :=
  let action := dict_get step "action" "" in
  if bool_decide (action = "run_command") then ret true
  else if bool_decide (action ∈ ["open_app"; "open_terminal"; "open_menu";
                                 "search"; "click_result"])
  then ret true
  else call_verifier step.

(** *** [Orchestrator._make_result] *)
Definition _make_result (g : StepGraph.t) (task_name command error : string)
    : TaskResult :=
  let '(done, total) := StepGraph.progress g in
  let success := negb (truthy error) && bool_decide (done = total) in
  mk_task_result success task_name command done total 0%float error
                 (Some g).

(** *** The watchdog thread

    The thread runs beside the execution, from [start] to [stop].  It
    shares with the orchestrator the heartbeat and the abort flag of the
    watchdog and, through the alert callback [_on_watchdog_alert], the
    orchestrator's [_abort].  What the thread did between two accesses of
    the orchestrator to that state takes effect, in order, before the later
    access: [ticks n s] applies to [s] the iterations made before the
    [n]-th access.  There is no thread before [start] and after [stop]. *)
Definition _on_watchdog_alert (event message : string) (abort : bool)
    : bool :=
  if bool_decide (event = "heartbeat_timeout") then true else abort.

Definition ticks (n : nat) (s : Watchdog.t * bool) : Watchdog.t * bool :=
  if Watchdog._running s.1
  then foldl (fun s p =>
                Watchdog._run_iteration _on_watchdog_alert (env_fmt0 env)
                                        p s)
             s (env_watchdog env n)
  else s.

Definition watchdog_ran : M unit :=
  modify (fun o =>
    let w := world o in
    let s := ticks (n_check w) (watchdog o, _abort o) in
    set_world (mk_world (n_backend w) (n_verify w) (n_clock w)
                        (S (n_check w)) (backend_log w))
      (set_abort s.2 (set_wd s.1 o))).

(** *** [Orchestrator._exec_node]; [i] points to the node.  The thread
    may run before each of the three heartbeats the method sends: between
    the per-node check and [step_started], while the step is executed, and
    between [step_finished] and the pulse that follows it. *)
Definition label_of (node : StepNode.t) : string :=
  "[" ++ str_of_nat (StepNode.seq_num node) ++ "] "
      ++ StepNode.action node ++ "=" ++ env_repr env (StepNode.value node).

Definition wd_update (f : float -> Watchdog.t -> Watchdog.t) : M unit :=
  t <- monotonic ;;
  modify (fun o => set_wd (f t (watchdog o)) o).

Definition mark (i : nat) (f : datetime -> StepNode.t -> StepNode.t)
    : M unit :=
  t <- now ;; update_node i (f t).

Definition _exec_node (i : nat) (node : StepNode.t) : M bool :=
  let step := StepNode.to_step_dict node in
  let label := label_of node in
  o0 <- get ;;
  sm_transition TaskState.EXECUTING (StepNode.seq_num node)
                (StepNode.action node) (length (StepGraph.nodes (graph o0))) ;;
  mark i StepNode.mark_running ;;
  watchdog_ran ;;
  wd_update (fun t => Watchdog.step_started t (StepNode.action node) label) ;;
  result <- execute_with_retry step ;;
  watchdog_ran ;;
  wd_update Watchdog.step_finished ;;
  watchdog_ran ;;
  wd_update (fun t => Watchdog.heartbeat t label) ;;
  recovered <-
    match result with
    | Some r => ret (Some r)
    | None =>
        let classified :=
          ErrorClassifier.classify (env_re_search env) (env_str_lower env)
            "executor returned None or False"
            (StepNode.action node) (StepNode.method node) in
        sm_transition TaskState.RECOVERING 0 "" 0 ;;
        ok <- full_reset step ;;
        if ok
        then ret (Some (ActionResult.ok (StepNode.action node)
                          (StepNode.value node) "recovery" 0%float))
        else
          mark i (fun t =>
            StepNode.mark_failed t
              (ErrorClass_value (ClassifiedError.error_class classified)
               ++ ": all retries exhausted")) ;;
          sm_transition TaskState.FAILED 0 "" 0 ;;
          ret None
    end ;;
  match recovered with
  | None => ret false
  | Some result =>
      sm_transition TaskState.VERIFYING (StepNode.seq_num node) "" 0 ;;
      verified <- _verify step ;;
      v_ok <- (if verified then ret true
               else recover_verify_failure step) ;;
      if negb v_ok then
        mark i (fun t =>
          StepNode.mark_failed t "verification failed after recovery") ;;
        sm_transition TaskState.FAILED 0 "" 0 ;;
        ret false
      else
        mark i (fun t =>
          StepNode.mark_success t (ActionResult.method result)) ;;
        modify (fun o =>
          let c := ExecutionContext.record_step_end
                     (StepNode.action node) (ActionResult.method result)
                     true (ctx o) in
          set_ctx (if bool_decide (StepNode.action node = "open_app")
                   then ExecutionContext.set_active_app
                          (StepNode.value node) c
                   else c) o) ;;
        (if truthy_opt (StepNode.rollback_action node)
         then modify (fun o =>
                set_rb (RollbackManager.push
                          (<["action" := default "" (StepNode.rollback_action node)]>
                             (<["value" := StepNode.value node]>
                                (<["method" := "system"]> ∅)))
                          (StepNode.step_id node) (rollback_mgr o)) o)
         else ret tt) ;;
        ret true
  end.

(** *** [Orchestrator._exec_graph] *)

(** The body of [for node in ready] for one node: [Some r] when the
    function returns [r], [None] to go on with the next node. *)
Definition exec_ready_node (i : nat) : M (option TaskResult) :=
  watchdog_ran ;;
  o <- get ;;
  match StepGraph.nodes (graph o) !! i with
  | None => ret None
  | Some node =>
      let task_name := StepGraph.task_name (graph o) in
      if _abort o || Watchdog.abort_requested (watchdog o) then
        mark i (fun t => StepNode.mark_failed t "Watchdog abort") ;;
        o1 <- get ;;
        let failed_error :=
          if truthy (Watchdog.abort_reason (watchdog o1))
          then Watchdog.abort_reason (watchdog o1)
          else "Watchdog abort" in
        sm_transition TaskState.FAILED 0 "" 0 ;;
        o2 <- get ;;
        ret (Some (_make_result (graph o2) task_name "" failed_error))
      else
        let '(can, c') :=
          ExecutionContext.can_execute (StepNode.to_step_dict node)
                                       (ctx o) in
        modify (set_ctx c') ;;
        if negb can then
          update_node i (StepNode.mark_skipped "blocked by exec_context") ;;
          ret None
        else
          outcome <- _exec_node i node ;;
          if negb outcome then
            o2 <- get ;;
            let failed_error :=
              match StepGraph.nodes (graph o2) !! i with
              | Some n => StepNode.error n
              | None => ""
              end in
            ret (Some (_make_result (graph o2) task_name "" failed_error))
          else ret None
  end.

Fixpoint exec_ready (ready : list nat) : M (option TaskResult) :=
  match ready with
  | [] => ret None
  | i :: rest =>
      r <- exec_ready_node i ;;
      match r with
      | Some result => ret (Some result)
      | None => exec_ready rest
      end
  end.

(** The [while True] loop.  Every round that does not return takes at
    least one node out of PENDING; [fuel] bounds the rounds. *)
Fixpoint exec_loop (fuel : nat) : M TaskResult :=
  match fuel with
  | O => out_of_fuel
  | S fuel' =>
      o <- get ;;
      let task_name := StepGraph.task_name (graph o) in
      match StepGraph.pending_nodes (graph o) with
      | [] =>
          let '(done, total) := StepGraph.progress (graph o) in
          let success := bool_decide (done = total) in
          ret (_make_result (graph o) task_name ""
                            (if success then "" else "incomplete"))
      | ready =>
          r <- exec_ready ready ;;
          match r with
          | Some result => ret result
          | None =>
              o1 <- get ;;
              if StepGraph.has_failed (graph o1) then
                let failed_error :=
                  match StepGraph.failed_nodes (graph o1) with
                  | fn :: _ => StepNode.error fn
                  | [] => ""
                  end in
                ret (_make_result (graph o1) task_name "" failed_error)
              else exec_loop fuel'
          end
      end
  end.

Definition _exec_graph : M TaskResult :=
  o <- get ;;
  exec_loop (S (length (StepGraph.nodes (graph o)))).

(** *** [RollbackManager.rollback_all], driven through the backends *)
Fixpoint run_rollbacks (entries : list RollbackManager.RollbackEntry)
    : M (list RollbackManager.RollbackResult) :=
  match entries with
  | [] => ret []
  | entry :: rest =>
      o <- call_backend SystemB (RollbackManager.step entry) ;;
      rs <- run_rollbacks rest ;;
      ret (RollbackManager.result_of entry o :: rs)
  end.

Definition rollback_all : M (list RollbackManager.RollbackResult) :=
  o <- get ;;
  match rollback_mgr o with
  | [] => ret []
  | stack =>
      results <- run_rollbacks (rev stack) ;;
      modify (set_rb []) ;;
      ret results
  end.

(** *** [Orchestrator._plan]: the planner's answer after validation. *)
Definition validate_plan (plan : StepGraph.Plan) : bool :=
  match StepGraph.plan_task plan with
  | None => false
  | Some task =>
      negb (bool_decide (StepGraph.plan_steps plan = []))
      && truthy task && (String.length task <=? 100)%nat
      && forallb (env_valid_step env) (StepGraph.plan_steps plan)
  end.

Definition sanitize_plan (plan : StepGraph.Plan) : StepGraph.Plan :=
  StepGraph.mk_plan
    (Some (default "unknown" (StepGraph.plan_task plan)))
    (List.filter (env_valid_step env) (StepGraph.plan_steps plan)).

Definition _plan : option StepGraph.Plan :=
  match env_planner env with
  | None => None
  | Some plan =>
      if validate_plan plan then Some plan
      else
        let sanitized := sanitize_plan plan in
        match StepGraph.plan_steps sanitized with
        | [] => None
        | _ => Some sanitized
        end
  end.

(** *** [Orchestrator.run] *)

Definition with_result_meta (duration : float) (g : StepGraph.t)
    (r : TaskResult) : TaskResult :=
  mk_task_result (tr_success r) (tr_task_name r) (tr_command r)
                 (tr_steps_done r) (tr_steps_total r) duration
                 (tr_error r) (Some g).

Definition run (user_command : string) (mode : ExecMode) : M TaskResult :=
  start_t <- monotonic ;;
  watchdog_ran ;;
  modify (fun o =>
    set_abort false (set_ctx (ExecutionContext.init mode "pending") o)) ;;
  o <- get ;;
  (if Watchdog._running (watchdog o) then ret tt
   else wd_update Watchdog.start) ;;
  modify (fun o => set_rb (RollbackManager.clear (rollback_mgr o)) o) ;;
  sm_transition TaskState.PLANNED 0 "" 0 ;;
  match _plan with
  | None =>
      sm_transition TaskState.FAILED 0 "" 0 ;;
      (* _force_reset_state *)
      modify (fun o =>
        let sm := state_machine o in
        set_sm (StateMachine.mk TaskState.INIT (StateMachine._prev sm)
                  (StateMachine._step sm) (StateMachine._history sm)
                  (StateMachine._task_start sm)
                  (StateMachine.task_name sm)) o) ;;
      watchdog_ran ;;
      modify (fun o => set_wd (Watchdog.stop (watchdog o)) o) ;;
      end_t <- monotonic ;;
      ret (mk_task_result false "" user_command 0 0 (end_t - start_t)%float
                          "Planning failed" None)
  | Some plan =>
      let task := default "unknown" (StepGraph.plan_task plan) in
      modify (fun o =>
        set_ctx (ExecutionContext.set_task_name task (ctx o)) o) ;;
      if bool_decide (mode = DRY_RUN) then
        modify (fun o =>
          set_ctx (ExecutionContext.simulate (StepGraph.plan_steps plan)
                                             (ctx o)).2 o) ;;
        watchdog_ran ;;
        modify (fun o => set_wd (Watchdog.stop (watchdog o)) o) ;;
        sm_transition TaskState.SUCCESS 0 "" 0 ;;
        sm_transition TaskState.INIT 0 "" 0 ;;
        end_t <- monotonic ;;
        ret (mk_task_result true task user_command 0
               (length (StepGraph.plan_steps plan)) (end_t - start_t)%float
               "dry_run: no actions executed" None)
      else
        g <- lift (StepGraph.from_plan (env_uuid env) (env_set_order env)
                                       plan) ;;
        modify (set_graph (StepGraph.freeze g)) ;;
        result <- _exec_graph ;;
        end_t <- monotonic ;;
        let duration := (end_t - start_t)%float in
        (if tr_success result
         then sm_transition TaskState.SUCCESS 0 "" 0
         else
           o <- get ;;
           if bool_decide (StateMachine._state (state_machine o)
                           ∈ [TaskState.FAILED; TaskState.CANCELLED])
           then ret tt
           else sm_transition TaskState.FAILED 0 "" 0) ;;
        o <- get ;;
        let result := with_result_meta duration (graph o) result in
        (if negb (tr_success result)
         then (_ <- rollback_all ;; ret tt)
         else ret tt) ;;
        watchdog_ran ;;
        modify (fun o => set_wd (Watchdog.stop (watchdog o)) o) ;;
        t <- now ;;
        modify (fun o =>
          set_sm (StateMachine.force_reset t (state_machine o)) o) ;;
        ret result
  end.

End with_env.
End Run.

(** ** Notions used to state and prove the properties of a run *)

(** [allowed_b s new_state]: the two guards of [StateMachine._validate] let
    the transition from [s] to [new_state] pass. *)
Definition allowed_b (s new_state : TaskState.t) : bool :=
  bool_decide (new_state ∈ ALLOWED s)
  && (negb (bool_decide (s ∈ TERMINAL_STATES))
      || bool_decide (new_state = TaskState.INIT)).

(** The world after one call of [StepExecutor.execute]: one backend call
    and two clock readings. *)
Definition world_after_execute (w : World) (b : Backend) (d : step_dict)
    : World :=
  mk_world (S (n_backend w)) (n_verify w) (S (S (n_clock w))) (n_check w)
           (backend_log w ++ [(b, d)])%list.

(** The rollback stack after a node succeeded. *)
Definition rollback_after (node : StepNode.t) (rb : RollbackManager.t)
    : RollbackManager.t :=
  if truthy_opt (StepNode.rollback_action node)
  then RollbackManager.push
         (<["action" := default "" (StepNode.rollback_action node)]>
            (<["value" := StepNode.value node]> (<["method" := "system"]> ∅)))
         (StepNode.step_id node) rb
  else rb.

(** [admits mode step]: the execution-mode gate lets the step run. *)
Definition admits (mode : ExecMode) (step : step_dict) : bool :=
  match mode with
  | LIVE => true
  | DRY_RUN => false
  | SAFE_MODE =>
      negb (bool_decide (dict_get step "action" "" ∈ BLOCKED_IN_SAFE))
      && bool_decide (dict_get step "action" "" ∈ SAFE_ACTIONS)
  end.


(** [chain_at uuid plan k g]: [g] is the graph built from [plan] in which
    the first [k] nodes are SUCCESS and the others PENDING. *)
Definition chain_at (uuid : nat -> string) (plan : StepGraph.Plan) (k : nat)
    (g : StepGraph.t) : Prop :=
  StepGraph._id_index g = StepGraph._id_index (StepGraph.built uuid plan)
  /\ StepGraph.task_name g = StepGraph.task_name (StepGraph.built uuid plan)
  /\ length (StepGraph.nodes g) = length (StepGraph.plan_steps plan)
  /\ forall j n, StepGraph.nodes g !! j = Some n ->
       (exists step, StepGraph.plan_steps plan !! j = Some step
          /\ StepNode.structure n
             = StepNode.structure
                 (StepGraph.make_node (uuid j) j (StepGraph.prev_of uuid j)
                                      step))
       /\ (j < k -> StepNode.status n = SUCCESS)
       /\ (k <= j -> StepNode.status n = PENDING).

(** The positions of a list, counted from [off], at which [f] holds. *)
Fixpoint positions_where {A} (f : nat -> A -> bool) (off : nat) (l : list A)
    : list nat :=
  match l with
  | [] => []
  | x :: rest =>
      (if f off x then [off] else []) ++ positions_where f (S off) rest
  end.

(** An orchestrator between two runs: constructed by [__init__] (retry
    configuration, alert callback registered), state machine in INIT and
    watchdog stopped. *)
Definition operational (o : Orchestrator.t) : Prop :=
  RetryPolicy.max_attempts (RetryPolicy.config (Orchestrator.retry_policy o)) = 3
  /\ Watchdog._has_alert_cb (Orchestrator.watchdog o) = true
  /\ StateMachine._state (Orchestrator.state_machine o) = TaskState.INIT
  /\ Watchdog._running (Orchestrator.watchdog o) = false.

(** The state the orchestrator shares with the watchdog thread: the
    watchdog object and the orchestrator's [_abort]. *)
Definition shared (o : Orchestrator.t) : Watchdog.t * bool :=
  (Orchestrator.watchdog o, Orchestrator._abort o).

(** [abort_sound s]: the orchestrator's [_abort] is up only if the
    watchdog's [abort_requested] is. *)
Definition abort_sound (s : Watchdog.t * bool) : Prop :=
  s.2 = true -> Watchdog.abort_requested s.1 = true.

(** [abort_explained fmt0 s]: a raised [abort_requested] comes with a
    heartbeat message as its reason. *)
Definition abort_explained (fmt0 : float -> string) (s : Watchdog.t * bool)
    : Prop :=
  Watchdog.abort_requested s.1 = true ->
  exists age label,
    Watchdog.abort_reason s.1 = Watchdog.heartbeat_msg fmt0 age label.

(** [wd_le fmt0 s s']: from [s] to [s'] the callback and the thread are
    kept, a raised flag is not lowered, and [abort_sound] and
    [abort_explained] are kept. *)
Definition wd_le (fmt0 : float -> string) (s s' : Watchdog.t * bool) : Prop :=
  Watchdog._has_alert_cb s'.1 = Watchdog._has_alert_cb s.1
  /\ Watchdog._running s'.1 = Watchdog._running s.1
  /\ (Watchdog.abort_requested s.1 = true ->
      Watchdog.abort_requested s'.1 = true)
  /\ (s.2 = true -> s'.2 = true)
  /\ (abort_sound s -> abort_sound s')
  /\ (abort_explained fmt0 s -> abort_explained fmt0 s').

(** [rises env c]: whatever [c] does and however it ends, it moves the
    shared state along [wd_le]. *)
Definition rises {A} (env : Env) (c : Orchestrator.M A) : Prop :=
  forall o r o', c o = (r, o') -> wd_le (env_fmt0 env) (shared o) (shared o').

(** [halted r o]: the run was stopped by the watchdog: the result [r] is a
    failure, [abort_requested] is up and the state machine is in FAILED. *)
Definition halted (r : TaskResult) (o : Orchestrator.t) : Prop :=
  tr_success r = false
  /\ Watchdog.abort_requested (Orchestrator.watchdog o) = true
  /\ StateMachine._state (Orchestrator.state_machine o) = TaskState.FAILED.

(** The state of the orchestrator before the [k]-th node of the chain built
    from [plan] is picked up by [_exec_graph], when all nodes before it have
    succeeded; [nb0] and [nv0] count the backend calls and the verifier
    calls made before the loop started. *)
Definition loop_inv (env : Env) (plan : StepGraph.Plan) (mode0 : ExecMode)
    (nb0 nv0 : nat) (k : nat) (o : Orchestrator.t) : Prop :=
  chain_at (env_uuid env) plan k (Orchestrator.graph o)
  /\ StateMachine._state (Orchestrator.state_machine o)
     = (if decide (k = 0) then TaskState.PLANNED else TaskState.VERIFYING)
  /\ RetryPolicy.max_attempts
       (RetryPolicy.config (Orchestrator.retry_policy o)) = 3
  /\ abort_sound (shared o)
  /\ ExecutionContext.mode (Orchestrator.ctx o) = mode0
  /\ n_backend (Orchestrator.world o) = nb0 + k
  /\ (nv0 <= n_verify (Orchestrator.world o) <= nv0 + k)%nat.

(** ** Concrete inputs used in examples *)

Definition mk_step (a v m : string) : step_dict :=
  <["action" := a]> (<["value" := v]> (<["method" := m]> ∅)).

Definition example_uuid (i : nat) : string := "a1b2c3".

Definition example_plan3 : StepGraph.Plan :=
  StepGraph.mk_plan (Some "open_and_browse")
    [ mk_step "open_app" "firefox" "system";
      mk_step "navigate" "https://example.org" "browser";
      mk_step "type_text" "hello" "accessibility" ].

(** The graph of [example_plan3] after step 1 succeeded and step 2 failed. *)
Definition example_graph_step2_failed : StepGraph.t :=
  StepGraph.update_node 1 (StepNode.mark_failed 20%Z "timeout: all retries exhausted")
    (StepGraph.update_node 1 (StepNode.mark_running 12%Z)
      (StepGraph.update_node 0 (StepNode.mark_success 11%Z "system")
        (StepGraph.update_node 0 (StepNode.mark_running 10%Z)
          (StepGraph.freeze (StepGraph.built example_uuid example_plan3))))).

(** A stand-in for the regular-expression engine: it recognises the
    permission rule on the message "permission denied" and nothing else. *)
Definition example_re_search (pattern msg : string) : bool :=
  bool_decide (pattern =
    "permission denied|operation not permitted|access denied|sudo required")
  && bool_decide (msg = "permission denied").

(** A callable whose every call fails with "permission denied". *)
Definition example_denied_fn (d : step_dict) (w : unit)
    : RetryPolicy.fn_outcome * unit :=
  (RetryPolicy.Returned
     (ActionResult.fail (dict_get d "action" "") (dict_get d "value" "")
        (dict_get d "method" "") "permission denied" ECode.UNKNOWN "" 0%float),
   tt).

Definition example_click_step : step_dict :=
  mk_step "click_button" "Install" "accessibility".

(** A retry policy with the orchestrator's configuration in a session where
    the browser method already failed once for [click_button]. *)
Definition example_policy : RetryPolicy.t :=
  RetryPolicy.mk (RetryPolicy.mk_config 3 0.6%Q 1.5%Q 4%Q true)
                 (<["click_button:browser" := 1]> ∅).

(** A clock for examples: a tenth of a second passes between two
    readings. *)
Fixpoint float_of_nat (n : nat) : float :=
  match n with
  | O => 0%float
  | S k => (float_of_nat k + 1)%float
  end.

Definition example_clock (n : nat) : float := (float_of_nat n / 10)%float.

(** An environment for examples: fixed identifiers, a clock that counts
    its readings, a watchdog thread that is never scheduled; the backend,
    the verifier and the planner's answer are given. *)
Definition example_env
    (backend : nat -> Backend -> step_dict -> exec_outcome)
    (verifier : nat -> step_dict -> bool)
    (plan : option StepGraph.Plan) : Env :=
  mk_env example_uuid elements backend verifier
         (fun n => Z.of_nat n) example_clock
         (fun _ => "0") (fun s => "'" ++ s ++ "'")
         example_re_search id (fun _ => []) plan (fun _ => true) None.

(** Every backend call succeeds, every verification passes. *)
Definition example_env_all_ok : Env :=
  example_env (fun _ _ _ => Truthy) (fun _ _ => true) (Some example_plan3).

(** Every backend call succeeds, no verification passes. *)
Definition example_env_unverified : Env :=
  example_env (fun _ _ _ => Truthy) (fun _ _ => false) (Some example_plan3).

(** [ends_in_INIT c]: whenever [c] returns, the state machine is in INIT. *)
Definition ends_in_INIT {A} (c : Orchestrator.M A) : Prop :=
  forall o r o', c o = (Ok r, o') ->
    StateMachine._state (Orchestrator.state_machine o') = TaskState.INIT.

(** The dictionary handed to the executor for the plan step [s]:
    [to_step_dict] of the node built from it. *)
Definition node_step (s : step_dict) : step_dict :=
  <["action" := dict_get s "action" ""]>
    (<["value" := dict_get s "value" ""]>
       (<["method" := dict_get s "method" "auto"]> ∅)).


(** Only the first backend call succeeds. *)
Definition example_env_step2_fails : Env :=
  example_env (fun n _ _ => if (n =? 0)%nat then Truthy else Falsy)
              (fun _ _ => true) (Some example_plan3).

(** A one-step plan whose action SAFE_MODE blocks. *)
Definition example_plan_lock : StepGraph.Plan :=
  StepGraph.mk_plan (Some "lock_screen")
    [mk_step "run_command" "loginctl lock-session" "system"].

Definition example_env_lock : Env :=
  example_env (fun _ _ _ => Truthy) (fun _ _ => true) (Some example_plan_lock).

(** The watchdog thread runs once while the plan is made, before the
    first per-node check, and reads the clock at 100 s; everything else
    succeeds. *)
Definition example_env_heartbeat_lost : Env :=
  mk_env example_uuid elements (fun _ _ _ => Truthy) (fun _ _ => true)
         (fun n => Z.of_nat n) example_clock
         (fun _ => "0") (fun s => "'" ++ s ++ "'")
         example_re_search id
         (fun n => if (n =? 1)%nat
                   then [Watchdog.mk_probe 100 (fun _ => true) false 0 0]
                   else [])
         (Some example_plan3) (fun _ => true) None.

(** The orchestrator of a run that has started the watchdog, planned
    [example_plan3] and frozen its graph; the first access to the shared
    state, at the start of the run, is behind it. *)
Definition example_planned : Orchestrator.t :=
  let o := Orchestrator.init example_env_heartbeat_lost LIVE in
  Orchestrator.set_world (mk_world 0 0 0 1 [])
    (Orchestrator.set_graph
       (StepGraph.freeze (StepGraph.built example_uuid example_plan3))
       (Orchestrator.set_wd
          (Watchdog.start (example_clock 1) (Orchestrator.watchdog o))
          (Orchestrator.set_sm
             (StateMachine._apply 0%Z TaskState.PLANNED 0 "" 0
                                  (Orchestrator.state_machine o)) o))).

(** An environment whose watchdog thread makes one iteration before each
    access of the orchestrator to the shared state; the iteration reads the
    clock at [at_ n] and finds every process alive. *)
Definition example_env_watched
    (backend : nat -> Backend -> step_dict -> exec_outcome)
    (verifier : nat -> step_dict -> bool)
    (plan : option StepGraph.Plan) (at_ : nat -> float) : Env :=
  mk_env example_uuid elements backend verifier
         (fun n => Z.of_nat n) example_clock
         (fun _ => "0") (fun s => "'" ++ s ++ "'")
         example_re_search id
         (fun n => [Watchdog.mk_probe (at_ n) (fun _ => true) false 0 0])
         plan (fun _ => true) None.

(** Everything succeeds, and the thread's iterations read the clock at
    5 s, later than any heartbeat of the run, which takes less. *)
Definition example_env_all_ok_watched : Env :=
  example_env_watched (fun _ _ _ => Truthy) (fun _ _ => true)
                      (Some example_plan3) (fun _ => 5%float).


(** Everything succeeds, but the first step hangs: the iteration the
    thread makes while it runs (the fourth access to the shared state is
    [step_finished] of the first step) reads the clock 21 s after the step
    started. *)
Definition example_env_hung_step : Env :=
  example_env_watched (fun _ _ _ => Truthy) (fun _ _ => true)
                      (Some example_plan3)
                      (fun n => if (n =? 3)%nat then 21.5%float
                                else 0.5%float).

(** ** Further notions and inputs *)

(** [chain_shape uuid plan g]: [g] has the index, the length and the node
    structure of the graph built from [plan]; only the runtime fields of
    the nodes are free. *)
Definition chain_shape (uuid : nat -> string) (plan : StepGraph.Plan)
    (g : StepGraph.t) : Prop :=
  StepGraph._id_index g = StepGraph._id_index (StepGraph.built uuid plan)
  /\ length (StepGraph.nodes g) = length (StepGraph.plan_steps plan)
  /\ forall j n, StepGraph.nodes g !! j = Some n ->
       exists step, StepGraph.plan_steps plan !! j = Some step
         /\ StepNode.structure n
            = StepNode.structure
                (StepGraph.make_node (uuid j) j (StepGraph.prev_of uuid j) step).

(** The loop of [replan_from] together with the list it returns: the node
    objects it reset, as positions counted from [i]. *)
Fixpoint replan_loop (failed_step_id : string) (retrying : bool) (i : nat)
    (ns : list StepNode.t) : list StepNode.t * list nat :=
  match ns with
  | [] => ([], [])
  | n :: rest =>
      let retrying' :=
        if bool_decide (StepNode.step_id n = failed_step_id) then true
        else retrying in
      let r := replan_loop failed_step_id retrying' (S i) rest in
      ((if retrying' then StepNode.reset_for_retry n else n) :: r.1,
       ((if retrying' then [i] else []) ++ r.2)%list)
  end.

(** A callable that succeeds with the computer-vision method only; its
    state counts the calls. *)
Definition example_cv_only_fn (d : step_dict) (calls : nat)
    : RetryPolicy.fn_outcome * nat :=
  (RetryPolicy.Returned
     (if bool_decide (dict_get d "method" "" = "cv")
      then ActionResult.ok (dict_get d "action" "") (dict_get d "value" "")
                           "cv" 0%float
      else ActionResult.fail (dict_get d "action" "") (dict_get d "value" "")
                             (dict_get d "method" "") "element not found"
                             ECode.ELEMENT_NOT_FOUND "" 0%float),
   S calls).

(** [ActionResult.needs_recovery] *)
Definition needs_recovery (r : ActionResult.t) : bool :=
  negb (ActionResult.success r)
  && negb (bool_decide (ActionResult.recovery_hint r = RHint.NONE)).

(** [ErrorClassifier.get_fallback_method]: the nested dictionary
    [fallback_map], read with [.get(error_class, {})] and then
    [.get(current_method)]. *)
Definition fallback_map (error_class : ErrorClass)
    : list (string * string) :=
  match error_class with
  | ACCESSIBILITY_FAIL => [("accessibility", "cv"); ("cv", "system")]
  | CV_NO_MATCH => [("cv", "accessibility"); ("accessibility", "system")]
  | ELEMENT_NOT_FOUND =>
      [("accessibility", "browser"); ("browser", "cv"); ("cv", "system")]
  | BROWSER_CRASH => [("browser", "accessibility")]
  | _ => []
  end.

Definition get_fallback_method (error_class : ErrorClass)
    (current_method : string) : option string :=
  table_get (fallback_map error_class) current_method.

(** A matcher for examples: it knows the two patterns about refused
    connections and matches them against one message. *)
Definition example_re_search_refused (pattern msg : string) : bool :=
  (bool_decide (pattern =
     "browser.*crash|playwright.*closed|page.*crashed|connection refused.*browser|target closed")
   || bool_decide (pattern =
     "connection refused|network.*error|dns.*fail|http.*error [45]\d\d|ssl.*error|name.*resolution"))
  && bool_decide (msg = "connection refused by browser").

(** A call of the state machine's interface: [transition] with its
    arguments, or [force_reset]; [now] is the clock reading of the call. *)
Inductive sm_call :=
| CallTransition (now : datetime) (new_state : TaskState.t)
                 (step_num : nat) (action : string) (total_steps : nat)
| CallForceReset (now : datetime).

(** The state machine after a call; a [transition] that raises leaves the
    object as it was, since [_validate] raises before [_apply] runs. *)
Definition after_call (sm : StateMachine.t) (c : sm_call) : StateMachine.t :=
  match c with
  | CallTransition now new_state step_num action total_steps =>
      match StateMachine.transition now new_state step_num action
                                    total_steps sm with
      | Ok sm' => sm'
      | _ => sm
      end
  | CallForceReset now => StateMachine.force_reset now sm
  end.

(** Whether the call succeeds on [sm]. *)
Definition call_succeeds (sm : StateMachine.t) (c : sm_call) : bool :=
  match c with
  | CallTransition _ new_state _ _ _ =>
      allowed_b (StateMachine._state sm) new_state
  | CallForceReset _ => true
  end.

(** [chained a h b]: the history entries [h] lead from state value [a]
    to state value [b] without a gap. *)
Fixpoint chained (a : string) (h : list StateMachine.HistoryEntry)
    (b : string) : Prop :=
  match h with
  | [] => a = b
  | e :: rest =>
      StateMachine.h_from e = a /\ chained (StateMachine.h_to e) rest b
  end.

(** How many of the calls succeed when they are made in turn on [sm]. *)
Fixpoint count_successes (sm : StateMachine.t) (calls : list sm_call) : nat :=
  match calls with
  | [] => 0
  | c :: rest =>
      (if call_succeeds sm c then 1 else 0)
      + count_successes (after_call sm c) rest
  end.

(** A sequence of [transition] calls, each made after the one before it
    returned; it stops at the first call that raises. *)
Fixpoint run_transitions (sm : StateMachine.t)
    (calls : list (datetime * TaskState.t * nat * string * nat))
    : res StateMachine.t :=
  match calls with
  | [] => Ok sm
  | (now, new_state, step_num, action, total_steps) :: rest =>
      match StateMachine.transition now new_state step_num action
                                    total_steps sm with
      | Ok sm' => run_transitions sm' rest
      | Raise e => Raise e
      | OutOfFuel => OutOfFuel
      end
  end.

(** The states that must still be entered on the way from a state to
    SUCCESS. *)
Definition needed_before_success (s : TaskState.t) : list TaskState.t :=
  match s with
  | TaskState.VERIFYING => []
  | TaskState.EXECUTING | TaskState.RECOVERING => [TaskState.VERIFYING]
  | TaskState.PLANNED => [TaskState.EXECUTING; TaskState.VERIFYING]
  | _ => [TaskState.PLANNED; TaskState.EXECUTING; TaskState.VERIFYING]
  end.

(** The planner gave no answer. *)
Definition example_env_no_plan : Env :=
  example_env (fun _ _ _ => Truthy) (fun _ _ => true) None.

(** The planner's answer has no task name, and the validator rejects the
    steps that carry no value. *)
Definition example_env_partly_valid : Env :=
  mk_env example_uuid elements (fun _ _ _ => Truthy) (fun _ _ => true)
         (fun n => Z.of_nat n) example_clock
         (fun _ => "0") (fun s => "'" ++ s ++ "'")
         example_re_search id (fun _ => [])
         (Some (StepGraph.mk_plan None
                  [ mk_step "open_app" "" "system";
                    mk_step "navigate" "https://example.org" "browser" ]))
         (fun s => truthy (dict_get s "value" "")) None.

(** The backend call [StepExecutor.execute] makes for the step dictionary
    [d]: the backend picked for the action and the resolved method, and the
    dictionary with the resolved method. *)
Definition executor_call (caps : option Capabilities) (d : step_dict)
    : Backend * step_dict :=
  let m := StepExecutor._resolve_method caps d in
  (StepExecutor._pick_executor (dict_get d "action" "") m,
   <["method" := m]> d).

(** ** Tactics: symbolic execution of the orchestrator monad *)

Ltac mcbn :=
  cbn [Orchestrator.state_machine Orchestrator.retry_policy Orchestrator.watchdog
       Orchestrator.rollback_mgr Orchestrator._abort Orchestrator.graph
       Orchestrator.ctx Orchestrator.world
       n_backend n_verify n_clock n_check backend_log fst snd orb andb negb].

Ltac msimpl :=
  repeat (progress
            (cbv beta iota delta
               [Orchestrator.bind Orchestrator.ret Orchestrator.get
                Orchestrator.modify Orchestrator.raise Orchestrator.lift
                Orchestrator.out_of_fuel
                Orchestrator.set_sm Orchestrator.set_rp Orchestrator.set_wd
                Orchestrator.set_rb Orchestrator.set_abort
                Orchestrator.set_graph Orchestrator.set_ctx
                Orchestrator.set_world Run.now Run.monotonic Run.call_backend
                Run.call_verifier Run.tick Run.update_node Run.mark
                Run.wd_update];
             mcbn)).

(** ** Properties *)

(** C9: [mark_running] on a node whose status is SUCCESS changes nothing:
    status, attempt count, time stamps and every other field are those of
    the node before the call. *)
Theorem mark_running_success_noop :
  forall (now : datetime) (n : StepNode.t),
    StepNode.status n = SUCCESS ->
    StepNode.mark_running now n = n
    /\ StepNode.status (StepNode.mark_running now n) = SUCCESS
    /\ StepNode.attempts (StepNode.mark_running now n) = StepNode.attempts n
    /\ StepNode.started_at (StepNode.mark_running now n) = StepNode.started_at n
    /\ StepNode.finished_at (StepNode.mark_running now n) = StepNode.finished_at n.
Proof.
  intros now n Hs. unfold StepNode.mark_running.
  rewrite bool_decide_eq_true_2 by exact Hs. repeat split; auto.
Qed.

(** ** Facts about [StepGraph] construction and validation *)

Section graph_facts.
Import StepGraph.

Lemma for_each_progress {A S : Type} (body : A -> S -> res S)
    (ok : A -> Prop) (P : S -> Prop) (Done : A -> S -> Prop)
    (Bad : exn -> Prop) :
  (forall x s, ok x -> P s ->
     match body x s with
     | Ok s' => P s' /\ Done x s' /\ (forall y, Done y s -> Done y s')
     | Raise e => Bad e
     | OutOfFuel => False
     end) ->
  forall xs s, Forall ok xs -> P s ->
     match for_each body xs s with
     | Ok s' => P s' /\ Forall (fun x => Done x s') xs
                /\ (forall y, Done y s -> Done y s')
     | Raise e => Bad e
     | OutOfFuel => False
     end.
Proof.
  intros Hbody xs. induction xs as [|x xs IH]; intros s Hok HP; simpl.
  - auto.
  - inversion Hok as [|? ? Hx Hxs]; subst.
    specialize (Hbody x s Hx HP). destruct (body x s) as [s'| e |]; try done.
    destruct Hbody as (HP' & Hd & Hmono).
    specialize (IH s' Hxs HP'). destruct (for_each body xs s') as [s''| e |]; try done.
    destruct IH as (HP'' & Hall & Hmono').
    split; [done|]. split; [|by auto].
    constructor; auto.
Qed.

Section dfs_correct.
Variable g : StepGraph.t.

Local Abbreviation E := (index_edge g).
Local Abbreviation Inv := (dfs_inv g).
Local Abbreviation cyclic := (index_cyclic g).

Hypothesis closed : forall a b, E a b -> b ∈ ids g.
Hypothesis total : forall a, a ∈ ids g -> is_Some (get_node g a).

Lemma black_reach s b d : Inv s -> black s b -> rtc E b d -> black s d.
Proof.
  intros (_ & _ & Hcl & _) Hb Hr. induction Hr; eauto.
Qed.

Lemma dfs_spec fuel : forall nid s,
  Inv s -> nid ∈ ids g -> nid ∉ visited s ->
  size (ids g ∖ visited s) <= fuel ->
  (forall r, r ∈ rec_stack s -> tc E r nid) ->
  match dfs g fuel nid s with
  | Ok s' => Inv s' /\ rec_stack s' = rec_stack s
             /\ visited s ⊆ visited s' /\ nid ∈ visited s'
  | Raise e => (exists msg, e = GraphBuildError msg) /\ cyclic
  | OutOfFuel => False
  end.
Proof.
  induction fuel as [|fuel IH]; intros nid s HI Hid Hnv Hsz Hstk.
  - exfalso. assert (nid ∈ ids g ∖ visited s) by set_solver.
    assert (size (ids g ∖ visited s) ≠ 0) by (apply size_non_empty_iff; set_solver).
    lia.
  - simpl. destruct (total nid Hid) as [node Hnode]. rewrite Hnode.
    destruct HI as (HVI & HRV & Hcl & Hac).
    assert (HnR : nid ∉ rec_stack s) by set_solver.
    set (s1 := mk_dfs ({[nid]} ∪ visited s) ({[nid]} ∪ rec_stack s)).
    pose (P := fun s' : dfs_state =>
                 Inv s' /\ rec_stack s' = {[nid]} ∪ rec_stack s
                 /\ visited s1 ⊆ visited s').
    pose (Done := fun (d : string) (s' : dfs_state) => black s' d
                    /\ rec_stack s' = {[nid]} ∪ rec_stack s).
    pose (Bad := fun e : exn => (exists msg, e = GraphBuildError msg) /\ cyclic).
    match goal with |- context [for_each ?b _ _] => set (body := b) end.
    assert (Hloop := for_each_progress body (fun d => E nid d) P
                       (fun d s' => black s' d) Bad).
    assert (HP1 : P s1).
    { unfold P, dfs_inv, black, s1; simpl. split; [|set_solver].
      split; [set_solver|]. split; [set_solver|]. split.
      - intros b d [Hb1 Hb2] Hbd.
        assert (black s b) as Hbb by (unfold black; set_solver).
        destruct (Hcl b d Hbb Hbd) as [Hd1 Hd2]. set_solver.
      - intros b [Hb1 Hb2]. apply Hac. unfold black. set_solver. }
    assert (Hdeps : Forall (fun d => E nid d) (StepNode.depends_on node)).
    { apply Forall_forall. intros d Hd. exists node. auto. }
    specialize (Hloop).
    assert (Hbody : forall x s0, E nid x -> P s0 ->
               match body x s0 with
               | Ok s' => P s' /\ black s' x
                          /\ (forall y, black s0 y -> black s' y)
               | Raise e => Bad e
               | OutOfFuel => False
               end).
    { intros d s0 Hed (HI0 & HR0 & HV0). unfold body.
      case_bool_decide as Hdv.
      - (* recursive call *)
        assert (Hdid : d ∈ ids g) by eauto.
        assert (Hsz0 : size (ids g ∖ visited s0) <= fuel).
        { assert (Hsub : ids g ∖ visited s0 ⊂ ids g ∖ visited s).
          { unfold s1 in HV0; simpl in HV0. clear -HV0 Hid Hnv. split.
            - set_solver.
            - intros Hc. assert (nid ∈ ids g ∖ visited s) as Hin by set_solver.
              apply Hc in Hin. set_solver. }
          apply subset_size in Hsub. lia. }
        assert (Hstk0 : forall r, r ∈ rec_stack s0 -> tc E r d).
        { intros r Hr. rewrite HR0 in Hr.
          apply elem_of_union in Hr as [Hr|Hr].
          - apply elem_of_singleton in Hr. subst. by apply tc_once.
          - eapply tc_r; eauto. }
        specialize (IH d s0 HI0 Hdid Hdv Hsz0 Hstk0).
        destruct (dfs g fuel d s0) as [s'|e|]; try done.
        destruct IH as (HI' & HR' & HV' & Hdin).
        split; [|split].
        + unfold P. split; [done|]. split; [congruence|]. etrans; [exact HV0|exact HV'].
        + unfold black. split; [done|]. rewrite HR', HR0.
          unfold s1 in HV0; simpl in HV0.
          destruct HI0 as (_ & HRV0 & _). set_solver.
        + intros y [Hy1 Hy2]. unfold black. rewrite HR'. set_solver.
      - try apply dec_stable in Hdv. case_bool_decide as Hdr.
        + (* back edge: a cycle *)
          unfold Bad. split; [eauto|]. rewrite HR0 in Hdr.
          apply elem_of_union in Hdr as [Hdr|Hdr].
          * apply elem_of_singleton in Hdr. subst. exists nid. by apply tc_once.
          * exists d. eapply tc_r; eauto.
        + split; [done|]. split; [|done]. by split. }
    specialize (Hloop Hbody (StepNode.depends_on node) s1 Hdeps HP1).
    destruct (for_each body (StepNode.depends_on node) s1) as [s2|e|]; try done.
    destruct Hloop as ((HI2 & HR2 & HV2) & Hall & Hmono). simpl.
    assert (Hnid_deps : forall d, E nid d -> black s2 d).
    { intros d (n' & Hn' & Hd). rewrite Hnode in Hn'. inversion Hn'; subst n'.
      rewrite Forall_forall in Hall. auto. }
    unfold s1 in HV2; simpl in HV2.
    assert (HRs : rec_stack s2 ∖ {[nid]} = rec_stack s).
    { rewrite HR2. set_solver. }
    rewrite HRs.
    split; [|split; [done|split; set_solver]].
    destruct HI2 as (HVI2 & HRV2 & Hcl2 & Hac2).
    unfold dfs_inv, black; simpl. split; [done|]. split; [set_solver|]. split.
    * intros b d [Hb1 Hb2] Hbd.
      destruct (decide (b = nid)) as [->|Hne].
      -- destruct (Hnid_deps d Hbd) as [? Hd2]. rewrite HR2 in Hd2. set_solver.
      -- assert (black s2 b) as Hbb by (unfold black; rewrite HR2; set_solver).
         destruct (Hcl2 b d Hbb Hbd) as [? Hd2]. rewrite HR2 in Hd2. set_solver.
    * intros b [Hb1 Hb2] Hcyc.
      destruct (decide (b = nid)) as [->|Hne].
      -- assert (exists d, E nid d /\ rtc E d nid) as (d & Hd & Hr).
         { inversion Hcyc; subst; eauto using rtc_refl, tc_rtc. }
         assert (black s2 nid) as [_ Hbad].
         { eapply black_reach; [| |exact Hr]; [exact (conj HVI2 (conj HRV2 (conj Hcl2 Hac2)))|auto]. }
         rewrite HR2 in Hbad. set_solver.
      -- eapply Hac2; [|exact Hcyc]. unfold black. rewrite HR2. set_solver.
Qed.

Lemma cycle_check_spec (order : list string) :
  (forall x, x ∈ order <-> x ∈ ids g) ->
  match for_each (fun nid s =>
          if bool_decide (nid ∉ visited s)
          then dfs g (size (ids g)) nid s else Ok s)
          order (mk_dfs ∅ ∅) with
  | Ok _ => ~ cyclic
  | Raise e => (exists msg, e = GraphBuildError msg) /\ cyclic
  | OutOfFuel => False
  end.
Proof.
  intros Hord.
  match goal with |- context [for_each ?b _ _] => set (body := b) end.
  pose (P := fun s : dfs_state => Inv s /\ rec_stack s = ∅).
  assert (Hbody : forall x s0, x ∈ ids g -> P s0 ->
               match body x s0 with
               | Ok s' => P s' /\ x ∈ visited s'
                          /\ (forall y, y ∈ visited s0 -> y ∈ visited s')
               | Raise e => (exists msg, e = GraphBuildError msg) /\ cyclic
               | OutOfFuel => False
               end).
  { intros x s0 Hx [HI0 HR0]. unfold body. case_bool_decide as Hv.
    - assert (Hsz : size (ids g ∖ visited s0) <= size (ids g)).
      { apply subseteq_size. set_solver. }
      assert (Hstk : forall r, r ∈ rec_stack s0 -> tc E r x).
      { intros r Hr. rewrite HR0 in Hr. set_solver. }
      pose proof (dfs_spec (size (ids g)) x s0 HI0 Hx Hv Hsz Hstk) as H.
      destruct (dfs g (size (ids g)) x s0) as [s'|e|]; try done.
      destruct H as (HI' & HR' & HV' & Hin).
      split; [split; [done|congruence]|]. split; [done|set_solver].
    - try apply dec_stable in Hv. split; [by split|]. auto. }
  assert (Hloop := for_each_progress body (fun x => x ∈ ids g) P
                     (fun x s => x ∈ visited s)
                     (fun e => (exists msg, e = GraphBuildError msg) /\ cyclic)
                     Hbody order (mk_dfs ∅ ∅)).
  assert (Hall : Forall (fun x => x ∈ ids g) order).
  { apply Forall_forall. intros x Hx. by apply Hord. }
  assert (HP0 : P (mk_dfs ∅ ∅)).
  { unfold P, dfs_inv, black; simpl. repeat split; set_solver. }
  specialize (Hloop Hall HP0).
  destruct (for_each body order (mk_dfs ∅ ∅)) as [s|e|]; try done.
  destruct Hloop as ([HI HR] & Hvis & _).
  intros [a Ha].
  assert (a ∈ ids g) as Haid.
  { assert (exists d, E a d) as (d & n & Hn & _) by (inversion Ha; eauto).
    unfold get_node in Hn. unfold ids. apply elem_of_dom.
    destruct (_id_index g !! a); [eauto|done]. }
  destruct HI as (_ & _ & _ & Hac). apply (Hac a); [|done].
  split; [|rewrite HR; set_solver].
  rewrite Forall_forall in Hvis. apply Hvis. by apply Hord.
Qed.
End dfs_correct.

(** orphan check *)
Lemma check_orphans_spec (g : StepGraph.t) :
  match check_orphans g with
  | Ok _ => forall n d, n ∈ nodes g -> d ∈ StepNode.depends_on n -> d ∈ ids g
  | Raise e => (exists msg, e = GraphBuildError msg)
               /\ exists n d, n ∈ nodes g /\ d ∈ StepNode.depends_on n /\ d ∉ ids g
  | OutOfFuel => False
  end.
Proof.
  unfold check_orphans.
  match goal with |- context [for_each ?b _ _] => set (body := b) end.
  pose (Bad := fun e : exn => (exists msg, e = GraphBuildError msg)
               /\ exists n d, n ∈ nodes g /\ d ∈ StepNode.depends_on n /\ d ∉ ids g).
  assert (Hbody : forall n (u : unit), n ∈ nodes g -> True ->
     match body n u with
     | Ok u' => True /\ (forall d, d ∈ StepNode.depends_on n -> d ∈ ids g)
                /\ (forall m : StepNode.t,
                      (forall d, d ∈ StepNode.depends_on m -> d ∈ ids g) ->
                      (forall d, d ∈ StepNode.depends_on m -> d ∈ ids g))
     | Raise e => Bad e
     | OutOfFuel => False
     end).
  { intros n u Hn _. unfold body.
    match goal with |- context [for_each ?b _ _] => set (inner := b) end.
    pose proof (for_each_progress inner (fun d => d ∈ StepNode.depends_on n)
                  (fun _ => True) (fun d _ => d ∈ ids g) Bad) as Hin.
    assert (Hib : forall d (u0 : unit), d ∈ StepNode.depends_on n -> True ->
       match inner d u0 with
       | Ok u' => True /\ d ∈ ids g /\ (forall y, y ∈ ids g -> y ∈ ids g)
       | Raise e => Bad e
       | OutOfFuel => False
       end).
    { intros d u0 Hd _. unfold inner. case_bool_decide; [auto|].
      split; [eauto|]. exists n, d. auto. }
    specialize (Hin Hib (StepNode.depends_on n) tt).
    destruct (for_each inner (StepNode.depends_on n) tt); try done.
    - destruct Hin as (_ & Hall & _); [by apply Forall_forall|done|].
      rewrite Forall_forall in Hall. auto.
    - apply Hin; [by apply Forall_forall|done].
    - apply Hin; [by apply Forall_forall|done]. }
  pose proof (for_each_progress body (fun n => n ∈ nodes g) (fun _ => True)
                (fun n _ => forall d, d ∈ StepNode.depends_on n -> d ∈ ids g)
                Bad Hbody (nodes g) tt) as Hout.
  destruct (for_each body (nodes g) tt); try done.
  - destruct Hout as (_ & Hall & _); [by apply Forall_forall|done|].
    rewrite Forall_forall in Hall. intros n d Hn Hd. eapply Hall; eauto.
  - apply Hout; [by apply Forall_forall|done].
  - apply Hout; [by apply Forall_forall|done].
Qed.

Lemma index_ok_ids g sid :
  index_ok g -> (sid ∈ ids g <-> exists n, n ∈ nodes g /\ StepNode.step_id n = sid).
Proof.
  intros Hix. unfold ids. rewrite elem_of_dom. split.
  - intros [i Hi]. apply Hix in Hi as (n & Hn & Hid). exists n. split; [|done].
    eapply list_elem_of_lookup_2; eauto.
  - intros (n & Hn & Hid). apply list_elem_of_lookup_1 in Hn as [i Hi].
    exists i. apply Hix. eauto.
Qed.

Lemma index_ok_get_node g sid n :
  index_ok g -> (get_node g sid = Some n <-> n ∈ nodes g /\ StepNode.step_id n = sid).
Proof.
  intros Hix. unfold get_node. split.
  - intros H. destruct (_id_index g !! sid) as [i|] eqn:Hi; [|done]. simpl in H.
    apply Hix in Hi as (n' & Hn' & Hid). rewrite Hn' in H. inversion H; subst.
    split; [|done]. eapply list_elem_of_lookup_2; eauto.
  - intros [Hn Hid]. apply list_elem_of_lookup_1 in Hn as [i Hi].
    assert (_id_index g !! sid = Some i) as -> by (apply Hix; eauto).
    simpl. done.
Qed.

Lemma E_depends g a b : index_ok g -> (index_edge g a b <-> depends g a b).
Proof.
  intros Hix. unfold index_edge, depends. split.
  - intros (n & H & Hd). apply index_ok_get_node in H as [? ?]; eauto.
  - intros (n & H1 & H2 & Hd). exists n. split; [|done].
    apply index_ok_get_node; auto.
Qed.

Lemma cyclic_has_cycle g : index_ok g -> (index_cyclic g <-> has_cycle g).
Proof.
  intros Hix. unfold index_cyclic, has_cycle. split; intros [a Ha]; exists a.
  - eapply tc_congruence with (f := id); [|exact Ha].
    intros x y. by apply E_depends.
  - eapply tc_congruence with (f := id); [|exact Ha].
    intros x y. by apply E_depends.
Qed.

Lemma validate_spec (order : list string) (g : StepGraph.t) :
  index_ok g ->
  (forall x, x ∈ order <-> x ∈ ids g) ->
  match _validate order g with
  | Ok _ => ~ has_orphan g /\ ~ has_cycle g
  | Raise e => (exists msg, e = GraphBuildError msg)
               /\ (has_orphan g \/ has_cycle g)
  | OutOfFuel => False
  end.
Proof.
  intros Hix Hord. unfold _validate.
  pose proof (check_orphans_spec g) as Hor.
  destruct (check_orphans g) as [[]|e|]; try done.
  - assert (Hno : ~ has_orphan g).
    { intros (n & d & Hn & Hd & Hm).
      specialize (Hor n d Hn Hd).
      apply (index_ok_ids g d Hix) in Hor as (m & Hm1 & Hm2).
      exact (Hm m Hm1 Hm2). }
    assert (closed : forall a b, index_edge g a b -> b ∈ ids g).
    { intros a b (n & Hn & Hd). apply index_ok_get_node in Hn as [? ?]; eauto. }
    assert (total : forall a, a ∈ ids g -> is_Some (get_node g a)).
    { intros a Ha. apply (index_ok_ids g a Hix) in Ha as (n & ? & ?).
      exists n. by apply index_ok_get_node. }
    pose proof (cycle_check_spec g closed total order Hord) as Hc.
    match goal with
    | |- context [for_each ?b order ?s0] => destruct (for_each b order s0)
    end; try done.
    + split; [done|]. by rewrite <- cyclic_has_cycle.
    + destruct Hc as [Hm Hc]. split; [done|]. right. by apply cyclic_has_cycle.
  - destruct Hor as (Hm & n & d & Hn & Hd & Hni). split; [done|]. left.
    exists n, d. split; [done|]. split; [done|].
    intros m Hmn Hid. apply Hni. apply index_ok_ids; eauto.
Qed.

Lemma string_of_uint_no_us d : no_us (NilEmpty.string_of_uint d).
Proof. induction d; simpl; auto; split; auto; discriminate. Qed.

Lemma split_at_us d1 : forall d2 r1 r2,
  no_us d1 -> no_us d2 ->
  (d1 ++ String "_" r1 = d2 ++ String "_" r2)%string -> d1 = d2.
Proof.
  induction d1 as [|c d1 IH]; intros [|c2 d2] r1 r2 H1 H2 Heq; simpl in *.
  - done.
  - inversion Heq; subst. destruct H2 as [H2 _]. done.
  - inversion Heq; subst. destruct H1 as [H1 _]. done.
  - inversion Heq; subst. f_equal. destruct H1, H2. eapply IH; eauto.
Qed.

Lemma str_of_nat_inj a b : str_of_nat a = str_of_nat b -> a = b.
Proof.
  unfold str_of_nat. intros H. apply Unsigned.to_uint_inj.
  apply (f_equal NilEmpty.uint_of_string) in H.
  rewrite !NilEmpty.usu in H. congruence.
Qed.

Lemma node_id_inj uuid i j : node_id uuid i = node_id uuid j -> i = j.
Proof.
  unfold node_id. intros H. simpl in H. inversion H as [H'].
  apply split_at_us in H'; try apply string_of_uint_no_us.
  apply str_of_nat_inj in H'. lia.
Qed.

Lemma make_node_id uuid i prev step :
  StepNode.step_id (make_node (uuid i) i prev step) = node_id uuid i.
Proof. reflexivity. Qed.

Lemma truthy_node_id uuid i : truthy (node_id uuid i) = true.
Proof. reflexivity. Qed.

Lemma make_node_deps uuid i step :
  StepNode.depends_on (make_node (uuid i) i (prev_of uuid i) step)
  = match i with O => [] | S j => [node_id uuid j] end.
Proof. destruct i; simpl; [done|]. reflexivity. Qed.

Lemma build_loop_nodes uuid steps : forall i prev g,
  prev = prev_of uuid i ->
  nodes (build_loop uuid i prev steps g) = (nodes g ++ chain_nodes uuid i steps)%list.
Proof.
  induction steps as [|step rest IH]; intros i prev g Hp; simpl.
  - by rewrite app_nil_r.
  - rewrite IH by reflexivity. simpl. subst prev. by rewrite <- app_assoc.
Qed.

Lemma build_loop_meta uuid steps : forall i prev g,
  task_name (build_loop uuid i prev steps g) = task_name g
  /\ _frozen (build_loop uuid i prev steps g) = _frozen g.
Proof.
  induction steps as [|step rest IH]; intros i prev g; simpl; [done|].
  destruct (IH (S i) (Some (StepNode.step_id (make_node (uuid i) i prev step)))
              (append_node (make_node (uuid i) i prev step) g)) as [H1 H2].
  split; [exact H1|exact H2].
Qed.

Lemma build_loop_index uuid steps : forall i prev g,
  length (nodes g) = i ->
  (forall sid j, _id_index g !! sid = Some j <-> j < i /\ sid = node_id uuid j) ->
  forall sid j, _id_index (build_loop uuid i prev steps g) !! sid = Some j
                <-> j < i + length steps /\ sid = node_id uuid j.
Proof.
  induction steps as [|step rest IH]; intros i prev g Hlen Hix sid j; simpl.
  - rewrite Hix. replace (i + 0) with i by lia. done.
  - rewrite IH with (i := S i).
    + replace (S i + length rest) with (i + S (length rest)) by lia. done.
    + unfold append_node. cbn [nodes]. rewrite length_app. simpl. lia.
    + intros sid' j'. unfold append_node. cbn [_id_index]. rewrite make_node_id, Hlen.
      rewrite lookup_insert. case_decide as Hd.
      * subst sid'. split.
        -- intros [= <-]. split; [lia|done].
        -- intros [Hlt Heq]. apply node_id_inj in Heq. by subst.
      * rewrite Hix. split.
        -- intros [? ?]. split; [lia|done].
        -- intros [Hlt Heq]. split; [|done].
           destruct (decide (j' = i)) as [->|]; [done|lia].
Qed.

Lemma chain_nodes_lookup uuid steps : forall i k n,
  chain_nodes uuid i steps !! k = Some n <->
  exists step, steps !! k = Some step
               /\ n = make_node (uuid (i + k)) (i + k) (prev_of uuid (i + k)) step.
Proof.
  induction steps as [|step rest IH]; intros i k n; simpl.
  - split; [done|]. by intros (? & ? & _).
  - destruct k as [|k]; simpl.
    + replace (i + 0) with i by lia. split.
      * intros [= <-]. eauto.
      * intros (s' & [= <-] & ->). done.
    + rewrite IH. replace (S i + k) with (i + S k) by lia. done.
Qed.

Lemma chain_nodes_length uuid steps : forall i,
  length (chain_nodes uuid i steps) = length steps.
Proof. induction steps; intros; simpl; auto. Qed.

Lemma built_nodes uuid plan :
  nodes (built uuid plan) = chain_nodes uuid 0 (plan_steps plan).
Proof. unfold built. by rewrite build_loop_nodes. Qed.

Lemma built_index uuid plan sid j :
  _id_index (built uuid plan) !! sid = Some j
  <-> j < length (plan_steps plan) /\ sid = node_id uuid j.
Proof.
  unfold built. rewrite build_loop_index with (i := 0); [done|done|].
  intros sid' j'. simpl. rewrite lookup_empty. split; [done|]. intros [? _]. lia.
Qed.

Lemma built_index_ok uuid plan : index_ok (built uuid plan).
Proof.
  intros sid i. rewrite built_index, built_nodes. split.
  - intros [Hlt ->]. apply lookup_lt_is_Some_2 in Hlt as [step Hstep].
    eexists. split; [|apply make_node_id with (prev := prev_of uuid i) (step := step)].
    apply chain_nodes_lookup. exists step. done.
  - intros (n & Hn & Hid). apply chain_nodes_lookup in Hn as (step & Hs & ->).
    simpl in Hid. split; [by eapply lookup_lt_Some|done].
Qed.

Lemma built_depends uuid plan a b :
  depends (built uuid plan) a b ->
  exists k, a = node_id uuid (S k) /\ b = node_id uuid k
            /\ S k < length (plan_steps plan).
Proof.
  intros (n & Hn & Hid & Hd). rewrite built_nodes in Hn.
  apply list_elem_of_lookup_1 in Hn as [k Hk].
  apply chain_nodes_lookup in Hk as (step & Hs & ->). simpl in Hid, Hd.
  apply lookup_lt_Some in Hs.
  destruct k as [|k]; simpl in Hd.
  - by apply elem_of_nil in Hd.
  - apply list_elem_of_singleton in Hd. exists k. done.
Qed.

Lemma built_no_orphan uuid plan : ~ has_orphan (built uuid plan).
Proof.
  intros (n & d & Hn & Hd & Hm).
  assert (depends (built uuid plan) (StepNode.step_id n) d) as Hdep
    by (exists n; done).
  apply built_depends in Hdep as (k & _ & -> & Hlt).
  assert (k < length (plan_steps plan)) as Hk by lia.
  apply lookup_lt_is_Some_2 in Hk as [step Hstep].
  apply (Hm (make_node (uuid k) k (prev_of uuid k) step)); [|done].
  rewrite built_nodes. eapply list_elem_of_lookup_2.
  apply chain_nodes_lookup. exists step. done.
Qed.

Lemma built_tc_decreases uuid plan a b :
  tc (depends (built uuid plan)) a b ->
  exists k l, a = node_id uuid k /\ b = node_id uuid l /\ l < k.
Proof.
  induction 1 as [a b H|a b c H _ (k & l & Hk & Hl & Hlt)].
  - apply built_depends in H as (k & -> & -> & _). exists (S k), k. auto.
  - apply built_depends in H as (k' & -> & Hb & _). subst b.
    apply node_id_inj in Hk. subst k. exists (S k'), l. split; [done|].
    split; [done|lia].
Qed.

Lemma built_no_cycle uuid plan : ~ has_cycle (built uuid plan).
Proof.
  intros [a Ha]. apply built_tc_decreases in Ha as (k & l & -> & Heq & Hlt).
  apply node_id_inj in Heq. lia.
Qed.

Lemma from_plan_built uuid set_order plan :
  lists_elements set_order ->
  plan_steps plan <> [] ->
  from_plan uuid set_order plan = Ok (built uuid plan).
Proof.
  intros Hord Hne. unfold from_plan.
  destruct (plan_steps plan) eqn:Hs; [done|]. rewrite <- Hs. clear Hs.
  fold (built uuid plan).
  pose proof (validate_spec (set_order (ids (built uuid plan))) (built uuid plan)
                (built_index_ok uuid plan) (Hord _)) as Hv.
  unfold built in *.
  destruct (_validate _ _) as [[]|e|]; try done.
  destruct Hv as [_ [Ho|Hc]].
  - by apply built_no_orphan in Ho.
  - by apply built_no_cycle in Hc.
Qed.

End graph_facts.

Section graph_claims.
Import StepGraph.

(** C3: [from_plan] raises [GraphBuildError] exactly when the step list is
    empty, some dependency id names no node, or the dependency edges contain
    a cycle; otherwise it returns the assembled graph, which passes
    [_validate].  The third part states what [_validate] itself decides on
    any graph whose index agrees with its node list, for any iteration
    order of the id set. *)
Theorem from_plan_rejects_exactly :
  forall (uuid : nat -> string) (set_order : gset string -> list string)
         (plan : Plan),
    lists_elements set_order ->
    ((exists msg, from_plan uuid set_order plan = Raise (GraphBuildError msg))
     <-> (plan_steps plan = [] \/ has_orphan (built uuid plan)
          \/ has_cycle (built uuid plan)))
    /\ ((~ exists msg,
            from_plan uuid set_order plan = Raise (GraphBuildError msg)) ->
        exists g, from_plan uuid set_order plan = Ok g
                  /\ g = built uuid plan
                  /\ _validate (set_order (ids g)) g = Ok tt
                  /\ ~ has_orphan g /\ ~ has_cycle g)
    /\ (forall g, index_ok g ->
          ((exists msg,
               _validate (set_order (ids g)) g = Raise (GraphBuildError msg))
           <-> (has_orphan g \/ has_cycle g))
          /\ (~ (has_orphan g \/ has_cycle g) ->
              _validate (set_order (ids g)) g = Ok tt)).
Proof.
  intros uuid set_order plan Hord.
  assert (Hval : forall g, index_ok g ->
          ((exists msg,
               _validate (set_order (ids g)) g = Raise (GraphBuildError msg))
           <-> (has_orphan g \/ has_cycle g))
          /\ (~ (has_orphan g \/ has_cycle g) ->
              _validate (set_order (ids g)) g = Ok tt)).
  { intros g Hix.
    pose proof (validate_spec (set_order (ids g)) g Hix (Hord _)) as Hv.
    destruct (_validate (set_order (ids g)) g) as [[]|e|]; [| |done].
    - destruct Hv as [Ho Hc]. split; [|done]. split.
      + intros [msg Hm]. discriminate.
      + intros [H|H]; contradiction.
    - destruct Hv as [[msg ->] Hoc]. split.
      + split; [done|]. eauto.
      + intros Hn. contradiction. }
  split; [|split; [|exact Hval]].
  - split.
    + intros [msg Hm]. destruct (plan_steps plan) eqn:Hs; [by left|].
      rewrite from_plan_built in Hm; [discriminate|done|]. by rewrite Hs.
    + intros [Hs|[Ho|Hc]].
      * unfold from_plan. rewrite Hs. eauto.
      * by apply built_no_orphan in Ho.
      * by apply built_no_cycle in Hc.
  - intros Hn. destruct (plan_steps plan) eqn:Hs.
    + exfalso. apply Hn. unfold from_plan. rewrite Hs. eauto.
    + assert (Hne : plan_steps plan <> []) by (by rewrite Hs).
      exists (built uuid plan). split; [by apply from_plan_built|].
      split; [done|].
      split; [|split; [apply built_no_orphan|apply built_no_cycle]].
      apply Hval; [apply built_index_ok|].
      intros [H|H]; [by apply built_no_orphan in H|by apply built_no_cycle in H].
Qed.

End graph_claims.

Section graph_claims2.
Import StepGraph.

Lemma elem_of_List_rev {A} (l : list A) (x : A) : x ∈ rev l <-> x ∈ l.
Proof. rewrite !list_elem_of_In. symmetry. apply in_rev. Qed.

Lemma rollback_scan_found fid l :
  rollback_scan fid true l = l ≫= rollback_entry.
Proof.
  induction l as [|n l IH]; simpl; [done|].
  destruct (bool_decide _); simpl; by rewrite IH.
Qed.

Lemma rollback_scan_absent fid l :
  (forall m, m ∈ l -> StepNode.step_id m <> fid) ->
  rollback_scan fid false l = [].
Proof.
  induction l as [|n l IH]; intros H; simpl; [done|].
  rewrite bool_decide_eq_false_2 by (apply H; left).
  simpl. apply IH. intros m Hm. apply H. by right.
Qed.

Lemma rollback_scan_skip fid l1 : forall n l2,
  (forall m, m ∈ l1 -> StepNode.step_id m <> fid) ->
  StepNode.step_id n = fid ->
  rollback_scan fid false (l1 ++ n :: l2) = (n :: l2) ≫= rollback_entry.
Proof.
  induction l1 as [|a l1 IH]; intros n l2 H Hn; simpl.
  - rewrite bool_decide_eq_true_2 by done. by rewrite rollback_scan_found.
  - rewrite bool_decide_eq_false_2 by (apply H; left).
    simpl. apply IH; [|done]. intros m Hm. apply H. by right.
Qed.

(** What [rollback_steps_after] computes: the compensations of the nodes up
    to and including the named one, latest first; nodes after it are never
    selected. *)
Lemma rollback_steps_after_prefix (g : t) pre n post fid :
  nodes g = (pre ++ n :: post)%list ->
  StepNode.step_id n = fid ->
  (forall m, m ∈ post -> StepNode.step_id m <> fid) ->
  rollback_steps_after g fid = rev (pre ++ [n]) ≫= rollback_entry.
Proof.
  intros Hg Hn Hpost. unfold rollback_steps_after. rewrite Hg.
  rewrite rev_app_distr. simpl. rewrite <- app_assoc. simpl.
  rewrite rollback_scan_skip; [|intros m Hm; apply Hpost; by apply elem_of_List_rev|done].
  rewrite rev_app_distr. done.
Qed.

Lemma rollback_steps_after_unknown (g : t) fid :
  (forall m, m ∈ nodes g -> StepNode.step_id m <> fid) ->
  rollback_steps_after g fid = [].
Proof.
  intros H. apply rollback_scan_absent. intros m Hm. apply H.
  by apply elem_of_List_rev.
Qed.

(** C4 (the code departs from the claim): on the three-step graph in which
    step 1 succeeded and step 2 failed, [rollback_steps_after] with the id
    of step 2 yields the compensation of step 1, a step that ran before the
    failure point. *)
Theorem rollback_steps_after_selects_earlier_step :
  rollback_steps_after example_graph_step2_failed "s2_a1b2c3"
  = [ <["action" := "close_window"]> (<["value" := "firefox"]>
        (<["method" := "system"]> (<["_for" := "s1_a1b2c3"]> ∅))) ].
Proof. vm_compute. reflexivity. Qed.

(** C6 (the code departs from the claim): the node-adding statements of the
    class run on a frozen graph without consulting [_assert_mutable]; the
    node list grows and nothing is raised, although the guard, had it been
    called, raises. *)
Theorem frozen_graph_accepts_append :
  forall (g : t) (n : StepNode.t),
    _frozen (freeze g) = true
    /\ nodes (append_node n (freeze g)) = (nodes g ++ [n])%list
    /\ _frozen (append_node n (freeze g)) = true
    /\ exists msg, _assert_mutable (freeze g) = Raise (GraphMutationError msg).
Proof. intros g n. repeat split. eexists. reflexivity. Qed.

End graph_claims2.

Section retry_facts.
Import RetryPolicy.

Lemma insert_by_perm {A} (key : A -> nat) x l : insert_by key x l ≡ₚ x :: l.
Proof.
  induction l as [|y l IH]; simpl; [done|].
  destruct (key x <=? key y)%nat; [done|].
  rewrite IH. apply Permutation_swap.
Qed.

Lemma sort_by_perm {A} (key : A -> nat) l : sort_by key l ≡ₚ l.
Proof.
  induction l as [|x l IH]; simpl; [done|].
  rewrite insert_by_perm. by rewrite IH.
Qed.

Lemma insert_by_sorted {A} (key : A -> nat) x l :
  StronglySorted (fun a b => key a <= key b) l ->
  StronglySorted (fun a b => key a <= key b) (insert_by key x l).
Proof.
  induction 1 as [|y l Hs IH Hall]; simpl.
  - repeat constructor.
  - destruct (key x <=? key y)%nat eqn:Hle.
    + apply Nat.leb_le in Hle. constructor; [by constructor|].
      constructor; [done|]. eapply Forall_impl; [exact Hall|].
      simpl. intros. lia.
    + apply Nat.leb_gt in Hle. constructor; [done|].
      rewrite (insert_by_perm key x l). constructor; [lia|done].
Qed.

Lemma sort_by_sorted {A} (key : A -> nat) l :
  StronglySorted (fun a b => key a <= key b) (sort_by key l).
Proof.
  induction l as [|x l IH]; simpl; [constructor|]. by apply insert_by_sorted.
Qed.

Lemma insert_by_stable {A} (key : A -> nat) (k : nat) x l :
  filter (fun a => key a = k) (insert_by key x l)
  = filter (fun a => key a = k) (x :: l).
Proof.
  induction l as [|y l IH]; simpl; [done|].
  destruct (key x <=? key y)%nat eqn:Hle; [done|].
  apply Nat.leb_gt in Hle.
  rewrite (filter_cons _ y), IH, !filter_cons.
  repeat case_decide; try done; lia.
Qed.

Lemma sort_by_stable {A} (key : A -> nat) (k : nat) l :
  filter (fun a => key a = k) (sort_by key l) = filter (fun a => key a = k) l.
Proof.
  induction l as [|x l IH]; simpl; [done|].
  rewrite insert_by_stable, !filter_cons, IH. done.
Qed.

Lemma insert_by_ext {A} (k1 k2 : A -> nat) x l :
  k1 x = k2 x -> Forall (fun a => k1 a = k2 a) l ->
  insert_by k1 x l = insert_by k2 x l.
Proof.
  intros Hx. induction 1 as [|y l Hy Hl IH]; simpl; [done|].
  rewrite Hx, Hy, IH. done.
Qed.

Lemma sort_by_ext {A} (k1 k2 : A -> nat) l :
  Forall (fun a => k1 a = k2 a) l -> sort_by k1 l = sort_by k2 l.
Proof.
  induction 1 as [|x l Hx Hl IH]; simpl; [done|].
  rewrite IH. apply insert_by_ext; [done|].
  eapply Forall_forall. intros a Ha. rewrite Forall_forall in Hl. apply Hl.
  by rewrite <- (sort_by_perm k2 l).
Qed.

Lemma filter_ext_Forall {A} (P1 P2 : A -> Prop)
    `{!forall x, Decision (P1 x)} `{!forall x, Decision (P2 x)} (l : list A) :
  Forall (fun x => P1 x <-> P2 x) l -> filter P1 l = filter P2 l.
Proof.
  induction 1 as [|x l Hx Hl IH]; [done|].
  rewrite !filter_cons, IH. repeat case_decide; tauto.
Qed.

Lemma string_app_inv_head (a x y : string) : a ++ x = a ++ y -> x = y.
Proof. induction a as [|c a IH]; simpl; [done|]. intros [= H]. auto. Qed.

Lemma fail_key_inj action m1 m2 :
  fail_key action m1 = fail_key action m2 -> m1 = m2.
Proof.
  unfold fail_key. intros H. apply string_app_inv_head in H.
  simpl in H. by inversion H.
Qed.

Lemma fails_record_ne action m x rp :
  x <> m -> fails (_record_failure action m rp) action x = fails rp action x.
Proof.
  intros Hne. unfold fails, _record_failure; simpl.
  rewrite lookup_insert_ne; [done|]. intros H. apply fail_key_inj in H. done.
Qed.


Lemma baseline_NoDup action : NoDup (baseline action).
Proof.
  unfold baseline, METHOD_PRIORITY, table_get.
  repeat case_bool_decide; simpl; compute_done.
Qed.

Lemma fallback_chain_perm rp action m :
  get_fallback_chain rp action m ≡ₚ filter (fun x => x <> m) (baseline action).
Proof. apply sort_by_perm. Qed.

Lemma fallback_chain_NoDup rp action m : NoDup (get_fallback_chain rp action m).
Proof.
  rewrite fallback_chain_perm. apply NoDup_filter, baseline_NoDup.
Qed.

Lemma fallback_chain_not_current rp action m x :
  x ∈ get_fallback_chain rp action m -> x <> m.
Proof.
  rewrite fallback_chain_perm. intros H. by apply list_elem_of_filter in H as [? _].
Qed.

Section with_fn.
Context {W : Type} (fn : step_dict -> W -> fn_outcome * W).
Hypothesis always_fails : forall d w0, is_success (fn d w0).1 = None.

Lemma level1_all_fail n : forall step action m rp w log,
  exists w',
    level1 (spy fn) n step action m rp (w, log)
    = (None, Nat.iter n (_record_failure action m) rp,
       (w', (log ++ replicate n (<["method" := m]> step))%list)).
Proof.
  induction n as [|n IH]; intros step action m rp w log; simpl.
  - exists w. by rewrite app_nil_r.
  - unfold spy at 1. simpl.
    pose proof (always_fails (<["method" := m]> step) w) as Hf.
    destruct (fn (<["method" := m]> step) w) as [o w1]. simpl in Hf.
    rewrite Hf.
    destruct (IH step action m (_record_failure action m rp) w1
                (log ++ [<["method" := m]> step])%list) as [w' Hw'].
    exists w'. rewrite Hw'. f_equal; [f_equal|].
    + clear. induction n; simpl; [done|]. by rewrite IHn.
    + f_equal. by rewrite <- app_assoc.
Qed.

Lemma level2_all_fail fbs : forall step action rp w log,
  NoDup fbs ->
  exists rp' w',
    level2 (spy fn) fbs step action rp (w, log)
    = (None, rp',
       (w', (log ++ map (fun fb => <["method" := fb]> step)
                      (filter (fun fb => fails rp action fb < 3) fbs))%list))
    /\ config rp' = config rp.
Proof.
  induction fbs as [|fb fbs IH]; intros step action rp w log Hnd.
  - exists rp, w. simpl. by rewrite app_nil_r.
  - apply NoDup_cons in Hnd as [Hnin Hnd]. rewrite filter_cons.
    cbn [level2]. unfold FAILURE_DEMOTION_THRESHOLD.
    destruct (3 <=? fails rp action fb)%nat eqn:Hle.
    + apply Nat.leb_le in Hle. rewrite decide_False by lia.
      by apply IH.
    + apply Nat.leb_gt in Hle. rewrite decide_True by lia.
      unfold spy at 1. cbn [fst snd].
      pose proof (always_fails (<["method" := fb]> step) w) as Hf.
      destruct (fn (<["method" := fb]> step) w) as [o w1]. simpl in Hf.
      rewrite Hf.
      destruct (IH step action (_record_failure action fb rp) w1
                  (log ++ [<["method" := fb]> step])%list Hnd)
        as (rp' & w' & Heq & Hcfg).
      exists rp', w'. split; [|done]. rewrite Heq. f_equal. f_equal.
      rewrite <- app_assoc. cbn [app map]. f_equal. f_equal. f_equal.
      apply filter_ext_Forall. apply Forall_forall. intros x Hx.
      rewrite fails_record_ne; [done|]. intros ->. done.
Qed.

(** With a callable that fails on every call, [execute_with_retry] makes
    [max_attempts] calls with the step's own method, then one call per
    fallback of the chain whose failure count is below the threshold, then
    the last-resort call for single-method actions. *)
Lemma execute_with_retry_all_fail step rp w :
  let action := dict_get step "action" "unknown" in
  let m := dict_get step "method" "accessibility" in
  exists rp' w',
    execute_with_retry (spy fn) step rp (w, [])
    = (None, rp',
       (w', (replicate (max_attempts (config rp)) (<["method" := m]> step)
             ++ map (fun fb => <["method" := fb]> step)
                  (filter (fun fb => fails rp action fb < 3)
                          (get_fallback_chain rp action m))
             ++ (if bool_decide (action ∈ single_method_actions)
                 then [<["method" := "system"]> step] else []))%list)).
Proof.
  intros action m. unfold execute_with_retry. fold action. fold m.
  destruct (level1_all_fail (max_attempts (config rp)) step action m rp w [])
    as [w1 H1].
  rewrite H1. cbn [app].
  set (rp1 := Nat.iter (max_attempts (config rp)) (_record_failure action m) rp).
  assert (Hcnt : forall x, x <> m -> fails rp1 action x = fails rp action x).
  { intros x Hx. unfold rp1. generalize (max_attempts (config rp)).
    intros n. induction n as [|n IHn]; [done|]. simpl.
    by rewrite fails_record_ne. }
  assert (Hchain : get_fallback_chain rp1 action m
                   = get_fallback_chain rp action m).
  { unfold get_fallback_chain. apply sort_by_ext. apply Forall_forall.
    intros x Hx. apply list_elem_of_filter in Hx as [Hx _]. by apply Hcnt. }
  rewrite Hchain.
  destruct (level2_all_fail (get_fallback_chain rp action m) step action rp1
              w1 (replicate (max_attempts (config rp)) (<["method" := m]> step))
              (fallback_chain_NoDup rp action m))
    as (rp2 & w2 & H2 & _).
  rewrite H2.
  assert (Hfilter :
    filter (fun fb => fails rp1 action fb < 3) (get_fallback_chain rp action m)
    = filter (fun fb => fails rp action fb < 3) (get_fallback_chain rp action m)).
  { apply filter_ext_Forall. apply Forall_forall. intros x Hx.
    rewrite Hcnt; [done|]. by eapply fallback_chain_not_current. }
  rewrite Hfilter.
  case_bool_decide.
  - unfold spy at 1. cbn [fst snd].
    pose proof (always_fails (<["method" := "system"]> step) w2) as Hf.
    destruct (fn (<["method" := "system"]> step) w2) as [o w3]. simpl in Hf.
    rewrite Hf. exists rp2, w3. by rewrite <- app_assoc.
  - exists rp2, w2. by rewrite app_nil_r.
Qed.
End with_fn.

(** C8: the fallback chain is the static priority list of the action without
    the just-failed method, stably sorted by ascending session failure
    count; after the retries of the step's own method are exhausted the
    methods tried are those of the chain, in order, except the ones whose
    count has reached the demotion threshold 3.  The calls are observed
    through [spy] on a callable that fails every time, so that the whole
    chain is walked. *)
Theorem fallback_chain_is_demoted_static_order :
  forall (W : Type) (fn : step_dict -> W -> fn_outcome * W)
         (step : step_dict) (rp : t) (w : W),
    (forall d w0, is_success (fn d w0).1 = None) ->
    let action := dict_get step "action" "unknown" in
    let m := dict_get step "method" "accessibility" in
    let count := fails rp action in
    let chain := get_fallback_chain rp action m in
    chain ≡ₚ filter (fun x => x <> m) (baseline action)
    /\ StronglySorted (fun a b => count a <= count b) chain
    /\ (forall k, filter (fun x => count x = k) chain
                  = filter (fun x => count x = k)
                           (filter (fun x => x <> m) (baseline action)))
    /\ exists rp' w',
         execute_with_retry (spy fn) step rp (w, [])
         = (None, rp',
            (w', (replicate (max_attempts (config rp)) (<["method" := m]> step)
                  ++ map (fun fb => <["method" := fb]> step)
                       (filter (fun fb => count fb < 3) chain)
                  ++ (if bool_decide (action ∈ single_method_actions)
                      then [<["method" := "system"]> step] else []))%list)).
Proof.
  intros W fn step rp w Hfail action m count chain.
  split; [apply fallback_chain_perm|].
  split; [apply sort_by_sorted|].
  split; [intros k; apply sort_by_stable|].
  apply (execute_with_retry_all_fail fn Hfail).
Qed.

Lemma fallback_chain_is_demoted_static_order_witness :
  (forall d w0, is_success (example_denied_fn d w0).1 = None)
  /\ get_fallback_chain example_policy "click_button" "accessibility"
     ≡ₚ filter (fun x => x <> "accessibility") (baseline "click_button").
Proof.
  split.
  - intros d w0. reflexivity.
  - apply (fallback_chain_is_demoted_static_order unit example_denied_fn
             example_click_step example_policy tt).
    intros d w0. reflexivity.
Defined.

(** C1 (the code departs from the claim): when every call fails with an
    error that the classifier puts in PERMISSION_DENIED, whose retry budget
    is 0, [execute_with_retry] still calls the step's own method
    [max_attempts] times before it turns to the fallbacks: the class of the
    error is never consulted. *)
Theorem permission_denied_still_retried :
  forall (re_search : string -> string -> bool) (str_lower : string -> string)
         (W : Type) (fn : step_dict -> W -> fn_outcome * W)
         (step : step_dict) (rp : t) (w : W),
    (forall d w0, exists r,
        (fn d w0).1 = Returned r /\ ActionResult.success r = false
        /\ ClassifiedError.error_class
             (ErrorClassifier.classify re_search str_lower
                (ActionResult.error r) (dict_get d "action" "")
                (dict_get d "method" "")) = PERMISSION_DENIED) ->
    (forall d w0 r, (fn d w0).1 = Returned r ->
        ClassifiedError.retry_budget
          (ErrorClassifier.classify re_search str_lower
             (ActionResult.error r) (dict_get d "action" "")
             (dict_get d "method" "")) = 0)
    /\ exists rp' w' rest,
         execute_with_retry (spy fn) step rp (w, [])
         = (None, rp',
            (w', (replicate (max_attempts (config rp))
                    (<["method" := dict_get step "method" "accessibility"]> step)
                  ++ rest)%list)).
Proof.
  intros re_search str_lower W fn step rp w H. split.
  - intros d w0 r Hr. destruct (H d w0) as (r' & Hr' & _ & Hc).
    rewrite Hr in Hr'. inversion Hr'; subst r'.
    unfold ErrorClassifier.classify in *. simpl in *. by rewrite Hc.
  - assert (Hfail : forall d w0, is_success (fn d w0).1 = None).
    { intros d w0. destruct (H d w0) as (r & -> & Hs & _).
      unfold is_success, ActionResult.to_bool. by rewrite Hs. }
    destruct (execute_with_retry_all_fail fn Hfail step rp w) as (rp' & w' & He).
    eauto.
Qed.

Lemma permission_denied_still_retried_witness :
  (forall d w0, exists r,
      (example_denied_fn d w0).1 = Returned r /\ ActionResult.success r = false
      /\ ClassifiedError.error_class
           (ErrorClassifier.classify example_re_search id
              (ActionResult.error r) (dict_get d "action" "")
              (dict_get d "method" "")) = PERMISSION_DENIED)
  /\ exists rp' w' rest,
       execute_with_retry (spy example_denied_fn) example_click_step
         example_policy (tt, [])
       = (None, rp',
          (w', (replicate 3 (<["method" := "accessibility"]> example_click_step)
                ++ rest)%list)).
Proof.
  assert (Hh : forall d w0, exists r,
      (example_denied_fn d w0).1 = Returned r /\ ActionResult.success r = false
      /\ ClassifiedError.error_class
           (ErrorClassifier.classify example_re_search id
              (ActionResult.error r) (dict_get d "action" "")
              (dict_get d "method" "")) = PERMISSION_DENIED).
  { intros d w0. eexists. split; [reflexivity|]. split; reflexivity. }
  split; [exact Hh|].
  exact (proj2 (permission_denied_still_retried example_re_search id unit
                  example_denied_fn example_click_step example_policy tt Hh)).
Defined.

End retry_facts.

Section graph_witnesses.
Import StepGraph.

Lemma mark_running_success_noop_witness :
  StepNode.status
    (StepNode.mark_success 11%Z "system"
       (make_node "a1b2c3" 0 None (mk_step "open_app" "firefox" "system")))
  = SUCCESS
  /\ StepNode.mark_running 12%Z
       (StepNode.mark_success 11%Z "system"
          (make_node "a1b2c3" 0 None (mk_step "open_app" "firefox" "system")))
     = StepNode.mark_success 11%Z "system"
         (make_node "a1b2c3" 0 None (mk_step "open_app" "firefox" "system")).
Proof.
  split; [reflexivity|].
  apply (mark_running_success_noop 12%Z
           (StepNode.mark_success 11%Z "system"
              (make_node "a1b2c3" 0 None
                 (mk_step "open_app" "firefox" "system")))).
  reflexivity.
Defined.

Lemma elements_lists_elements : lists_elements elements.
Proof. intros X x. apply elem_of_elements. Qed.

Lemma from_plan_rejects_exactly_witness :
  lists_elements elements
  /\ ((exists msg, from_plan example_uuid elements example_plan3
                   = Raise (GraphBuildError msg))
      <-> (plan_steps example_plan3 = []
           \/ has_orphan (built example_uuid example_plan3)
           \/ has_cycle (built example_uuid example_plan3))).
Proof.
  split; [apply elements_lists_elements|].
  apply (from_plan_rejects_exactly example_uuid elements example_plan3).
  apply elements_lists_elements.
Defined.

End graph_witnesses.

(** ** Facts about the watchdog's loop *)

Section watchdog_facts.
Import Watchdog.
Context {C : Type} (cb : string -> string -> C -> C) (fmt0 : float -> string).

Lemma fire_flags ev msg (s : t * C) :
  abort_requested (_fire cb ev msg s).1 = abort_requested s.1
  /\ abort_reason (_fire cb ev msg s).1 = abort_reason s.1
  /\ _has_alert_cb (_fire cb ev msg s).1 = _has_alert_cb s.1
  /\ _watched_procs (_fire cb ev msg s).1 = _watched_procs s.1
  /\ (_fire cb ev msg s).2
     = (if _has_alert_cb s.1 then cb ev msg s.2 else s.2).
Proof. done. Qed.

Lemma check_heartbeat_timeout now (s : t * C) :
  (HEARTBEAT_TIMEOUT_S <? now - _last_heartbeat s.1)%float = true ->
  abort_requested (_check_heartbeat cb fmt0 now s).1 = true
  /\ abort_reason (_check_heartbeat cb fmt0 now s).1
     = heartbeat_msg fmt0 (now - _last_heartbeat s.1) (_step_label s.1)
  /\ _has_alert_cb (_check_heartbeat cb fmt0 now s).1 = _has_alert_cb s.1
  /\ (_check_heartbeat cb fmt0 now s).2
     = (if _has_alert_cb s.1
        then cb WatchdogEvent.HEARTBEAT_TIMEOUT
                (heartbeat_msg fmt0 (now - _last_heartbeat s.1)
                               (_step_label s.1)) s.2
        else s.2).
Proof. intros Hto. unfold _check_heartbeat. by rewrite Hto. Qed.

Lemma check_heartbeat_alive now (s : t * C) :
  (HEARTBEAT_TIMEOUT_S <? now - _last_heartbeat s.1)%float = false ->
  _check_heartbeat cb fmt0 now s = s.
Proof. intros Hto. unfold _check_heartbeat. by rewrite Hto. Qed.

(** Whether it times out or not, [_check_heartbeat] never lowers the
    abort flag, and a reason it leaves behind a raised flag is a
    heartbeat message if it was one before. *)
Lemma check_heartbeat_keeps now (s : t * C) :
  abort_requested s.1 = true ->
  (exists age label, abort_reason s.1 = heartbeat_msg fmt0 age label) ->
  abort_requested (_check_heartbeat cb fmt0 now s).1 = true
  /\ exists age label,
       abort_reason (_check_heartbeat cb fmt0 now s).1
       = heartbeat_msg fmt0 age label.
Proof.
  intros Hab Hre.
  destruct (HEARTBEAT_TIMEOUT_S <? now - _last_heartbeat s.1)%float eqn:Hlt.
  - destruct (check_heartbeat_timeout now s Hlt) as (H1 & H2 & _).
    split; [done|]. eauto.
  - by rewrite check_heartbeat_alive.
Qed.

Lemma check_heartbeat_thread now (s : t * C) :
  _running (_check_heartbeat cb fmt0 now s).1 = _running s.1
  /\ _has_alert_cb (_check_heartbeat cb fmt0 now s).1 = _has_alert_cb s.1.
Proof.
  unfold _check_heartbeat.
  by destruct (HEARTBEAT_TIMEOUT_S <? now - _last_heartbeat s.1)%float.
Qed.

Lemma check_processes_flags p (s : t * C) :
  abort_requested (_check_processes cb p s).1 = abort_requested s.1
  /\ abort_reason (_check_processes cb p s).1 = abort_reason s.1
  /\ _has_alert_cb (_check_processes cb p s).1 = _has_alert_cb s.1
  /\ _running (_check_processes cb p s).1 = _running s.1
  /\ _last_heartbeat (_check_processes cb p s).1 = _last_heartbeat s.1.
Proof.
  unfold _check_processes.
  assert (forall procs (s0 : t * C),
            let s1 := foldl (fun s' proc =>
                        if p_alive p proc then s'
                        else _fire cb WatchdogEvent.PROCESS_DEAD
                                   ("Monitored process died: " ++ proc) s')
                        s0 procs in
            abort_requested s1.1 = abort_requested s0.1
            /\ abort_reason s1.1 = abort_reason s0.1
            /\ _has_alert_cb s1.1 = _has_alert_cb s0.1
            /\ _running s1.1 = _running s0.1
            /\ _last_heartbeat s1.1 = _last_heartbeat s0.1) as Hfold.
  { induction procs as [|proc procs IH]; intros s0; [done|].
    cbn [foldl]. destruct (p_alive p proc); [apply IH|].
    destruct (IH (_fire cb WatchdogEvent.PROCESS_DEAD
                        ("Monitored process died: " ++ proc) s0))
      as (H1 & H2 & H3 & H4 & H5).
    cbv zeta. rewrite H1, H2, H3, H4, H5. done. }
  destruct (Hfold (_watched_procs s.1) s) as (H1 & H2 & H3 & H4 & H5).
  destruct (p_not_responding p); simpl;
    rewrite <- H1, <- H2, <- H3, <- H4, <- H5; done.
Qed.

(** A callback that reacts to heartbeat events only is not affected by
    what [_check_processes] finds. *)
Lemma check_processes_client p (s : t * C) :
  (forall ev msg c, ev <> WatchdogEvent.HEARTBEAT_TIMEOUT -> cb ev msg c = c) ->
  (_check_processes cb p s).2 = s.2.
Proof.
  intros Hcb. unfold _check_processes.
  assert (forall procs (s0 : t * C),
            (foldl (fun s' proc =>
                      if p_alive p proc then s'
                      else _fire cb WatchdogEvent.PROCESS_DEAD
                                 ("Monitored process died: " ++ proc) s')
                   s0 procs).2 = s0.2) as Hfold.
  { induction procs as [|proc procs IH]; intros s0; [done|].
    cbn [foldl]. destruct (p_alive p proc); [apply IH|].
    rewrite IH. unfold _fire. cbn [snd].
    destruct (_has_alert_cb s0.1); [|done]. by apply Hcb. }
  destruct (p_not_responding p); cbn [snd]; [|apply Hfold].
  unfold _fire. cbn [fst snd].
  destruct (_has_alert_cb _); rewrite ?Hcb by done; apply Hfold.
Qed.

Lemma run_iteration_flags p (s : t * C) :
  abort_requested (_run_iteration cb fmt0 p s).1
  = abort_requested (_check_heartbeat cb fmt0 (p_now p) s).1
  /\ abort_reason (_run_iteration cb fmt0 p s).1
     = abort_reason (_check_heartbeat cb fmt0 (p_now p) s).1
  /\ _has_alert_cb (_run_iteration cb fmt0 p s).1
     = _has_alert_cb (_check_heartbeat cb fmt0 (p_now p) s).1
  /\ _running (_run_iteration cb fmt0 p s).1
     = _running (_check_heartbeat cb fmt0 (p_now p) s).1
  /\ _last_heartbeat (_run_iteration cb fmt0 p s).1
     = _last_heartbeat (_check_heartbeat cb fmt0 (p_now p) s).1.
Proof.
  unfold _run_iteration. cbv zeta.
  set (s1 := _check_heartbeat cb fmt0 (p_now p) s).
  destruct (check_processes_flags p s1) as (H1 & H2 & H3 & H4 & H5).
  destruct (PROCESS_CHECK_INTERVAL_S <=? _)%float;
    destruct (RESOURCE_CHECK_INTERVAL_S <=? _)%float; simpl; done.
Qed.

Lemma run_iteration_client p (s : t * C) :
  (forall ev msg c, ev <> WatchdogEvent.HEARTBEAT_TIMEOUT -> cb ev msg c = c) ->
  (_run_iteration cb fmt0 p s).2
  = (_check_heartbeat cb fmt0 (p_now p) s).2.
Proof.
  intros Hcb. unfold _run_iteration. cbv zeta.
  set (s1 := _check_heartbeat cb fmt0 (p_now p) s).
  pose proof (check_processes_client p s1 Hcb) as H1.
  destruct (PROCESS_CHECK_INTERVAL_S <=? _)%float;
    destruct (RESOURCE_CHECK_INTERVAL_S <=? _)%float; simpl; done.
Qed.

End watchdog_facts.

(** ** The state shared with the watchdog thread *)

Section shared_facts.
Import Orchestrator.
Variable env : Env.

Local Abbreviation iter :=
  (fun s p => Watchdog._run_iteration Run._on_watchdog_alert (env_fmt0 env) p s).
Local Abbreviation fmt0 := (env_fmt0 env).

Lemma on_watchdog_alert_other ev msg ab :
  ev <> WatchdogEvent.HEARTBEAT_TIMEOUT -> Run._on_watchdog_alert ev msg ab = ab.
Proof.
  intros Hev. unfold Run._on_watchdog_alert.
  by rewrite bool_decide_eq_false_2.
Qed.

Lemma truthy_heartbeat_msg f age label :
  truthy (Watchdog.heartbeat_msg f age label) = true.
Proof. done. Qed.

Lemma iteration_timeout p (s : Watchdog.t * bool) :
  (HEARTBEAT_TIMEOUT_S
   <? Watchdog.p_now p - Watchdog._last_heartbeat s.1)%float = true ->
  Watchdog.abort_requested (iter s p).1 = true
  /\ Watchdog.abort_reason (iter s p).1
     = Watchdog.heartbeat_msg fmt0
         (Watchdog.p_now p - Watchdog._last_heartbeat s.1)
         (Watchdog._step_label s.1)
  /\ (Watchdog._has_alert_cb s.1 = true -> (iter s p).2 = true).
Proof.
  intros Hto.
  destruct (run_iteration_flags Run._on_watchdog_alert fmt0 p s)
    as (H1 & H2 & _).
  destruct (check_heartbeat_timeout Run._on_watchdog_alert fmt0
              (Watchdog.p_now p) s Hto) as (G1 & G2 & _ & G4).
  rewrite H1, H2, G1, G2. split; [done|]. split; [done|].
  intros Hcb.
  rewrite (run_iteration_client _ _ _ _ on_watchdog_alert_other), G4, Hcb.
  done.
Qed.

Lemma iteration_alive p (s : Watchdog.t * bool) :
  (HEARTBEAT_TIMEOUT_S
   <? Watchdog.p_now p - Watchdog._last_heartbeat s.1)%float = false ->
  Watchdog.abort_requested (iter s p).1 = Watchdog.abort_requested s.1
  /\ Watchdog.abort_reason (iter s p).1 = Watchdog.abort_reason s.1
  /\ (iter s p).2 = s.2
  /\ Watchdog._last_heartbeat (iter s p).1 = Watchdog._last_heartbeat s.1.
Proof.
  intros Hto.
  destruct (run_iteration_flags Run._on_watchdog_alert fmt0 p s)
    as (H1 & H2 & _ & _ & H5).
  rewrite H1, H2, H5, (run_iteration_client _ _ _ _ on_watchdog_alert_other).
  by rewrite check_heartbeat_alive.
Qed.

Lemma iteration_thread p (s : Watchdog.t * bool) :
  Watchdog._has_alert_cb (iter s p).1 = Watchdog._has_alert_cb s.1
  /\ Watchdog._running (iter s p).1 = Watchdog._running s.1.
Proof.
  destruct (run_iteration_flags Run._on_watchdog_alert fmt0 p s)
    as (_ & _ & H3 & H4 & _).
  destruct (check_heartbeat_thread Run._on_watchdog_alert fmt0
              (Watchdog.p_now p) s) as [G1 G2].
  rewrite H3, H4. done.
Qed.

Lemma iteration_abort p (s : Watchdog.t * bool) :
  s.2 = true -> (iter s p).2 = true.
Proof.
  intros Hab. cbv beta.
  rewrite (run_iteration_client _ _ _ _ on_watchdog_alert_other).
  unfold Watchdog._check_heartbeat.
  destruct (HEARTBEAT_TIMEOUT_S <? _)%float; [|done].
  cbn. destruct (Watchdog._has_alert_cb s.1); done.
Qed.

Lemma wd_le_refl s : wd_le fmt0 s s.
Proof. unfold wd_le. tauto. Qed.

Lemma wd_le_trans s1 s2 s3 :
  wd_le fmt0 s1 s2 -> wd_le fmt0 s2 s3 -> wd_le fmt0 s1 s3.
Proof.
  intros (H1 & H2 & H3 & H4 & H5) (G1 & G2 & G3 & G4 & G5).
  unfold wd_le. split; [congruence|]. split; [congruence|]. tauto.
Qed.

(** One iteration of the watchdog never lowers a flag: when it times out it
    raises [abort_requested] with a heartbeat message, otherwise it leaves
    the flags alone. *)
Lemma iteration_le p s : wd_le fmt0 s (iter s p).
Proof.
  destruct (iteration_thread p s) as [Hcb Hrun].
  split; [done|]. split; [done|].
  destruct (HEARTBEAT_TIMEOUT_S
            <? Watchdog.p_now p - Watchdog._last_heartbeat s.1)%float eqn:Hto.
  - destruct (iteration_timeout p s Hto) as (H1 & H2 & _).
    split; [done|]. split; [apply iteration_abort|].
    unfold abort_sound, abort_explained.
    split; [intros _ _; exact H1|]. intros _ _. rewrite H2. eauto.
  - destruct (iteration_alive p s Hto) as (H1 & H2 & H3 & _).
    unfold abort_sound, abort_explained. rewrite H1, H2, H3. tauto.
Qed.

Lemma iterations_le ps : forall s, wd_le fmt0 s (foldl iter s ps).
Proof.
  induction ps as [|p ps IH]; intros s; [apply wd_le_refl|].
  cbn [foldl]. eapply wd_le_trans; [apply iteration_le|apply IH].
Qed.

Lemma ticks_le n s : wd_le fmt0 s (Run.ticks env n s).
Proof.
  unfold Run.ticks. destruct (Watchdog._running s.1);
    [apply iterations_le|apply wd_le_refl].
Qed.

(** Once the flag is up with a heartbeat message, further iterations keep
    it so. *)
Lemma iterations_keep qs : forall s0 : Watchdog.t * bool,
  Watchdog.abort_requested s0.1 = true ->
  (exists age label,
      Watchdog.abort_reason s0.1 = Watchdog.heartbeat_msg fmt0 age label) ->
  (Watchdog._has_alert_cb s0.1 = true -> s0.2 = true) ->
  Watchdog.abort_requested (foldl iter s0 qs).1 = true
  /\ (exists age label,
         Watchdog.abort_reason (foldl iter s0 qs).1
         = Watchdog.heartbeat_msg fmt0 age label)
  /\ (Watchdog._has_alert_cb s0.1 = true -> (foldl iter s0 qs).2 = true).
Proof.
  induction qs as [|q qs IH]; intros s0 H1 H2 H3; [done|].
  cbn [foldl].
  destruct (iteration_thread q s0) as [Hcb _].
  destruct (iteration_le q s0) as (_ & _ & L3 & _).
  destruct (IH (iter s0 q)) as (G1 & G2 & G3).
  - by apply L3.
  - destruct (run_iteration_flags Run._on_watchdog_alert fmt0 q s0)
      as (_ & R2 & _).
    cbv beta. rewrite R2.
    by apply (check_heartbeat_keeps Run._on_watchdog_alert fmt0).
  - rewrite Hcb. intros Hc. apply iteration_abort. auto.
  - split; [done|]. split; [done|]. intros Hc. apply G3.
    by rewrite Hcb.
Qed.

(** The iteration [p] that finds the heartbeat too old, after the
    iterations [ps1] and before the iterations [ps2]. *)
Lemma iterations_timeout ps1 p ps2 (s : Watchdog.t * bool) :
  (HEARTBEAT_TIMEOUT_S
   <? Watchdog.p_now p - Watchdog._last_heartbeat (foldl iter s ps1).1)%float
  = true ->
  Watchdog.abort_requested (foldl iter s (ps1 ++ p :: ps2)).1 = true
  /\ (exists age label,
         Watchdog.abort_reason (foldl iter s (ps1 ++ p :: ps2)).1
         = Watchdog.heartbeat_msg fmt0 age label).
Proof.
  intros Hto. rewrite foldl_app. cbn [foldl].
  destruct (iteration_timeout p (foldl iter s ps1) Hto) as (H1 & H2 & H3).
  destruct (iterations_keep ps2 (iter (foldl iter s ps1) p)) as (G1 & G2 & _).
  - exact H1.
  - rewrite H2. eauto.
  - intros Hc. apply H3.
    by destruct (iteration_thread p (foldl iter s ps1)) as [<- _].
  - done.
Qed.

(** An iteration that finds the heartbeat too old leaves the flag up with a
    heartbeat message, whatever the iterations before and after it find:
    if none before it timed out, the heartbeat is still the one it is
    measured against. *)
Lemma iterations_raise p ps : forall s : Watchdog.t * bool,
  p ∈ ps ->
  (HEARTBEAT_TIMEOUT_S
   <? Watchdog.p_now p - Watchdog._last_heartbeat s.1)%float = true ->
  Watchdog.abort_requested (foldl iter s ps).1 = true
  /\ (exists age label,
         Watchdog.abort_reason (foldl iter s ps).1
         = Watchdog.heartbeat_msg fmt0 age label)
  /\ (Watchdog._has_alert_cb s.1 = true -> (foldl iter s ps).2 = true).
Proof.
  induction ps as [|q ps IH]; intros s Hin Hto.
  - by apply elem_of_nil in Hin.
  - cbn [foldl].
    destruct (HEARTBEAT_TIMEOUT_S
              <? Watchdog.p_now q - Watchdog._last_heartbeat s.1)%float
      eqn:Hq.
    + destruct (iteration_timeout q s Hq) as (H1 & H2 & H3).
      destruct (iteration_thread q s) as [Hcb _].
      destruct (iterations_keep ps (iter s q) H1) as (G1 & G2 & G3).
      * rewrite H2. eauto.
      * intros Hc. apply H3. by rewrite <- Hcb.
      * split; [done|]. split; [done|]. intros Hc. apply G3. by rewrite Hcb.
    + apply elem_of_cons in Hin as [->|Hin]; [congruence|].
      destruct (iteration_alive q s Hq) as (_ & _ & _ & H4).
      destruct (iteration_thread q s) as [Hcb _].
      destruct (IH (iter s q) Hin) as (G1 & G2 & G3); [by rewrite H4|].
      split; [done|]. split; [done|]. intros Hc. apply G3. by rewrite Hcb.
Qed.

Lemma ticks_raise p n (s : Watchdog.t * bool) :
  Watchdog._running s.1 = true ->
  p ∈ env_watchdog env n ->
  (HEARTBEAT_TIMEOUT_S
   <? Watchdog.p_now p - Watchdog._last_heartbeat s.1)%float = true ->
  Watchdog.abort_requested (Run.ticks env n s).1 = true
  /\ (exists age label,
         Watchdog.abort_reason (Run.ticks env n s).1
         = Watchdog.heartbeat_msg fmt0 age label)
  /\ (Watchdog._has_alert_cb s.1 = true -> (Run.ticks env n s).2 = true).
Proof.
  intros Hrun Hin Hto. unfold Run.ticks. rewrite Hrun.
  by apply (iterations_raise p).
Qed.

Lemma watchdog_ran_frame sm rp wd rb ab g c w :
  Run.watchdog_ran env (mk sm rp wd rb ab g c w)
  = (Ok tt,
     mk sm rp (Run.ticks env (n_check w) (wd, ab)).1 rb
        (Run.ticks env (n_check w) (wd, ab)).2 g c
        (mk_world (n_backend w) (n_verify w) (n_clock w) (S (n_check w))
                  (backend_log w))).
Proof. unfold Run.watchdog_ran. msimpl. reflexivity. Qed.

End shared_facts.

(** ** The retry policy keeps what its callable keeps *)

Section retry_keeps.
Import RetryPolicy.
Context {W : Type} (fn : step_dict -> W -> fn_outcome * W).
Variable I : W -> Prop.
Hypothesis fn_keeps : forall d w0, I w0 -> I (fn d w0).2.

Lemma level1_keeps n : forall step action m rp w,
  I w -> I (level1 fn n step action m rp w).2.
Proof.
  induction n as [|n IH]; intros step action m rp w Hw; cbn [level1]; [done|].
  pose proof (fn_keeps (<["method" := m]> step) w Hw) as Hi.
  destruct (fn (<["method" := m]> step) w) as [o w1]. cbn [snd] in Hi.
  destruct (is_success o); [done|]. by apply IH.
Qed.

Lemma level2_keeps fbs : forall step action rp w,
  I w -> I (level2 fn fbs step action rp w).2.
Proof.
  induction fbs as [|fb fbs IH]; intros step action rp w Hw; cbn [level2];
    [done|].
  destruct (FAILURE_DEMOTION_THRESHOLD <=? fails rp action fb)%nat;
    [by apply IH|].
  pose proof (fn_keeps (<["method" := fb]> step) w Hw) as Hi.
  destruct (fn (<["method" := fb]> step) w) as [o w1]. cbn [snd] in Hi.
  destruct (is_success o); [done|]. by apply IH.
Qed.

Lemma execute_with_retry_keeps step rp w :
  I w -> I (execute_with_retry fn step rp w).2.
Proof.
  intros Hw. unfold execute_with_retry.
  pose proof (level1_keeps (max_attempts (config rp)) step
                (dict_get step "action" "unknown")
                (dict_get step "method" "accessibility") rp w Hw) as H1.
  destruct (level1 fn _ step _ _ rp w) as [[[r1|] rp1] w1]; [done|].
  cbn [snd] in H1.
  pose proof (level2_keeps
                (get_fallback_chain rp1 (dict_get step "action" "unknown")
                   (dict_get step "method" "accessibility"))
                step (dict_get step "action" "unknown") rp1 w1 H1) as H2.
  destruct (level2 fn _ step _ rp1 w1) as [[[r2|] rp2] w2]; [done|].
  cbn [snd] in H2. case_bool_decide; [|done].
  pose proof (fn_keeps (<["method" := "system"]> step) w2 H2) as H3.
  by destruct (fn (<["method" := "system"]> step) w2) as [o w3].
Qed.

End retry_keeps.

(** ** Steps of the orchestrator *)

Section orch_facts.
Import Orchestrator.
Variable env : Env.

Lemma bind_unfold {A B} (m : M A) (k : A -> M B) (o : t) :
  Orchestrator.bind m k o
  = match m o with
    | (Ok a, o') => k a o'
    | (Raise e, o') => (Raise e, o')
    | (OutOfFuel, o') => (OutOfFuel, o')
    end.
Proof. reflexivity. Qed.

Lemma bind_ok {A B} (m : M A) (k : A -> M B) (o o' : t) (a : A) :
  m o = (Ok a, o') -> Orchestrator.bind m k o = k a o'.
Proof. intros H. by rewrite bind_unfold, H. Qed.

(** state machine *)
Lemma sm_validate_ok (new_state : TaskState.t) (sm : StateMachine.t) :
  new_state ∈ ALLOWED (StateMachine._state sm) ->
  (StateMachine._state sm ∈ TERMINAL_STATES -> new_state = TaskState.INIT) ->
  StateMachine._validate new_state sm = Ok tt.
Proof.
  intros H1 H2. unfold StateMachine._validate.
  rewrite bool_decide_eq_true_2 by done. simpl.
  destruct (bool_decide (StateMachine._state sm ∈ TERMINAL_STATES)) eqn:Ht;
    [|done].
  apply bool_decide_eq_true in Ht. rewrite (H2 Ht). done.
Qed.

Lemma sm_apply_state t new_state n a tot sm :
  StateMachine._state (StateMachine._apply t new_state n a tot sm) = new_state.
Proof. unfold StateMachine._apply. by case_bool_decide. Qed.

Lemma sm_transition_ok new_state n a tot sm rp wd rb ab g c w :
  new_state ∈ ALLOWED (StateMachine._state sm) ->
  (StateMachine._state sm ∈ TERMINAL_STATES -> new_state = TaskState.INIT) ->
  Run.sm_transition env new_state n a tot (mk sm rp wd rb ab g c w)
  = (Ok tt, mk (StateMachine._apply (env_now env (n_clock w)) new_state n a tot sm)
               rp wd rb ab g c (Run.tick w)).
Proof.
  intros H1 H2. unfold Run.sm_transition. msimpl.
  rewrite sm_validate_ok by done. msimpl. done.
Qed.

Lemma sm_transition_illegal new_state n a tot sm rp wd rb ab g c w :
  new_state ∉ ALLOWED (StateMachine._state sm) ->
  Run.sm_transition env new_state n a tot (mk sm rp wd rb ab g c w)
  = (Raise (IllegalTransitionError (TaskState.value (StateMachine._state sm))
                                   (TaskState.value new_state)),
     mk sm rp wd rb ab g c w).
Proof.
  intros H1. unfold Run.sm_transition. msimpl.
  unfold StateMachine._validate.
  rewrite bool_decide_eq_false_2 by done. simpl. done.
Qed.

Lemma sm_transition_from s new_state n a tot sm rp wd rb ab g c w :
  StateMachine._state sm = s ->
  allowed_b s new_state = true ->
  Run.sm_transition env new_state n a tot (mk sm rp wd rb ab g c w)
  = (Ok tt, mk (StateMachine._apply (env_now env (n_clock w)) new_state n a tot sm)
               rp wd rb ab g c (Run.tick w)).
Proof.
  intros Hs Hal. apply sm_transition_ok; rewrite Hs.
  - unfold allowed_b in Hal. apply andb_true_iff in Hal as [H _].
    by apply bool_decide_eq_true in H.
  - intros Ht. unfold allowed_b in Hal. apply andb_true_iff in Hal as [_ H].
    apply orb_true_iff in H as [H|H].
    + apply negb_true_iff, bool_decide_eq_false in H. done.
    + by apply bool_decide_eq_true in H.
Qed.

Lemma mark_frame i f sm rp wd rb ab g c w :
  Run.mark env i f (mk sm rp wd rb ab g c w)
  = (Ok tt,
     mk sm rp wd rb ab
        (StepGraph.update_node i (f (env_now env (n_clock w))) g) c
        (Run.tick w)).
Proof. reflexivity. Qed.

Lemma wd_update_frame f sm rp wd rb ab g c w :
  Run.wd_update env f (mk sm rp wd rb ab g c w)
  = (Ok tt,
     mk sm rp (f (env_monotonic env (n_clock w)) wd) rb ab g c (Run.tick w)).
Proof. reflexivity. Qed.

Lemma execute_frame step sm rp wd rb ab g c w :
  let method := StepExecutor._resolve_method (env_capabilities env) step in
  let b := StepExecutor._pick_executor (dict_get step "action" "") method in
  let d := <["method" := method]> step in
  exists r,
    Run.execute env step (mk sm rp wd rb ab g c w)
    = (Ok r, mk sm rp wd rb ab g c (world_after_execute w b d))
    /\ (env_backend env (n_backend w) b d = Truthy ->
        ActionResult.success r = true /\ ActionResult.method r = method)
    /\ (env_backend env (n_backend w) b d <> Truthy ->
        ActionResult.success r = false).
Proof.
  intros method b d. unfold Run.execute. fold method. fold b. fold d. msimpl.
  destruct (env_backend env (n_backend w) b d) eqn:Ho; msimpl;
    eexists; (split; [reflexivity|]); split; intros; try done.
Qed.

Lemma execute_fn_frame step sm rp wd rb ab g c w :
  let method := StepExecutor._resolve_method (env_capabilities env) step in
  let b := StepExecutor._pick_executor (dict_get step "action" "") method in
  let d := <["method" := method]> step in
  exists r,
    Run.execute_fn env step (mk sm rp wd rb ab g c w)
    = (RetryPolicy.Returned r, mk sm rp wd rb ab g c (world_after_execute w b d))
    /\ (env_backend env (n_backend w) b d = Truthy ->
        ActionResult.success r = true /\ ActionResult.method r = method)
    /\ (env_backend env (n_backend w) b d <> Truthy ->
        ActionResult.success r = false).
Proof.
  intros method b d.
  destruct (execute_frame step sm rp wd rb ab g c w) as (r & He & H1 & H2).
  exists r. unfold Run.execute_fn. rewrite He. done.
Qed.

(** The executor and the retry policy do not touch the watchdog, the
    abort flag, or the count of the thread's accesses. *)
Lemma execute_with_retry_shared step o :
  exists r o',
    Run.execute_with_retry env step o = (Ok r, o')
    /\ shared o' = shared o
    /\ n_check (world o') = n_check (world o).
Proof.
  unfold Run.execute_with_retry.
  pose proof (execute_with_retry_keeps (Run.execute_fn env)
                (fun o0 => shared o0 = shared o
                           /\ n_check (world o0) = n_check (world o))) as Hk.
  specialize (Hk ltac:(
    intros d [sm rp wd rb ab g c w] [H1 H2];
    destruct (execute_fn_frame d sm rp wd rb ab g c w) as (r & -> & _);
    split; [exact H1|exact H2]) step (retry_policy o) o (conj eq_refl eq_refl)).
  destruct (RetryPolicy.execute_with_retry (Run.execute_fn env) step
              (retry_policy o) o) as [[r rp'] o'].
  cbn [snd] in Hk. exists r, (set_rp rp' o'). split; [done|].
  destruct o'. exact Hk.
Qed.

Lemma retry_first_success step sm rp wd rb ab g c w :
  is_Some (step !! "method") ->
  (0 < RetryPolicy.max_attempts (RetryPolicy.config rp))%nat ->
  (forall b d, env_backend env (n_backend w) b d = Truthy) ->
  exists r w',
    Run.execute_with_retry env step (mk sm rp wd rb ab g c w)
    = (Ok (Some r), mk sm rp wd rb ab g c w')
    /\ n_backend w' = S (n_backend w) /\ n_verify w' = n_verify w
    /\ n_check w' = n_check w
    /\ backend_log w'
       = (backend_log w ++ [executor_call (env_capabilities env) step])%list.
Proof.
  intros [m0 Hm0] Hmax Hb.
  unfold Run.execute_with_retry, RetryPolicy.execute_with_retry. msimpl.
  destruct (RetryPolicy.max_attempts (RetryPolicy.config rp)) as [|k] eqn:Hk;
    [lia|].
  cbn [RetryPolicy.level1].
  assert (<["method" := dict_get step "method" "accessibility"]> step = step)
    as ->.
  { unfold dict_get. rewrite Hm0. cbn. by apply insert_id. }
  destruct (execute_fn_frame step sm rp wd rb ab g c w) as (r & He & H1 & _).
  rewrite He. destruct (H1 (Hb _ _)) as [Hs Hm].
  unfold RetryPolicy.is_success, ActionResult.to_bool. rewrite Hs. msimpl.
  eexists r, _. split; [reflexivity|]. simpl. repeat split; done.
Qed.

Lemma verify_passes step sm rp wd rb ab g c w :
  (forall d, env_verifier env (n_verify w) d = true) ->
  exists w',
    Run._verify env step (mk sm rp wd rb ab g c w)
    = (Ok true, mk sm rp wd rb ab g c w')
    /\ n_backend w' = n_backend w /\ n_check w' = n_check w
    /\ n_clock w' = n_clock w
    /\ (n_verify w <= n_verify w' <= S (n_verify w))%nat
    /\ backend_log w' = backend_log w.
Proof.
  intros Hv. unfold Run._verify.
  repeat case_bool_decide; msimpl.
  - exists w. repeat split; auto; lia.
  - exists w. repeat split; auto; lia.
  - unfold Run.call_verifier. msimpl. rewrite Hv. eexists.
    split; [reflexivity|]. simpl. repeat split; auto; lia.
Qed.

End orch_facts.

(** ** Nothing the orchestrator does lowers a flag of the watchdog *)

Section rises_facts.
Import Orchestrator.
Variable env : Env.

Lemma rises_shared {A} (c : M A) :
  (forall o, shared (c o).2 = shared o) -> rises env c.
Proof.
  intros Hc o r o' H. replace o' with (c o).2 by (by rewrite H).
  rewrite Hc. apply wd_le_refl.
Qed.

Lemma rises_bind {A B} (m : M A) (k : A -> M B) :
  rises env m -> (forall a, rises env (k a)) -> rises env (bind m k).
Proof.
  intros Hm Hk o r o' H. rewrite bind_unfold in H.
  destruct (m o) as [[a|e|] o1] eqn:Hmo.
  - eapply wd_le_trans; [eapply Hm; eauto|eapply Hk; eauto].
  - injection H as <- <-. eapply Hm; eauto.
  - injection H as <- <-. eapply Hm; eauto.
Qed.

Lemma rises_ret {A} (x : A) : rises env (ret x).
Proof. by apply rises_shared. Qed.

Lemma rises_raise {A} e : rises env (@raise A e).
Proof. by apply rises_shared. Qed.

Lemma rises_out_of_fuel {A} : rises env (@out_of_fuel A).
Proof. by apply rises_shared. Qed.

Lemma rises_get : rises env get.
Proof. by apply rises_shared. Qed.

Lemma rises_lift {A} (x : res A) : rises env (lift x).
Proof. by apply rises_shared. Qed.

Lemma rises_modify (f : t -> t) :
  (forall o, shared (f o) = shared o) -> rises env (modify f).
Proof. intros Hf. apply rises_shared. intros o. apply Hf. Qed.

Lemma rises_now : rises env (Run.now env).
Proof. apply rises_shared. by intros []. Qed.

Lemma rises_monotonic : rises env (Run.monotonic env).
Proof. apply rises_shared. by intros []. Qed.

Lemma rises_call_backend b d : rises env (Run.call_backend env b d).
Proof. apply rises_shared. by intros []. Qed.

Lemma rises_call_verifier d : rises env (Run.call_verifier env d).
Proof. apply rises_shared. by intros []. Qed.

Lemma rises_update_node i f : rises env (Run.update_node i f).
Proof. apply rises_shared. by intros []. Qed.

Lemma rises_mark i f : rises env (Run.mark env i f).
Proof. apply rises_shared. by intros []. Qed.

Lemma rises_sm_transition s n a tot : rises env (Run.sm_transition env s n a tot).
Proof.
  apply rises_shared. intros [sm rp wd rb ab g c w].
  unfold Run.sm_transition. msimpl.
  by destruct (StateMachine._validate s sm).
Qed.

Lemma rises_execute_with_retry step : rises env (Run.execute_with_retry env step).
Proof.
  apply rises_shared. intros o.
  destruct (execute_with_retry_shared env step o) as (r & o' & -> & H & _).
  exact H.
Qed.

(** A heartbeat moves the clock of the watchdog and nothing else that the
    thread and the orchestrator share. *)
Lemma rises_wd_update (f : float -> Watchdog.t -> Watchdog.t) :
  (forall t wd,
      Watchdog._has_alert_cb (f t wd) = Watchdog._has_alert_cb wd
      /\ Watchdog._running (f t wd) = Watchdog._running wd
      /\ Watchdog.abort_requested (f t wd) = Watchdog.abort_requested wd
      /\ Watchdog.abort_reason (f t wd) = Watchdog.abort_reason wd) ->
  rises env (Run.wd_update env f).
Proof.
  intros Hf [sm rp wd rb ab g c w] r o'. rewrite wd_update_frame.
  intros [= <- <-].
  destruct (Hf (env_monotonic env (n_clock w)) wd) as (H1 & H2 & H3 & H4).
  unfold wd_le, abort_sound, abort_explained, shared. cbn [watchdog _abort fst snd].
  rewrite H1, H2, H3, H4. tauto.
Qed.

Lemma rises_watchdog_ran : rises env (Run.watchdog_ran env).
Proof.
  intros [sm rp wd rb ab g c w] r o'. rewrite watchdog_ran_frame.
  intros [= <- <-]. apply ticks_le.
Qed.

Lemma rises_apply {A} (c : M A) o r o' :
  rises env c -> c o = (r, o') ->
  wd_le (env_fmt0 env) (shared o) (shared o').
Proof. intros Hc. apply Hc. Qed.

End rises_facts.

Ltac rises_step :=
  first
    [ apply rises_wd_update; intros ? ?; repeat split; reflexivity
    | apply rises_mark
    | apply rises_sm_transition
    | apply rises_watchdog_ran
    | apply rises_execute_with_retry
    | apply rises_bind; [|intros ?]
    | apply rises_ret
    | apply rises_raise
    | apply rises_out_of_fuel
    | apply rises_get
    | apply rises_lift
    | apply rises_now
    | apply rises_monotonic
    | apply rises_call_backend
    | apply rises_call_verifier
    | apply rises_update_node
    | apply rises_modify; intros []; reflexivity
    | match goal with
      | |- rises _ (match ?x with _ => _ end) => destruct x
      end
    | progress cbv zeta ].

Ltac rises_tac := repeat rises_step.

Section rises_exec.
Import Orchestrator.
Variable env : Env.

Lemma rises_full_reset step : rises env (Run.full_reset env step).
Proof. unfold Run.full_reset. rises_tac. Qed.

Lemma rises_verify step : rises env (Run._verify env step).
Proof. unfold Run._verify. rises_tac. Qed.

Lemma rises_recover_verify_failure step :
  rises env (Run.recover_verify_failure env step).
Proof. unfold Run.recover_verify_failure. rises_tac. Qed.

Lemma rises_exec_node i node : rises env (Run._exec_node env i node).
Proof.
  unfold Run._exec_node.
  repeat first [ apply rises_full_reset | apply rises_verify
               | apply rises_recover_verify_failure | rises_step ].
Qed.

Lemma rises_exec_ready_node i : rises env (Run.exec_ready_node env i).
Proof.
  unfold Run.exec_ready_node.
  repeat first [ apply rises_exec_node | rises_step ].
Qed.

Lemma rises_exec_ready ready : rises env (Run.exec_ready env ready).
Proof.
  induction ready as [|i rest IH]; cbn [Run.exec_ready]; [apply rises_ret|].
  apply rises_bind; [apply rises_exec_ready_node|].
  intros [r|]; [apply rises_ret|exact IH].
Qed.

Lemma rises_exec_loop fuel : rises env (Run.exec_loop env fuel).
Proof.
  induction fuel as [|fuel IH]; cbn [Run.exec_loop];
    [apply rises_out_of_fuel|].
  apply rises_bind; [apply rises_get|]. intros o. cbv zeta.
  destruct (StepGraph.pending_nodes (graph o)) as [|i rest] eqn:Hp.
  - destruct (StepGraph.progress (graph o)). apply rises_ret.
  - apply rises_bind; [apply rises_exec_ready|].
    intros [r|]; [apply rises_ret|].
    apply rises_bind; [apply rises_get|]. intros o1.
    destruct (StepGraph.has_failed (graph o1)); [apply rises_ret|exact IH].
Qed.

Lemma rises_run_rollbacks entries : rises env (Run.run_rollbacks env entries).
Proof.
  induction entries as [|e entries IH]; cbn [Run.run_rollbacks];
    [apply rises_ret|].
  apply rises_bind; [apply rises_call_backend|]. intros ?.
  apply rises_bind; [exact IH|]. intros ?. apply rises_ret.
Qed.

Lemma rises_rollback_all : rises env (Run.rollback_all env).
Proof.
  unfold Run.rollback_all.
  repeat first [ apply rises_run_rollbacks | rises_step ].
Qed.

End rises_exec.

Section chain_facts.
Import StepGraph.
Variable uuid : nat -> string.
Variable plan : Plan.

Local Abbreviation chain_at := (chain_at uuid plan).

Lemma bind_imap_positions {A} (f : nat -> A -> bool) (l : list A) : forall off,
  (imap (fun i n => (off + i, n)) l) ≫=
     (fun p => if f p.1 p.2 then [p.1] else [])
  = positions_where f off l.
Proof.
  induction l as [|x l IH]; intros off; [done|].
  cbn [imap positions_where]. rewrite bind_cons. cbn [fst snd].
  replace (off + 0) with off by lia. f_equal.
  rewrite <- IH. f_equal. apply imap_ext. intros i y _. simpl. f_equal. lia.
Qed.

Lemma pending_nodes_positions (g : StepGraph.t) :
  pending_nodes g
  = positions_where
      (fun _ n => bool_decide (StepNode.status n = PENDING) && _deps_ok g n)
      0 (nodes g).
Proof.
  unfold pending_nodes.
  rewrite <- (bind_imap_positions
                (fun _ n => bool_decide (StepNode.status n = PENDING)
                            && _deps_ok g n) (nodes g) 0).
  done.
Qed.

Lemma positions_where_none {A} (f : nat -> A -> bool) (l : list A) : forall off,
  (forall j x, l !! j = Some x -> f (off + j) x = false) ->
  positions_where f off l = [].
Proof.
  induction l as [|x l IH]; intros off H; [done|]. simpl.
  rewrite <- (Nat.add_0_r off) at 1. rewrite (H 0 x eq_refl). simpl.
  apply IH. intros j y Hj. replace (S off + j) with (off + S j) by lia.
  by apply H.
Qed.

Lemma positions_where_single {A} (f : nat -> A -> bool) (l : list A) :
  forall off k,
  k < length l ->
  (forall j x, l !! j = Some x -> f (off + j) x = bool_decide (j = k)) ->
  positions_where f off l = [off + k].
Proof.
  induction l as [|x l IH]; intros off k Hk H; [simpl in Hk; lia|]. simpl.
  rewrite <- (Nat.add_0_r off) at 1. rewrite (H 0 x eq_refl).
  destruct k as [|k].
  - rewrite bool_decide_eq_true_2 by done. simpl.
    rewrite positions_where_none; [by rewrite Nat.add_0_r|].
    intros j y Hj. replace (S off + j) with (off + S j) by lia.
    rewrite (H (S j) y Hj). by apply bool_decide_eq_false_2.
  - rewrite bool_decide_eq_false_2 by done. simpl.
    rewrite (IH (S off) k); [f_equal; lia|simpl in Hk; lia|].
    intros j y Hj. replace (S off + j) with (off + S j) by lia.
    rewrite (H (S j) y Hj). apply bool_decide_ext. lia.
Qed.

Lemma structure_deps n m :
  StepNode.structure n = StepNode.structure m ->
  StepNode.depends_on n = StepNode.depends_on m
  /\ StepNode.step_id n = StepNode.step_id m.
Proof. unfold StepNode.structure. intros [= ]. done. Qed.

Lemma chain_get_node k g j n :
  chain_at k g -> nodes g !! j = Some n ->
  get_node g (node_id uuid j) = Some n.
Proof.
  intros (Hix & _ & Hlen & Hn) Hj. unfold get_node. rewrite Hix.
  assert (_id_index (built uuid plan) !! node_id uuid j = Some j) as ->.
  { apply built_index. split; [|done]. rewrite <- Hlen.
    by eapply lookup_lt_Some. }
  simpl. done.
Qed.

Lemma chain_deps_ok k g j n :
  chain_at k g -> nodes g !! j = Some n ->
  _deps_ok g n = bool_decide (j <= k).
Proof.
  intros Hc Hj. pose proof Hc as (Hix & _ & Hlen & Hn).
  destruct (Hn j n Hj) as ((step & Hs & Hst) & _ & _).
  apply structure_deps in Hst as [Hd _]. unfold _deps_ok. rewrite Hd.
  rewrite make_node_deps. destruct j as [|j]; cbn [forallb].
  - symmetry. apply bool_decide_eq_true_2. lia.
  - assert (is_Some (nodes g !! j)) as [m Hm].
    { apply lookup_lt_is_Some. apply lookup_lt_Some in Hj. lia. }
    rewrite (chain_get_node k g j m Hc Hm).
    destruct (Hn j m Hm) as (_ & Hlt & Hge).
    unfold StepNode.is_done. destruct (decide (j < k)) as [Hjk|Hjk].
    + rewrite (Hlt Hjk). cbn -[bool_decide].
      symmetry. apply bool_decide_eq_true_2. lia.
    + rewrite (Hge ltac:(lia)). cbn -[bool_decide].
      symmetry. apply bool_decide_eq_false_2. lia.
Qed.

Lemma chain_pending k g :
  chain_at k g ->
  pending_nodes g = if decide (k < length (plan_steps plan)) then [k] else [].
Proof.
  intros Hc. pose proof Hc as (Hix & _ & Hlen & Hn).
  rewrite pending_nodes_positions. case_decide as Hk.
  - rewrite (positions_where_single _ _ 0 k); [done|lia|].
    intros j n Hj. rewrite (chain_deps_ok k g j n Hc Hj).
    destruct (Hn j n Hj) as (_ & Hlt & Hge). simpl.
    destruct (decide (j < k)) as [Hjk|Hjk].
    + rewrite (Hlt Hjk). simpl. by rewrite bool_decide_eq_false_2 by lia.
    + rewrite (Hge ltac:(lia)). rewrite bool_decide_eq_true_2 by done. simpl.
      apply bool_decide_ext. lia.
  - apply positions_where_none. intros j n Hj.
    destruct (Hn j n Hj) as (_ & Hlt & _).
    rewrite Hlt; [done|]. apply lookup_lt_Some in Hj. lia.
Qed.

Lemma filter_done_count (l : list StepNode.t) : forall k,
  k <= length l ->
  (forall j n, l !! j = Some n ->
     StepNode.is_done n = bool_decide (j < k)) ->
  length (List.filter StepNode.is_done l) = k.
Proof.
  induction l as [|x l IH]; intros k Hk H; simpl in *; [lia|].
  rewrite (H 0 x eq_refl). destruct k as [|k].
  - rewrite bool_decide_eq_false_2 by lia. apply (IH 0); [lia|].
    intros j n Hj. rewrite (H (S j) n Hj). apply bool_decide_ext. lia.
  - rewrite bool_decide_eq_true_2 by lia. simpl. f_equal. apply IH; [lia|].
    intros j n Hj. rewrite (H (S j) n Hj). apply bool_decide_ext. lia.
Qed.

Lemma chain_progress k g :
  chain_at k g -> k <= length (plan_steps plan) ->
  progress g = (k, length (plan_steps plan)).
Proof.
  intros (_ & _ & Hlen & Hn) Hk. unfold progress. rewrite Hlen. f_equal.
  apply filter_done_count; [lia|]. intros j n Hj.
  destruct (Hn j n Hj) as (_ & Hlt & Hge). unfold StepNode.is_done.
  destruct (decide (j < k)) as [Hjk|Hjk].
  - rewrite (Hlt Hjk). simpl. by rewrite bool_decide_eq_true_2.
  - rewrite (Hge ltac:(lia)). simpl. by rewrite bool_decide_eq_false_2.
Qed.

Lemma chain_has_failed k g : chain_at k g -> has_failed g = false.
Proof.
  intros (_ & _ & _ & Hn). unfold has_failed.
  apply not_true_is_false. intros H. apply existsb_exists in H as (n & Hin & Hf).
  apply bool_decide_eq_true in Hf. apply list_elem_of_In in Hin.
  apply list_elem_of_lookup_1 in Hin as [j Hj].
  destruct (Hn j n Hj) as (_ & Hlt & Hge).
  destruct (decide (j < k)); [rewrite Hlt in Hf by done|rewrite Hge in Hf by lia];
    discriminate.
Qed.

Lemma chain_step k g t1 t2 mu :
  chain_at k g ->
  chain_at (S k)
    (update_node k (StepNode.mark_success t2 mu)
       (update_node k (StepNode.mark_running t1) g)).
Proof.
  intros (Hix & Htn & Hlen & Hn). unfold chain_at, update_node. cbn [nodes _id_index task_name].
  split; [done|]. split; [done|]. split; [by rewrite !length_alter|].
  intros j n Hj.
  destruct (decide (j = k)) as [->|Hne].
  - rewrite !list_lookup_alter_eq in Hj.
    destruct (nodes g !! k) as [m|] eqn:Hm; [|done]. simpl in Hj.
    inversion Hj; subst n. clear Hj.
    destruct (Hn k m Hm) as ((step & Hs & Hst) & _ & Hge).
    split; [|split; [done|lia]].
    exists step. split; [done|]. rewrite <- Hst.
    unfold StepNode.mark_running. rewrite (Hge ltac:(lia)).
    rewrite bool_decide_eq_false_2 by done. reflexivity.
  - rewrite !list_lookup_alter_ne in Hj by done.
    destruct (Hn j n Hj) as (H1 & Hlt & Hge).
    split; [done|]. split; intros; [apply Hlt|apply Hge]; lia.
Qed.

Lemma chain_built : chain_at 0 (freeze (built uuid plan)).
Proof.
  unfold chain_at, freeze. cbn [nodes _id_index task_name].
  split; [done|]. split; [done|].
  rewrite built_nodes, chain_nodes_length. split; [done|].
  intros j n Hj. apply chain_nodes_lookup in Hj as (step & Hs & ->).
  simpl. split; [eauto|]. split; [lia|done].
Qed.

End chain_facts.

Section node_facts.


Lemma to_step_dict_node_step uuid i prev s node :
  StepNode.structure node
  = StepNode.structure (StepGraph.make_node uuid i prev s) ->
  StepNode.to_step_dict node = node_step s.
Proof.
  unfold StepNode.structure. intros [= Hid Hseq Ha Hv Hm Hd Ht Hr Hra].
  unfold StepNode.to_step_dict, node_step. by rewrite Ha, Hv, Hm.
Qed.

End node_facts.

Section run_facts.
Import Orchestrator.
Variable env : Env.

Lemma can_execute_admits step c :
  admits (ExecutionContext.mode c) step = true ->
  ExecutionContext.can_execute step c = (true, c).
Proof.
  unfold admits, ExecutionContext.can_execute.
  destruct (ExecutionContext.mode c); [done|done|].
  intros H. apply andb_true_iff in H as [H1 H2].
  apply negb_true_iff in H1. rewrite H1, H2. done.
Qed.

Lemma to_step_dict_action node :
  dict_get (StepNode.to_step_dict node) "action" "" = StepNode.action node.
Proof. reflexivity. Qed.

Lemma to_step_dict_method node :
  is_Some (StepNode.to_step_dict node !! "method").
Proof. by eexists. Qed.

Lemma ticks_stopped n (s : Watchdog.t * bool) :
  Watchdog._running s.1 = false -> Run.ticks env n s = s.
Proof. intros H. unfold Run.ticks. by rewrite H. Qed.

Lemma make_result_failure g name cmd err :
  truthy err = true ->
  tr_success (Run._make_result g name cmd err) = false
  /\ tr_error (Run._make_result g name cmd err) = err
  /\ tr_steps_done (Run._make_result g name cmd err) = (StepGraph.progress g).1
  /\ tr_steps_total (Run._make_result g name cmd err) = (StepGraph.progress g).2.
Proof.
  intros Ht. unfold Run._make_result.
  destruct (StepGraph.progress g) as [done total]. rewrite Ht. done.
Qed.

(** A node whose step succeeds at the first call and is verified. *)
Lemma exec_node_success i node sm rp wd rb ab g c w :
  allowed_b (StateMachine._state sm) TaskState.EXECUTING = true ->
  (0 < RetryPolicy.max_attempts (RetryPolicy.config rp))%nat ->
  (forall b d, env_backend env (n_backend w) b d = Truthy) ->
  (forall d, env_verifier env (n_verify w) d = true) ->
  exists sm' wd' ab' c' w' t1 t2 mu,
    Run._exec_node env i node (mk sm rp wd rb ab g c w)
    = (Ok true,
       mk sm' rp wd' (rollback_after node rb) ab'
          (StepGraph.update_node i (StepNode.mark_success t2 mu)
             (StepGraph.update_node i (StepNode.mark_running t1) g))
          c' w')
    /\ StateMachine._state sm' = TaskState.VERIFYING
    /\ ExecutionContext.mode c' = ExecutionContext.mode c
    /\ n_backend w' = S (n_backend w)
    /\ (n_verify w <= n_verify w' <= S (n_verify w))%nat
    /\ backend_log w'
       = (backend_log w
          ++ [executor_call (env_capabilities env)
                            (StepNode.to_step_dict node)])%list.
Proof.
  intros Hal Hmax Hb Hv. unfold Run._exec_node, Run.wd_update, Run.mark.
  msimpl.
  rewrite (sm_transition_from env (StateMachine._state sm)) by done. msimpl.
  rewrite watchdog_ran_frame. msimpl.
  match goal with
  | |- context [Run.execute_with_retry env ?st (mk ?a ?b ?c0 ?d ?e ?f ?g0 ?h)] =>
      destruct (retry_first_success env st a b c0 d e f g0 h) as
        (r & w1 & Hr & Hn1 & Hn2 & Hn3 & Hlog);
        [apply to_step_dict_method|exact Hmax|exact Hb|]
  end.
  rewrite Hr. msimpl.
  rewrite watchdog_ran_frame. msimpl.
  rewrite watchdog_ran_frame. msimpl.
  rewrite (sm_transition_from env TaskState.EXECUTING)
    by (rewrite ?sm_apply_state; reflexivity).
  msimpl.
  match goal with
  | |- context [Run._verify env ?st (mk ?a ?b ?c0 ?d ?e ?f ?g0 ?h)] =>
      destruct (verify_passes env st a b c0 d e f g0 h) as
        (w2 & Hver & Hv1 & Hv2 & Hv3 & Hv4 & Hv5)
  end.
  { intros d. simpl. rewrite Hn2. apply Hv. }
  rewrite Hver. msimpl.
  unfold rollback_after.
  destruct (truthy_opt (StepNode.rollback_action node)); msimpl.
  - do 8 eexists. split; [reflexivity|]. msimpl.
    rewrite sm_apply_state. simpl in *.
    repeat split; try done; try (by case_bool_decide); try lia.
    congruence.
  - do 8 eexists. split; [reflexivity|]. msimpl.
    rewrite sm_apply_state. simpl in *.
    repeat split; try done; try (by case_bool_decide); try lia.
    congruence.
Qed.

(** The per-node check with a flag up: the node is marked failed, the state
    machine moves to FAILED and the loop returns a failure. *)
Lemma exec_ready_node_abort i node sm rp wd rb ab g c w :
  StepGraph.nodes g !! i = Some node ->
  allowed_b (StateMachine._state sm) TaskState.FAILED = true ->
  (Run.ticks env (n_check w) (wd, ab)).2
  || Watchdog.abort_requested (Run.ticks env (n_check w) (wd, ab)).1 = true ->
  exists sm',
    Run.exec_ready_node env i (mk sm rp wd rb ab g c w)
    = (Ok (Some (Run._make_result
                   (StepGraph.update_node i
                      (StepNode.mark_failed (env_now env (n_clock w))
                                            "Watchdog abort") g)
                   (StepGraph.task_name g) ""
                   (if truthy (Watchdog.abort_reason
                                 (Run.ticks env (n_check w) (wd, ab)).1)
                    then Watchdog.abort_reason
                           (Run.ticks env (n_check w) (wd, ab)).1
                    else "Watchdog abort"))),
       mk sm' rp (Run.ticks env (n_check w) (wd, ab)).1 rb
          (Run.ticks env (n_check w) (wd, ab)).2
          (StepGraph.update_node i
             (StepNode.mark_failed (env_now env (n_clock w))
                                   "Watchdog abort") g)
          c
          (mk_world (n_backend w) (n_verify w) (S (S (n_clock w)))
                    (S (n_check w)) (backend_log w)))
    /\ StateMachine._state sm' = TaskState.FAILED.
Proof.
  intros Hnode Hal Hab.
  unfold Run.exec_ready_node. rewrite bind_unfold, watchdog_ran_frame.
  msimpl. rewrite Hnode, Hab. unfold Run.mark. msimpl.
  rewrite (sm_transition_from env (StateMachine._state sm)) by done. msimpl.
  eexists. split; [reflexivity|]. apply sm_apply_state.
Qed.

Lemma abort_result_fails (reason : string) :
  truthy (if truthy reason then reason else "Watchdog abort") = true.
Proof. by destruct (truthy reason) eqn:H. Qed.

(** The body of the loop for a node whose step succeeds: either the
    watchdog has raised a flag and the run is halted, or the node is
    executed and the loop goes on. *)
Lemma exec_ready_node_success i node sm rp wd rb ab g c w :
  StepGraph.nodes g !! i = Some node ->
  abort_sound (wd, ab) ->
  admits (ExecutionContext.mode c) (StepNode.to_step_dict node) = true ->
  allowed_b (StateMachine._state sm) TaskState.EXECUTING = true ->
  allowed_b (StateMachine._state sm) TaskState.FAILED = true ->
  (0 < RetryPolicy.max_attempts (RetryPolicy.config rp))%nat ->
  (forall b d, env_backend env (n_backend w) b d = Truthy) ->
  (forall d, env_verifier env (n_verify w) d = true) ->
  exists res o',
    Run.exec_ready_node env i (mk sm rp wd rb ab g c w) = (Ok res, o')
    /\ ((res = None
         /\ exists sm' wd' ab' c' w' t1 t2 mu,
              o' = mk sm' rp wd' (rollback_after node rb) ab'
                      (StepGraph.update_node i (StepNode.mark_success t2 mu)
                         (StepGraph.update_node i (StepNode.mark_running t1) g))
                      c' w'
              /\ StateMachine._state sm' = TaskState.VERIFYING
              /\ ExecutionContext.mode c' = ExecutionContext.mode c
              /\ n_backend w' = S (n_backend w)
              /\ (n_verify w <= n_verify w' <= S (n_verify w))%nat
              /\ backend_log w'
                 = (backend_log w
                    ++ [executor_call (env_capabilities env)
                                      (StepNode.to_step_dict node)])%list)
        \/ (exists r, res = Some r /\ halted r o')).
Proof.
  intros Hnode Hsound Hadm Hal Hfl Hmax Hb Hv.
  destruct ((Run.ticks env (n_check w) (wd, ab)).2
            || Watchdog.abort_requested (Run.ticks env (n_check w) (wd, ab)).1)
    eqn:Hflag.
  - destruct (exec_ready_node_abort i node sm rp wd rb ab g c w Hnode Hfl Hflag)
      as (sm' & He & Hst).
    do 2 eexists. split; [exact He|]. right. eexists. split; [reflexivity|].
    split; [|split; [|exact Hst]].
    + apply make_result_failure, abort_result_fails.
    + cbn [watchdog].
      destruct (ticks_le env (n_check w) (wd, ab)) as (_ & _ & _ & _ & Hs & _).
      apply orb_true_iff in Hflag as [Hflag|Hflag]; [|exact Hflag].
      by apply (Hs Hsound).
  - unfold Run.exec_ready_node. rewrite bind_unfold, watchdog_ran_frame.
    msimpl. rewrite Hnode, Hflag. msimpl.
    rewrite (can_execute_admits _ _ Hadm). msimpl.
    match goal with
    | |- context [Run._exec_node env i node (mk ?a ?b ?c0 ?d ?e ?f ?g0 ?h)] =>
        destruct (exec_node_success i node a b c0 d e f g0 h Hal Hmax) as
          (sm' & wd' & ab' & c' & w' & t1 & t2 & mu & He & H1 & H2 & H3 & H4
             & Hlog)
    end; [exact Hb|exact Hv|].
    rewrite He. msimpl.
    do 2 eexists. split; [reflexivity|]. left. split; [done|].
    exists sm', wd', ab', c', w', t1, t2, mu. split; [reflexivity|].
    simpl in *. repeat split; try done; try congruence; lia.
Qed.

Section chain_run.
Variable plan : StepGraph.Plan.
Variables (mode0 : ExecMode) (nb0 nv0 : nat).
Local Abbreviation N := (length (StepGraph.plan_steps plan)).
Hypothesis Hb : forall n b d, (nb0 <= n < nb0 + N)%nat ->
                              env_backend env n b d = Truthy.
Hypothesis Hv : forall n d, (nv0 <= n < nv0 + N)%nat ->
                            env_verifier env n d = true.
Hypothesis Hadm : forall step, step ∈ StepGraph.plan_steps plan ->
                               admits mode0 step = true.

Local Abbreviation loop_inv := (loop_inv env plan mode0 nb0 nv0).

Lemma node_admitted k g j node :
  chain_at (env_uuid env) plan k g -> StepGraph.nodes g !! j = Some node ->
  admits mode0 (StepNode.to_step_dict node) = true.
Proof.
  intros (_ & _ & _ & Hn) Hj.
  destruct (Hn j node Hj) as ((step & Hs & Hst) & _).
  assert (StepNode.action node = dict_get step "action" "") as Ha.
  { unfold StepNode.structure in Hst. by inversion Hst. }
  assert (admits mode0 step = true) as Hs'.
  { apply Hadm. eapply list_elem_of_lookup_2; eauto. }
  unfold admits in *. rewrite to_step_dict_action, Ha. done.
Qed.

(** The loop over a chain whose steps all succeed: it ends with all [N]
    nodes executed, one backend call each, unless the watchdog halts it. *)
Lemma exec_loop_success m : forall k fuel o,
  N - k = m -> k <= N -> m < fuel -> loop_inv k o ->
  exists r o',
    Run.exec_loop env fuel o = (Ok r, o')
    /\ ((r = mk_task_result true (StepGraph.task_name (graph o)) ""
               N N 0%float "" (Some (graph o'))
         /\ loop_inv N o'
         /\ backend_log (world o')
            = (backend_log (world o)
               ++ map (fun s => executor_call (env_capabilities env)
                                              (node_step s))
                      (drop k (StepGraph.plan_steps plan)))%list)
        \/ halted r o').
Proof.
  induction m as [|m IH]; intros k fuel o Hm Hk Hfuel Hinv.
  - assert (k = N) as -> by lia.
    destruct fuel as [|fuel]; [lia|]. destruct o as [sm rp wd rb ab g c w].
    destruct Hinv as (Hc & Hrest). simpl in Hc.
    cbn [Run.exec_loop]. msimpl.
    rewrite (chain_pending _ _ _ _ Hc). rewrite decide_False by lia.
    rewrite (chain_progress _ _ _ _ Hc) by lia.
    rewrite bool_decide_eq_true_2 by done.
    unfold Run._make_result. rewrite (chain_progress _ _ _ _ Hc) by lia.
    rewrite bool_decide_eq_true_2 by done. simpl.
    do 2 eexists. split; [reflexivity|]. left. split; [done|].
    split; [by split|]. simpl. rewrite drop_all. simpl. by rewrite app_nil_r.
  - destruct fuel as [|fuel]; [lia|]. destruct o as [sm rp wd rb ab g c w].
    destruct Hinv as (Hc & Hst & Hmax & Hsound & Hmode & Hnb & Hnv).
    simpl in *.
    cbn [Run.exec_loop]. msimpl.
    rewrite (chain_pending _ _ _ _ Hc). rewrite decide_True by lia.
    cbn [Run.exec_ready]. msimpl.
    assert (is_Some (StepGraph.nodes g !! k)) as [node Hnode].
    { apply lookup_lt_is_Some. destruct Hc as (_ & _ & Hlen & _). lia. }
    destruct (exec_ready_node_success k node sm rp wd rb ab g c w) as
      (res & o1 & He & Hcases); try done.
    { rewrite Hmode. eapply node_admitted; eauto. }
    { rewrite Hst. by case_decide. }
    { rewrite Hst. by case_decide. }
    { lia. }
    { intros b d. apply Hb. lia. }
    { intros d. apply Hv. lia. }
    pose proof (rises_exec_ready_node env k _ _ _ He) as Hle.
    rewrite He.
    destruct Hcases as [(-> & sm' & wd' & ab' & c' & w' & t1 & t2 & mu & ->
                           & H1 & H2 & H3 & H4 & Hlog)
                       |(r & -> & Hhalt)].
    + msimpl.
      pose proof (chain_step _ _ _ _ t1 t2 mu Hc) as Hc'.
      rewrite (chain_has_failed _ _ _ _ Hc').
      match goal with
      | |- context [Run.exec_loop env fuel ?o1] =>
          destruct (IH (S k) fuel o1) as (r & o' & Ho' & Hcases'); try lia
      end.
      { unfold loop_inv. simpl. rewrite H1, H2, H3.
        split; [exact Hc'|]. repeat split; try done; try lia.
        destruct Hle as (_ & _ & _ & _ & Hs & _). by apply Hs. }
      exists r, o'. split; [exact Ho'|].
      destruct Hcases' as [(-> & Hinv' & Hlog')|Hhalt]; [left|by right].
      split; [done|]. split; [done|].
      rewrite Hlog'. simpl. rewrite Hlog.
      destruct Hc as (_ & _ & _ & Hn).
      destruct (Hn k node Hnode) as ((s & Hs & Hstr) & _).
      rewrite (drop_S _ _ _ Hs). cbn [map].
      rewrite (to_step_dict_node_step _ _ _ _ _ Hstr).
      by rewrite <- app_assoc.
    + msimpl. exists r, o1. split; [reflexivity|]. by right.
Qed.
End chain_run.

End run_facts.

Section rollback_facts.
Import Orchestrator.
Variable env : Env.

Lemma run_rollbacks_log entries : forall sm rp wd rb ab g c w,
  exists rs w',
    Run.run_rollbacks env entries (mk sm rp wd rb ab g c w)
    = (Ok rs, mk sm rp wd rb ab g c w')
    /\ backend_log w'
       = (backend_log w
          ++ map (fun e => (SystemB, RollbackManager.step e)) entries)%list
    /\ n_clock w' = n_clock w
    /\ n_check w' = n_check w
    /\ n_verify w' = n_verify w.
Proof.
  induction entries as [|e entries IH]; intros sm rp wd rb ab g c w.
  - exists [], w. cbn [Run.run_rollbacks]. msimpl. by rewrite app_nil_r.
  - cbn [Run.run_rollbacks]. msimpl.
    match goal with
    | |- context [Run.run_rollbacks env entries (mk ?a ?b ?c0 ?d ?e0 ?f ?g0 ?h)] =>
        destruct (IH a b c0 d e0 f g0 h) as (rs & w' & He & Hlog & Hck & Hch & Hve)
    end.
    rewrite He. msimpl. do 2 eexists. split; [reflexivity|].
    rewrite Hlog, Hck, Hch, Hve. simpl. rewrite <- app_assoc. done.
Qed.

(** [rollback_all] calls the system backend once per registered entry, the
    entry registered last first, and empties the stack. *)
Lemma rollback_all_lifo sm rp wd rb ab g c w :
  exists rs w',
    Run.rollback_all env (mk sm rp wd rb ab g c w)
    = (Ok rs, mk sm rp wd [] ab g c w')
    /\ backend_log w'
       = (backend_log w
          ++ map (fun e => (SystemB, RollbackManager.step e)) (rev rb))%list
    /\ n_clock w' = n_clock w
    /\ n_check w' = n_check w
    /\ n_verify w' = n_verify w.
Proof.
  unfold Run.rollback_all. msimpl. destruct rb as [|e rb'].
  - exists [], w. msimpl. by rewrite app_nil_r.
  - destruct (run_rollbacks_log (rev (e :: rb')) sm rp wd (e :: rb') ab g c w)
      as (rs & w' & He & Hlog & Hck).
    rewrite He. msimpl. by exists rs, w'.
Qed.

End rollback_facts.

Section run_claims.
Import Orchestrator.

Lemma plan_nonempty env plan :
  Run._plan env = Some plan -> StepGraph.plan_steps plan <> [].
Proof.
  unfold Run._plan. destruct (env_planner env) as [p|]; [|done].
  destruct (Run.validate_plan env p) eqn:Hval.
  - intros [= <-]. unfold Run.validate_plan in Hval.
    destruct (StepGraph.plan_task p); [|done].
    repeat (apply andb_true_iff in Hval as [Hval ?]).
    apply negb_true_iff, bool_decide_eq_false in Hval. done.
  - destruct (StepGraph.plan_steps (Run.sanitize_plan env p)) eqn:Hs; [done|].
    intros [= <-]. by rewrite Hs.
Qed.

Lemma admits_not_dry_run mode step : admits mode step = true -> mode <> DRY_RUN.
Proof. by destruct mode. Qed.

(** [run] up to the loop and after it: from an operational orchestrator
    and a plan, [run] reaches the loop of [_exec_graph] in a state [o0]
    with the chain built, the flags down and the rollback stack empty; and
    when the loop returns a result, [run] returns it, after the rollback if
    it is a failure, with the watchdog stopped and the state machine in
    INIT. *)
Lemma run_after_loop env cmd mode plan o :
  operational o ->
  StepGraph.lists_elements (env_set_order env) ->
  Run._plan env = Some plan ->
  mode <> DRY_RUN ->
  exists o0,
    loop_inv env plan mode (n_backend (world o)) (n_verify (world o)) 0 o0
    /\ backend_log (world o0) = backend_log (world o)
    /\ rollback_mgr o0 = []
    /\ Watchdog._has_alert_cb (watchdog o0) = true
    /\ forall r o1,
         Run.exec_loop env (S (length (StepGraph.plan_steps plan))) o0
         = (Ok r, o1) ->
         (tr_success r = true
          /\ allowed_b (StateMachine._state (state_machine o1))
                       TaskState.SUCCESS = true)
         \/ (tr_success r = false
             /\ StateMachine._state (state_machine o1) = TaskState.FAILED) ->
         exists r' o',
           Run.run env cmd mode o = (Ok r', o')
           /\ tr_success r' = tr_success r
           /\ tr_steps_done r' = tr_steps_done r
           /\ tr_steps_total r' = tr_steps_total r
           /\ StateMachine._state (state_machine o') = TaskState.INIT
           /\ watchdog o'
              = Watchdog.stop
                  (Run.ticks env (n_check (world o1)) (shared o1)).1
           /\ retry_policy o' = retry_policy o1
           /\ graph o' = graph o1
           /\ n_verify (world o') = n_verify (world o1)
           /\ (tr_success r = true ->
               n_backend (world o') = n_backend (world o1)
               /\ backend_log (world o') = backend_log (world o1)
               /\ rollback_mgr o' = rollback_mgr o1)
           /\ (tr_success r = false ->
               backend_log (world o')
               = (backend_log (world o1)
                  ++ map (fun e => (SystemB, RollbackManager.step e))
                         (rev (rollback_mgr o1)))%list
               /\ rollback_mgr o' = []).
Proof.
  intros (Hmax & Hcb & Hinit & Hrun) Hord Hplan Hmode.
  destruct o as [sm rp wd rb ab g c w].
  cbn [retry_policy watchdog state_machine] in Hmax, Hcb, Hinit, Hrun.
  pose proof (plan_nonempty env plan Hplan) as Hne.
  unfold Run.run. msimpl.
  rewrite watchdog_ran_frame. rewrite ticks_stopped by exact Hrun. msimpl.
  rewrite Hrun. msimpl.
  rewrite (sm_transition_from env TaskState.INIT) by done. msimpl.
  rewrite Hplan. msimpl.
  rewrite bool_decide_eq_false_2 by done. msimpl.
  rewrite (from_plan_built _ _ _ Hord Hne). msimpl.
  unfold Run._exec_graph. msimpl.
  cbn [StepGraph.nodes StepGraph.freeze].
  rewrite built_nodes, chain_nodes_length.
  match goal with
  | |- context [Run.exec_loop env _ ?o1] => exists o1
  end.
  split.
  { unfold loop_inv. simpl. split; [apply chain_built|].
    rewrite ?sm_apply_state. repeat split; try done; lia. }
  split; [done|]. split; [done|].
  split; [by unfold Watchdog.start; rewrite Hrun|].
  intros r [sm1 rp1 wd1 rb1 ab1 g1 c1 w1] Hloop Hcase. rewrite Hloop.
  msimpl. cbn [state_machine] in Hcase.
  destruct Hcase as [[Hs Hal]|[Hs Hst]]; rewrite Hs.
  - rewrite (sm_transition_from env (StateMachine._state sm1)) by done.
    msimpl. cbn [Run.with_result_meta tr_success negb]. rewrite Hs. msimpl.
    rewrite watchdog_ran_frame. msimpl.
    do 2 eexists. split; [reflexivity|]. simpl.
    repeat split; try done.
  - msimpl. rewrite Hst. rewrite bool_decide_eq_true_2 by set_solver.
    msimpl. cbn [Run.with_result_meta tr_success negb]. rewrite Hs. msimpl.
    match goal with
    | |- context [Run.rollback_all env (mk ?a ?b ?c0 ?d ?e ?f ?g0 ?h)] =>
        destruct (rollback_all_lifo env a b c0 d e f g0 h) as
          (rs & w3 & Hrb & Hlog3 & Hck3 & Hch3 & Hve3)
    end.
    rewrite Hrb. msimpl. rewrite watchdog_ran_frame. msimpl.
    do 2 eexists. split; [reflexivity|]. simpl. simpl in Hch3, Hve3.
    rewrite Hch3. repeat split; try done.
Qed.

End run_claims.

Section run_claims2.
Import Orchestrator.

Lemma ends_in_INIT_bind {A B} (c : M A) (k : A -> M B) :
  (forall x, ends_in_INIT (k x)) -> ends_in_INIT (bind c k).
Proof.
  intros Hk o r o'. unfold bind. destruct (c o) as [[x|e|] o1]; [|done..].
  apply Hk.
Qed.

Lemma sm_transition_inv env s n a tot o o' :
  Run.sm_transition env s n a tot o = (Ok tt, o') ->
  StateMachine._state (state_machine o') = s
  /\ retry_policy o' = retry_policy o /\ watchdog o' = watchdog o
  /\ rollback_mgr o' = rollback_mgr o /\ _abort o' = _abort o
  /\ graph o' = graph o /\ ctx o' = ctx o.
Proof.
  destruct o as [sm rp wd rb ab g c w].
  destruct (allowed_b (StateMachine._state sm) s) eqn:Hal.
  - rewrite (sm_transition_from env (StateMachine._state sm)) by done.
    intros [= <-]. simpl. by rewrite sm_apply_state.
  - unfold allowed_b in Hal. apply andb_false_iff in Hal.
    unfold Run.sm_transition. msimpl. unfold StateMachine.transition.
    unfold StateMachine._validate.
    repeat case_bool_decide; simpl in *; try done.
    all: destruct Hal as [Hal|Hal]; try done.
    all: try (apply orb_false_iff in Hal as [Hal1 Hal2]).
    all: repeat case_bool_decide; simpl in *; try done.
Qed.

Lemma run_returns_in_INIT env cmd mode : ends_in_INIT (Run.run env cmd mode).
Proof.
  unfold Run.run.
  do 7 (apply ends_in_INIT_bind; intros ?).
  destruct (Run._plan env) as [plan|].
  - apply ends_in_INIT_bind; intros ?.
    case_bool_decide.
    + do 4 (apply ends_in_INIT_bind; intros ?).
      intros o r o'. unfold bind at 1.
      destruct (Run.sm_transition env TaskState.INIT 0 "" 0 o) as [[[]|?|] o1] eqn:Ht;
        [|done..].
      apply sm_transition_inv in Ht as (Hs & _).
      destruct o1. msimpl. intros [= <- <-]. exact Hs.
    + do 8 (apply ends_in_INIT_bind; intros ?).
      intros o r o'. destruct o. msimpl. intros [= <- <-]. reflexivity.
  - apply ends_in_INIT_bind; intros ?.
    intros o r o'. destruct o. msimpl. rewrite watchdog_ran_frame. msimpl.
    intros [= <- <-]. reflexivity.
Qed.

(** The flag of a watchdog that is stopped after its last iterations is up
    if it was up before them. *)
Lemma stopped_flag env n o1 wd' :
  wd' = Watchdog.stop (Run.ticks env n (shared o1)).1 ->
  Watchdog.abort_requested (watchdog o1) = true ->
  Watchdog.abort_requested wd' = true.
Proof.
  intros -> H. cbn [Watchdog.stop Watchdog.abort_requested].
  destruct (ticks_le env n (shared o1)) as (_ & _ & H3 & _). by apply H3.
Qed.

Lemma stopped_thread env n o1 wd' :
  wd' = Watchdog.stop (Run.ticks env n (shared o1)).1 ->
  Watchdog._has_alert_cb wd' = Watchdog._has_alert_cb (watchdog o1)
  /\ Watchdog._running wd' = false.
Proof.
  intros ->. cbn [Watchdog.stop Watchdog._has_alert_cb Watchdog._running].
  destruct (ticks_le env n (shared o1)) as (H1 & _). by rewrite H1.
Qed.

(** C2 (as stated, refuted): every executor call of the three-step plan
    returns a success at its first attempt, but the verification of the
    second step fails twice; [run] does not return a result: it raises
    [AttributeError] from [recover_verify_failure], and the state machine is
    left in VERIFYING. *)
Lemma run_first_attempts_succeed_verification_fails :
  let out := Run.run example_env_unverified "open example.org" LIVE
               (init example_env_unverified LIVE) in
  (forall n b d, env_backend example_env_unverified n b d = Truthy)
  /\ out.1 = Raise (AttributeError "_execute_step_with_recovery")
  /\ map fst (backend_log (world out.2)) = [SystemB; BrowserB]
  /\ StateMachine._state (state_machine out.2) = TaskState.VERIFYING
  /\ ~ (exists r, out.1 = Ok r /\ tr_success r = true).
Proof.
  cbv zeta. split; [done|].
  assert (H : (Run.run example_env_unverified "open example.org" LIVE
                 (init example_env_unverified LIVE)).1
              = Raise (AttributeError "_execute_step_with_recovery"))
    by (vm_compute; reflexivity).
  split; [exact H|]. split; [vm_compute; reflexivity|].
  split; [vm_compute; reflexivity|].
  intros (r & Hr & _). rewrite H in Hr. discriminate.
Qed.

(** C2 (amended): for a plan of N steps (a single dependency chain) whose
    steps the execution mode admits, if the executor succeeds at the first
    call of every step and every verification passes, then [run] returns a
    result, whatever the watchdog thread does meanwhile, and the state
    machine is in INIT; and if the watchdog has raised no abort (its
    [abort_requested], lowered by [start] and raised only by a heartbeat
    timeout, is still down when [run] returns), the result has
    success = true and steps_done = steps_total = N.  Whenever [run] returns
    a result at all, the state machine is in INIT. *)
Theorem run_chain_all_steps_succeed env cmd mode plan o :
  operational o ->
  StepGraph.lists_elements (env_set_order env) ->
  Run._plan env = Some plan ->
  (forall step, step ∈ StepGraph.plan_steps plan -> admits mode step = true) ->
  (forall n b d, (n_backend (world o) <= n
                  < n_backend (world o) + length (StepGraph.plan_steps plan))%nat ->
                 env_backend env n b d = Truthy) ->
  (forall n d, (n_verify (world o) <= n
                < n_verify (world o) + length (StepGraph.plan_steps plan))%nat ->
               env_verifier env n d = true) ->
  (let out := Run.run env cmd mode o in
   exists r,
     out.1 = Ok r
     /\ StateMachine._state (state_machine out.2) = TaskState.INIT
     /\ (Watchdog.abort_requested (watchdog out.2) = false ->
         tr_success r = true
         /\ tr_steps_done r = length (StepGraph.plan_steps plan)
         /\ tr_steps_total r = length (StepGraph.plan_steps plan)
         /\ operational out.2))
  /\ (forall cmd1 mode1 o1 r1 o2,
        Run.run env cmd1 mode1 o1 = (Ok r1, o2) ->
        StateMachine._state (state_machine o2) = TaskState.INIT).
Proof.
  intros Hop Hord Hplan Hadm Hb Hv. split.
  2: { intros cmd1 mode1 o1 r1 o2. apply run_returns_in_INIT. }
  pose proof (plan_nonempty env plan Hplan) as Hne.
  assert (mode <> DRY_RUN) as Hmode.
  { destruct (StepGraph.plan_steps plan) as [|s ?] eqn:Hs; [done|].
    apply (admits_not_dry_run mode s). apply Hadm. by left. }
  destruct (run_after_loop env cmd mode plan o Hop Hord Hplan Hmode)
    as (o0 & Hinv & Hlog0 & Hrb0 & Hcb0 & Hafter).
  destruct (exec_loop_success env plan mode (n_backend (world o))
              (n_verify (world o)) Hb Hv Hadm
              (length (StepGraph.plan_steps plan)) 0
              (S (length (StepGraph.plan_steps plan))) o0)
    as (r & o1 & Hloop & Hcases); [lia|lia|lia|exact Hinv|].
  pose proof (rises_exec_loop env _ _ _ _ Hloop) as (Hcb1 & _).
  cbv zeta.
  destruct Hcases as [(Hr & Hinv1 & _)|(Hs & Hreq & Hst)].
  - destruct (Hafter r o1 Hloop) as
      (r' & o' & Hrun & Hs' & Hd' & Ht' & Hst' & Hwd' & Hrp' & _).
    { left. rewrite Hr. split; [done|].
      destruct Hinv1 as (_ & Hst1 & _). rewrite Hst1.
      rewrite decide_False; [done|].
      destruct (StepGraph.plan_steps plan); [done|simpl; lia]. }
    rewrite Hrun. exists r'. split; [done|]. split; [exact Hst'|].
    intros _. rewrite Hs', Hd', Ht', Hr. cbn [snd].
    repeat split; try done.
    + rewrite Hrp'. by destruct Hinv1 as (_ & _ & Hm & _).
    + destruct (stopped_thread env _ o1 _ Hwd') as [-> _].
      cbn [shared fst] in Hcb1. by rewrite Hcb1.
    + by destruct (stopped_thread env _ o1 _ Hwd') as [_ ->].
  - destruct (Hafter r o1 Hloop) as
      (r' & o' & Hrun & Hs' & Hd' & Ht' & Hst' & Hwd' & _).
    { by right. }
    rewrite Hrun. exists r'. split; [done|]. split; [exact Hst'|].
    intros Hdown. cbn [snd] in Hdown.
    rewrite (stopped_flag env _ o1 _ Hwd' Hreq) in Hdown. discriminate.
Qed.

Lemma run_chain_all_steps_succeed_witness :
  operational (init example_env_all_ok_watched LIVE)
  /\ Run._plan example_env_all_ok_watched = Some example_plan3
  /\ env_watchdog example_env_all_ok_watched 2 <> []
  /\ exists r,
       (Run.run example_env_all_ok_watched "open example.org" LIVE
          (init example_env_all_ok_watched LIVE)).1 = Ok r
       /\ tr_success r = true
       /\ tr_steps_done r = 3
       /\ tr_steps_total r = 3
       /\ StateMachine._state
            (state_machine
               (Run.run example_env_all_ok_watched "open example.org" LIVE
                  (init example_env_all_ok_watched LIVE)).2)
          = TaskState.INIT.
Proof.
  assert (Hop : operational (init example_env_all_ok_watched LIVE))
    by (repeat split; reflexivity).
  split; [exact Hop|]. split; [reflexivity|]. split; [discriminate|].
  destruct (proj1 (run_chain_all_steps_succeed example_env_all_ok_watched
                     "open example.org" LIVE example_plan3
                     (init example_env_all_ok_watched LIVE) Hop
                     (fun X x => elem_of_elements X x) eq_refl
                     (fun step _ => eq_refl)
                     (fun n b d _ => eq_refl) (fun n d _ => eq_refl)))
    as (r & Hr & Hst & Hcond).
  destruct Hcond as (H1 & H2 & H3 & _); [vm_compute; reflexivity|].
  exists r. repeat split; assumption.
Defined.

End run_claims2.

Section retry_invariant.
Import RetryPolicy.
Context {W : Type} (fn : step_dict -> W -> fn_outcome * W).
Variable step : step_dict.
Variable I : W -> Prop.
Hypothesis fails_under : forall m w0, I w0 ->
  is_success (fn (<["method" := m]> step) w0).1 = None
  /\ I (fn (<["method" := m]> step) w0).2.



End retry_invariant.

Section failure_facts.
Import Orchestrator.
Variable env : Env.





End failure_facts.

Section chain_failure.
Import StepGraph.
Variable uuid : nat -> string.
Variable plan : Plan.


End chain_failure.

Section failing_run.
Import Orchestrator.
Variable env : Env.



End failing_run.

Section run_claims3.
Import Orchestrator.



(** C10 (the code at a run whose only node is skipped): the graph counts
    the skipped node as done, and the result built from it would be a
    success with steps_done = steps_total = 1; but [run] then asks the state
    machine for PLANNED -> SUCCESS, which [ALLOWED] does not list, and raises
    [IllegalTransitionError] instead of returning the result.  For every
    graph, the steps_done of [_make_result] is the number of nodes that are
    SUCCESS or SKIPPED. *)
Theorem all_skipped_run_raises :
  let out := Run.run example_env_lock "lock the screen" SAFE_MODE
               (init example_env_lock LIVE) in
  out.1 = Raise (IllegalTransitionError "PLANNED" "SUCCESS")
  /\ map StepNode.status (StepGraph.nodes (graph out.2)) = [SKIPPED]
  /\ backend_log (world out.2) = []
  /\ StateMachine._state (state_machine out.2) = TaskState.PLANNED
  /\ (let r := Run._make_result (graph out.2) "lock_screen" "" "" in
      tr_success r = true /\ tr_steps_done r = 1 /\ tr_steps_total r = 1)
  /\ (forall g task_name command error,
        tr_steps_done (Run._make_result g task_name command error)
        = length (filter (fun n => StepNode.status n = SUCCESS
                                   \/ StepNode.status n = SKIPPED)
                         (StepGraph.nodes g))).
Proof.
  cbv zeta. repeat split; try (vm_compute; reflexivity).
  intros g task_name command error. unfold Run._make_result, StepGraph.progress.
  cbn [tr_steps_done]. generalize (StepGraph.nodes g). intros l.
  induction l as [|n l IH]; [done|].
  rewrite filter_cons. cbn [List.filter]. unfold StepNode.is_done at 1.
  destruct (StepNode.status n) eqn:Hs; cbn [orb];
    repeat case_bool_decide; try done; cbn [orb];
    case_decide as Hd; simpl; try (f_equal; exact IH); try exact IH;
    try (exfalso; apply Hd; auto; fail);
    destruct Hd as [Hd|Hd]; discriminate.
Qed.

End run_claims3.

(** ** A heartbeat lost while a step runs *)

Ltac rises_all :=
  repeat first [ apply rises_full_reset | apply rises_verify
               | apply rises_recover_verify_failure | rises_step ].

Section abort_facts.
Import Orchestrator.
Variable env : Env.

(** The heartbeat [step_started] sends is read at the third reading of the
    clock in [_exec_node]; the thread's iterations while the step is
    executed are those before the second access of [_exec_node] to the
    shared state.  If one of them finds that heartbeat too old, the flag is
    up when [_exec_node] ends, however it ends. *)
Lemma exec_node_hung i node o q res o2 :
  allowed_b (StateMachine._state (state_machine o)) TaskState.EXECUTING = true ->
  Watchdog._running (watchdog o) = true ->
  q ∈ env_watchdog env (S (n_check (world o))) ->
  (HEARTBEAT_TIMEOUT_S
   <? Watchdog.p_now q - env_monotonic env (S (S (n_clock (world o)))))%float
  = true ->
  Run._exec_node env i node o = (res, o2) ->
  Watchdog.abort_requested (watchdog o2) = true
  /\ (exists age label,
         Watchdog.abort_reason (watchdog o2)
         = Watchdog.heartbeat_msg (env_fmt0 env) age label)
  /\ (Watchdog._has_alert_cb (watchdog o) = true -> _abort o2 = true).
Proof.
  intros Hal Hrun Hin Hto. destruct o as [sm rp wd rb ab g c w].
  cbn [state_machine watchdog world] in Hal, Hrun, Hin, Hto.
  unfold Run._exec_node. cbv zeta.
  erewrite bind_ok by reflexivity. cbv beta.
  erewrite bind_ok
    by (apply (sm_transition_from env (StateMachine._state sm)); done).
  erewrite bind_ok by apply mark_frame.
  erewrite bind_ok by apply watchdog_ran_frame.
  erewrite bind_ok by apply wd_update_frame.
  match goal with
  | |- Orchestrator.bind (Run.execute_with_retry env ?st) _ ?oa = _ -> _ =>
      destruct (execute_with_retry_shared env st oa) as (r & ob & He & Hsh & Hnc)
  end.
  rewrite (bind_ok _ _ _ _ _ He). cbv beta.
  destruct ob as [smb rpb wdb rbb abb gb cb wb].
  cbn [shared watchdog _abort world n_check Run.tick] in Hsh, Hnc.
  injection Hsh as -> ->.
  erewrite bind_ok by apply watchdog_ran_frame.
  rewrite Hnc.
  match goal with
  | |- ?k ?oc = _ -> _ => assert (Hk : rises env k) by rises_all
  end.
  intros Hrest. pose proof (Hk _ _ _ Hrest) as (Hcb & _ & Hreq & Hab & _ & Hex).
  cbn [shared watchdog _abort fst snd] in Hcb, Hreq, Hab, Hex.
  destruct (ticks_le env (n_check w) (wd, ab)) as (Hcb0 & Hrun0 & _).
  cbn [fst] in Hcb0, Hrun0.
  match type of Hreq with
  | Watchdog.abort_requested (Run.ticks env ?n ?s).1 = true -> _ =>
      destruct (ticks_raise env q n s) as (G1 & G2 & G3)
  end.
  { cbn [fst Watchdog.step_started Watchdog.heartbeat Watchdog._running].
    by rewrite Hrun0. }
  { exact Hin. }
  { exact Hto. }
  unfold abort_explained in Hex. cbn [fst] in Hex.
  split; [by apply Hreq|]. split; [apply Hex; [done|by apply Hreq]|].
  intros Hc. apply Hab, G3.
  cbn [fst Watchdog.step_started Watchdog.heartbeat Watchdog._has_alert_cb].
  by rewrite Hcb0.
Qed.

(** A per-node check that finds [abort_requested] up with a heartbeat
    message halts the loop with that message. *)
Lemma exec_loop_halts fuel o i rest node :
  StepGraph.pending_nodes (graph o) = i :: rest ->
  StepGraph.nodes (graph o) !! i = Some node ->
  allowed_b (StateMachine._state (state_machine o)) TaskState.FAILED = true ->
  Watchdog.abort_requested
    (Run.ticks env (n_check (world o)) (shared o)).1 = true ->
  (exists age label,
      Watchdog.abort_reason (Run.ticks env (n_check (world o)) (shared o)).1
      = Watchdog.heartbeat_msg (env_fmt0 env) age label) ->
  exists r o' age label,
    Run.exec_loop env (S fuel) o = (Ok r, o')
    /\ tr_success r = false
    /\ tr_error r = Watchdog.heartbeat_msg (env_fmt0 env) age label
    /\ StepNode.status <$> (StepGraph.nodes (graph o') !! i) = Some FAILED
    /\ StateMachine._state (state_machine o') = TaskState.FAILED
    /\ n_backend (world o') = n_backend (world o)
    /\ backend_log (world o') = backend_log (world o).
Proof.
  intros Hpend Hnode Hal Hab (age & label & Hre).
  destruct o as [sm rp wd rb ab g c w]. unfold shared in *.
  cbn [graph state_machine world watchdog _abort] in *.
  destruct (exec_ready_node_abort env i node sm rp wd rb ab g c w Hnode Hal)
    as (sm' & He & Hst); [by rewrite Hab, orb_true_r|].
  cbn [Run.exec_loop]. msimpl. rewrite Hpend. cbn [Run.exec_ready].
  msimpl. rewrite He. msimpl.
  rewrite Hre, truthy_heartbeat_msg.
  do 2 eexists. exists age, label. split; [reflexivity|].
  destruct (make_result_failure
              (StepGraph.update_node i
                 (StepNode.mark_failed (env_now env (n_clock w))
                                       "Watchdog abort") g)
              (StepGraph.task_name g) ""
              (Watchdog.heartbeat_msg (env_fmt0 env) age label)
              (truthy_heartbeat_msg _ _ _)) as (F1 & F2 & _).
  split; [exact F1|]. split; [exact F2|]. msimpl.
  repeat split; try done.
  unfold StepGraph.update_node. cbn [StepGraph.nodes].
  rewrite list_lookup_alter_eq, Hnode. done.
Qed.

End abort_facts.

Section watchdog_claims.
Import Orchestrator.

(** C7: when an iteration of the watchdog finds the heartbeat older than
    [HEARTBEAT_TIMEOUT_S] (the age it computes exceeds the timeout, both
    being floats), it raises [abort_requested], stores the heartbeat
    message as the reason and fires the alert callback, which raises the
    orchestrator's [_abort].  If that happens among the iterations made
    before a per-node check of [_exec_graph], the check marks the node
    failed, moves to FAILED and returns a failure whose error is a
    heartbeat-timeout message, without any backend call; so does any
    per-node check that finds the flag up with its heartbeat message.  If it
    happens while a step is executed (an iteration made between
    [step_started] and [step_finished] finds the heartbeat of
    [step_started] too old), the step is not interrupted and the flag is up
    when [_exec_node] ends, however it ends, so that the next per-node check
    halts the run.  The watchdog itself only writes its own fields and the
    callback's flag: state machine, graph, rollback stack, context and
    backend are untouched.  An iteration that finds no heartbeat timeout
    leaves both flags and the reason as they were, whatever it finds about
    processes, windows, CPU or memory. *)
Theorem heartbeat_timeout_halts_run env fuel o i rest node ps1 p ps2 :
  let iter := fun s q => Watchdog._run_iteration Run._on_watchdog_alert
                           (env_fmt0 env) q s in
  let s1 := foldl iter (watchdog o, _abort o) ps1 in
  StepGraph.pending_nodes (graph o) = i :: rest ->
  StepGraph.nodes (graph o) !! i = Some node ->
  allowed_b (StateMachine._state (state_machine o)) TaskState.FAILED = true ->
  Watchdog._has_alert_cb (watchdog o) = true ->
  Watchdog._running (watchdog o) = true ->
  env_watchdog env (n_check (world o)) = (ps1 ++ p :: ps2)%list ->
  (HEARTBEAT_TIMEOUT_S
   <? Watchdog.p_now p - Watchdog._last_heartbeat s1.1)%float = true ->
  (Watchdog.abort_requested (iter s1 p).1 = true
   /\ Watchdog.abort_reason (iter s1 p).1
      = Watchdog.heartbeat_msg (env_fmt0 env)
          (Watchdog.p_now p - Watchdog._last_heartbeat s1.1)%float
          (Watchdog._step_label s1.1)
   /\ (iter s1 p).2 = true)
  /\ (exists r o' age label,
        Run.exec_loop env (S fuel) o = (Ok r, o')
        /\ tr_success r = false
        /\ tr_error r = Watchdog.heartbeat_msg (env_fmt0 env) age label
        /\ StepNode.status <$> (StepGraph.nodes (graph o') !! i) = Some FAILED
        /\ StateMachine._state (state_machine o') = TaskState.FAILED
        /\ n_backend (world o') = n_backend (world o)
        /\ backend_log (world o') = backend_log (world o))
  /\ (forall j nd o1 q res o2,
        allowed_b (StateMachine._state (state_machine o1))
                  TaskState.EXECUTING = true ->
        Watchdog._running (watchdog o1) = true ->
        q ∈ env_watchdog env (S (n_check (world o1))) ->
        (HEARTBEAT_TIMEOUT_S
         <? Watchdog.p_now q
            - env_monotonic env (S (S (n_clock (world o1)))))%float = true ->
        Run._exec_node env j nd o1 = (res, o2) ->
        Watchdog.abort_requested (watchdog o2) = true
        /\ (exists age label,
               Watchdog.abort_reason (watchdog o2)
               = Watchdog.heartbeat_msg (env_fmt0 env) age label)
        /\ (Watchdog._has_alert_cb (watchdog o1) = true -> _abort o2 = true))
  /\ (forall fuel1 o1 j rest1 nd,
        StepGraph.pending_nodes (graph o1) = j :: rest1 ->
        StepGraph.nodes (graph o1) !! j = Some nd ->
        allowed_b (StateMachine._state (state_machine o1))
                  TaskState.FAILED = true ->
        Watchdog.abort_requested (watchdog o1) = true ->
        (exists age label,
            Watchdog.abort_reason (watchdog o1)
            = Watchdog.heartbeat_msg (env_fmt0 env) age label) ->
        exists r o' age label,
          Run.exec_loop env (S fuel1) o1 = (Ok r, o')
          /\ tr_success r = false
          /\ tr_error r = Watchdog.heartbeat_msg (env_fmt0 env) age label
          /\ StepNode.status <$> (StepGraph.nodes (graph o') !! j)
             = Some FAILED
          /\ StateMachine._state (state_machine o') = TaskState.FAILED
          /\ n_backend (world o') = n_backend (world o1)
          /\ backend_log (world o') = backend_log (world o1))
  /\ (forall o1, exists wd' ab',
        Run.watchdog_ran env o1
        = (Ok tt,
           mk (state_machine o1) (retry_policy o1) wd' (rollback_mgr o1) ab'
              (graph o1) (ctx o1)
              (mk_world (n_backend (world o1)) (n_verify (world o1))
                        (n_clock (world o1)) (S (n_check (world o1)))
                        (backend_log (world o1)))))
  /\ (forall q (s : Watchdog.t * bool),
        (HEARTBEAT_TIMEOUT_S
         <? Watchdog.p_now q - Watchdog._last_heartbeat s.1)%float = false ->
        Watchdog.abort_requested (iter s q).1 = Watchdog.abort_requested s.1
        /\ Watchdog.abort_reason (iter s q).1 = Watchdog.abort_reason s.1
        /\ (iter s q).2 = s.2).
Proof.
  intros iter s1 Hpend Hnode Hal Hcb Hrun Hps Hto.
  split; [|split; [|split; [|split; [|split]]]].
  - destruct (iteration_timeout env p s1 Hto) as (H1 & H2 & H3).
    split; [exact H1|]. split; [exact H2|]. apply H3.
    destruct (iterations_le env ps1 (watchdog o, _abort o)) as (Hc & _).
    unfold s1, iter. rewrite Hc. exact Hcb.
  - destruct (iterations_timeout env ps1 p ps2 (watchdog o, _abort o) Hto)
      as [Hab Hre].
    apply (exec_loop_halts env fuel o i rest node Hpend Hnode Hal);
      unfold Run.ticks, shared; cbn [fst]; rewrite Hrun, Hps; assumption.
  - intros j nd o1 q res o2. apply exec_node_hung.
  - intros fuel1 o1 j rest1 nd Hp1 Hn1 Hal1 Hreq1 Hex1.
    destruct (ticks_le env (n_check (world o1)) (shared o1))
      as (_ & _ & Hr & _ & _ & Hx).
    apply (exec_loop_halts env fuel1 o1 j rest1 nd Hp1 Hn1 Hal1).
    + by apply Hr.
    + by apply Hx; [intros _|apply Hr].
  - intros [sm1 rp1 wd1 rb1 ab1 g1 c1 w1]. do 2 eexists.
    apply watchdog_ran_frame.
  - intros q s Hq.
    destruct (iteration_alive env q s Hq) as (H1 & H2 & H3 & _). done.
Qed.

Lemma heartbeat_timeout_halts_run_witness :
  StepGraph.pending_nodes (graph example_planned) = [0]
  /\ (HEARTBEAT_TIMEOUT_S
      <? 100 - Watchdog._last_heartbeat (watchdog example_planned))%float = true
  /\ exists r o' age label,
       Run.exec_loop example_env_heartbeat_lost 4 example_planned = (Ok r, o')
       /\ tr_success r = false
       /\ tr_error r = Watchdog.heartbeat_msg (fun _ => "0") age label
       /\ StepNode.status <$> (StepGraph.nodes (graph o') !! 0) = Some FAILED
       /\ StateMachine._state (state_machine o') = TaskState.FAILED
       /\ n_backend (world o') = 0
       /\ backend_log (world o') = [].
Proof.
  split; [vm_compute; reflexivity|]. split; [vm_compute; reflexivity|].
  refine (proj1 (proj2 (heartbeat_timeout_halts_run example_env_heartbeat_lost 3
                   example_planned 0 []
                   (StepGraph.make_node "a1b2c3" 0 None
                      (mk_step "open_app" "firefox" "system"))
                   [] (Watchdog.mk_probe 100 (fun _ => true) false 0 0) []
                   _ _ _ _ _ _ _))).
  - vm_compute. reflexivity.
  - vm_compute. reflexivity.
  - vm_compute. reflexivity.
  - reflexivity.
  - reflexivity.
  - reflexivity.
  - vm_compute. reflexivity.
Defined.

(** A whole run in which the heartbeat is lost while the plan is made:
    no step is executed and the result carries the heartbeat message. *)
Lemma run_heartbeat_lost_example :
  let out := Run.run example_env_heartbeat_lost "open example.org" LIVE
               (init example_env_heartbeat_lost LIVE) in
  (tr_success <$> (match out.1 with Ok r => Some r | _ => None end)) = Some false
  /\ (tr_error <$> (match out.1 with Ok r => Some r | _ => None end))
     = Some "Heartbeat timeout: 0s since last pulse. Step: ''"
  /\ backend_log (world out.2) = []
  /\ StateMachine._state (state_machine out.2) = TaskState.INIT.
Proof. cbv zeta. repeat split; vm_compute; reflexivity. Qed.

(** A whole run whose first step hangs: the thread's iteration made while
    the step is executed reads the clock 21.5 s after the run began, more
    than the timeout after the heartbeat of [step_started].  The step is
    not interrupted and ends; the check before the second step halts the
    run with the heartbeat message, 1 of 3 steps done, and the first step
    is rolled back. *)
Lemma run_hung_step_example :
  let out := Run.run example_env_hung_step "open example.org" LIVE
               (init example_env_hung_step LIVE) in
  (tr_success <$> (match out.1 with Ok r => Some r | _ => None end)) = Some false
  /\ (tr_steps_done <$> (match out.1 with Ok r => Some r | _ => None end))
     = Some 1
  /\ (tr_error <$> (match out.1 with Ok r => Some r | _ => None end))
     = Some "Heartbeat timeout: 0s since last pulse. Step: '[1] open_app='firefox''"
  /\ Watchdog.abort_requested (watchdog out.2) = true
  /\ backend_log (world out.2)
     = [ (SystemB, mk_step "open_app" "firefox" "system");
         (SystemB, mk_step "close_window" "firefox" "system") ]
  /\ StateMachine._state (state_machine out.2) = TaskState.INIT.
Proof. cbv zeta. repeat split; vm_compute; reflexivity. Qed.

End watchdog_claims.

(** ** Further properties of [StepGraph] and [StepNode] *)

Section graph_properties.
Import StepGraph.

Lemma from_plan_Ok_built uuid set_order plan g :
  from_plan uuid set_order plan = Ok g -> g = built uuid plan.
Proof.
  unfold from_plan.
  destruct (plan_steps plan) eqn:Hs; [done|]. rewrite <- Hs.
  fold (built uuid plan).
  destruct (_validate _ _); [|done..]. by intros [= <-].
Qed.

(** X1: for a plan with at least one step, [from_plan] returns a graph that
    is not frozen, carries the plan's task name ("unknown" when missing) and
    has one PENDING node per step, in plan order: the node of step i
    (counting from 0) has seq_num i+1, the step's action, value and method
    (defaults "", "" and "auto"), no attempts, and depends on nothing when it
    is the first and exactly on the id of its predecessor otherwise. *)
Theorem from_plan_builds_chain uuid set_order plan :
  lists_elements set_order ->
  plan_steps plan <> [] ->
  exists g,
    from_plan uuid set_order plan = Ok g
    /\ task_name g = default "unknown" (plan_task plan)
    /\ _frozen g = false
    /\ length (nodes g) = length (plan_steps plan)
    /\ forall i step, plan_steps plan !! i = Some step ->
         exists n,
           nodes g !! i = Some n
           /\ StepNode.seq_num n = i + 1
           /\ StepNode.action n = dict_get step "action" ""
           /\ StepNode.value n = dict_get step "value" ""
           /\ StepNode.method n = dict_get step "method" "auto"
           /\ StepNode.status n = PENDING
           /\ StepNode.attempts n = 0
           /\ match i with
              | O => StepNode.depends_on n = []
              | S j => exists m, nodes g !! j = Some m
                                 /\ StepNode.depends_on n = [StepNode.step_id m]
              end.
Proof.
  intros Hord Hne. exists (built uuid plan).
  split; [by apply from_plan_built|].
  destruct (build_loop_meta uuid (plan_steps plan) 0 None
              (mk [] (default "unknown" (plan_task plan)) ∅ false)) as [Ht Hf].
  split; [exact Ht|]. split; [exact Hf|].
  rewrite built_nodes, chain_nodes_length. split; [done|].
  intros i step Hi.
  exists (make_node (uuid i) i (prev_of uuid i) step).
  split; [apply chain_nodes_lookup; eauto|].
  repeat (split; [reflexivity|]).
  destruct i as [|j]; [reflexivity|].
  assert (is_Some (plan_steps plan !! j)) as [sj Hj].
  { apply lookup_lt_is_Some. apply lookup_lt_Some in Hi. lia. }
  exists (make_node (uuid j) j (prev_of uuid j) sj).
  split; [apply chain_nodes_lookup; eauto|].
  rewrite make_node_deps, make_node_id. done.
Qed.

Lemma from_plan_builds_chain_witness :
  lists_elements elements
  /\ exists g,
       from_plan example_uuid elements example_plan3 = Ok g
       /\ task_name g = "open_and_browse"
       /\ _frozen g = false
       /\ length (nodes g) = 3
       /\ forall i step, plan_steps example_plan3 !! i = Some step ->
            exists n,
              nodes g !! i = Some n
              /\ StepNode.seq_num n = i + 1
              /\ StepNode.action n = dict_get step "action" ""
              /\ StepNode.value n = dict_get step "value" ""
              /\ StepNode.method n = dict_get step "method" "auto"
              /\ StepNode.status n = PENDING
              /\ StepNode.attempts n = 0
              /\ match i with
                 | O => StepNode.depends_on n = []
                 | S j => exists m, nodes g !! j = Some m
                                    /\ StepNode.depends_on n = [StepNode.step_id m]
                 end.
Proof.
  split; [apply elements_lists_elements|].
  apply (from_plan_builds_chain example_uuid elements example_plan3).
  - apply elements_lists_elements.
  - discriminate.
Defined.

(** X2: in a graph returned by [from_plan] the node ids are pairwise
    distinct and the index is the inverse of [step_id]: [get_node] of the id
    of a node returns that node, and [get_node] of a string that is the id
    of no node returns nothing. *)
Theorem from_plan_get_node_round_trip uuid set_order plan g :
  from_plan uuid set_order plan = Ok g ->
  NoDup (map StepNode.step_id (nodes g))
  /\ (forall n, n ∈ nodes g -> get_node g (StepNode.step_id n) = Some n)
  /\ (forall sid, (forall n, n ∈ nodes g -> StepNode.step_id n <> sid) ->
                  get_node g sid = None).
Proof.
  intros Hg. apply from_plan_Ok_built in Hg as ->.
  pose proof (built_index_ok uuid plan) as Hix.
  split; [|split].
  - apply NoDup_alt. intros i j sid Hi Hj.
    rewrite list_lookup_fmap in Hi, Hj.
    destruct (nodes (built uuid plan) !! i) as [n|] eqn:Hn; [|done].
    destruct (nodes (built uuid plan) !! j) as [m|] eqn:Hm; [|done].
    simpl in Hi, Hj. injection Hi as Hi. injection Hj as Hj.
    assert (_id_index (built uuid plan) !! sid = Some i) as H1
      by (apply Hix; eauto).
    assert (_id_index (built uuid plan) !! sid = Some j) as H2
      by (apply Hix; eauto).
    congruence.
  - intros n Hn. by apply index_ok_get_node.
  - intros sid Hno. destruct (get_node (built uuid plan) sid) as [n|] eqn:Hgn;
      [|done].
    apply index_ok_get_node in Hgn as [Hin Hid]; [|done].
    by destruct (Hno n Hin).
Qed.

Lemma from_plan_get_node_round_trip_witness :
  from_plan example_uuid elements example_plan3
  = Ok (built example_uuid example_plan3)
  /\ NoDup (map StepNode.step_id (nodes (built example_uuid example_plan3)))
  /\ (forall n, n ∈ nodes (built example_uuid example_plan3) ->
        get_node (built example_uuid example_plan3) (StepNode.step_id n) = Some n)
  /\ (forall sid,
        (forall n, n ∈ nodes (built example_uuid example_plan3) ->
                   StepNode.step_id n <> sid) ->
        get_node (built example_uuid example_plan3) sid = None).
Proof.
  assert (H : from_plan example_uuid elements example_plan3
              = Ok (built example_uuid example_plan3)).
  { apply from_plan_built; [apply elements_lists_elements|discriminate]. }
  split; [exact H|].
  exact (from_plan_get_node_round_trip example_uuid elements example_plan3
           (built example_uuid example_plan3) H).
Defined.

Lemma elem_of_positions_where {A} (f : nat -> A -> bool) (l : list A) :
  forall off i,
  i ∈ positions_where f off l
  <-> exists j x, i = off + j /\ l !! j = Some x /\ f i x = true.
Proof.
  induction l as [|x l IH]; intros off i; cbn [positions_where].
  - split; [by intros ?%elem_of_nil|]. by intros (j & y & _ & ? & _).
  - rewrite elem_of_app, IH. split.
    + intros [Hh|(j & y & -> & Hj & Hf)].
      * destruct (f off x) eqn:Hfx; [|by apply elem_of_nil in Hh].
        apply list_elem_of_singleton in Hh as ->.
        exists 0, x. rewrite Nat.add_0_r. done.
      * exists (S j), y. split; [lia|]. split; [done|].
        by replace (off + S j) with (S off + j) by lia.
    + intros (j & y & -> & Hj & Hf). destruct j as [|j].
      * left. injection Hj as <-. rewrite Nat.add_0_r in Hf. rewrite Hf.
        rewrite Nat.add_0_r. by apply list_elem_of_singleton.
      * right. exists j, y. split; [lia|]. split; [done|].
        by replace (S off + j) with (off + S j) by lia.
Qed.

Lemma chain_shape_get_node uuid plan g j :
  chain_shape uuid plan g -> j < length (nodes g) ->
  get_node g (node_id uuid j) = nodes g !! j.
Proof.
  intros (Hix & Hlen & _) Hj. unfold get_node. rewrite Hix.
  assert (_id_index (built uuid plan) !! node_id uuid j = Some j) as ->.
  { apply built_index. split; [lia|done]. }
  done.
Qed.

(** X3: in a graph with the structure [from_plan] built, whatever the
    statuses of its nodes, [pending_nodes] returns exactly the nodes that are
    PENDING and whose predecessor in the chain, if there is one, is done
    (SUCCESS or SKIPPED): no step is ready before its predecessor is done. *)
Theorem pending_nodes_wait_for_predecessor uuid plan g i :
  chain_shape uuid plan g ->
  (i ∈ pending_nodes g
   <-> exists n, nodes g !! i = Some n
         /\ StepNode.status n = PENDING
         /\ match i with
            | O => True
            | S j => exists m, nodes g !! j = Some m
                               /\ StepNode.is_done m = true
            end).
Proof.
  intros Hsh. pose proof Hsh as (Hix & Hlen & Hn).
  rewrite pending_nodes_positions, elem_of_positions_where.
  assert (Hdeps : forall n, nodes g !! i = Some n ->
            _deps_ok g n = match i with
                           | O => true
                           | S j => match nodes g !! j with
                                    | Some m => StepNode.is_done m
                                    | None => true
                                    end
                           end).
  { intros n Hi. destruct (Hn i n Hi) as (step & Hs & Hst).
    apply structure_deps in Hst as [Hd _]. unfold _deps_ok. rewrite Hd.
    rewrite make_node_deps. destruct i as [|j]; [done|]. cbn [forallb].
    rewrite (chain_shape_get_node uuid plan g j Hsh)
      by (apply lookup_lt_Some in Hi; lia).
    by rewrite andb_true_r. }
  split.
  - intros (j & n & -> & Hj & Hf). simpl in Hj, Hf. exists n.
    apply andb_true_iff in Hf as [Hp Hd]. apply bool_decide_eq_true in Hp.
    split; [done|]. split; [done|]. rewrite (Hdeps n Hj) in Hd.
    change (0 + j) with j in *.
    destruct j as [|j]; [done|].
    assert (is_Some (nodes g !! j)) as [m Hm].
    { apply lookup_lt_is_Some. apply lookup_lt_Some in Hj. lia. }
    rewrite Hm in Hd. eauto.
  - intros (n & Hi & Hp & Hd). exists i, n. split; [done|]. split; [done|].
    apply andb_true_iff. split; [by apply bool_decide_eq_true|].
    rewrite (Hdeps n Hi). destruct i as [|j]; [done|].
    destruct Hd as (m & -> & Hm). done.
Qed.

Lemma built_chain_shape uuid plan : chain_shape uuid plan (built uuid plan).
Proof.
  split; [done|]. rewrite built_nodes, chain_nodes_length. split; [done|].
  intros j n Hj. apply chain_nodes_lookup in Hj as (step & Hs & ->). eauto.
Qed.

Lemma pending_nodes_wait_for_predecessor_witness :
  chain_shape example_uuid example_plan3 (built example_uuid example_plan3)
  /\ (1 ∈ pending_nodes (built example_uuid example_plan3)
      <-> exists n, nodes (built example_uuid example_plan3) !! 1 = Some n
            /\ StepNode.status n = PENDING
            /\ exists m, nodes (built example_uuid example_plan3) !! 0 = Some m
                         /\ StepNode.is_done m = true).
Proof.
  split; [apply built_chain_shape|].
  apply (pending_nodes_wait_for_predecessor example_uuid example_plan3
           (built example_uuid example_plan3) 1).
  apply built_chain_shape.
Defined.

Lemma filter_length_forallb {A} (f : A -> bool) (l : list A) :
  length (List.filter f l) = length l <-> forallb f l = true.
Proof.
  induction l as [|x l IH]; [done|]. simpl.
  pose proof (List.filter_length_le f l) as Hle.
  destruct (f x); simpl; [rewrite <- IH; lia|].
  split; [lia|done].
Qed.

(** X4: [is_complete] holds exactly when [progress] reports as many done
    nodes as nodes; a complete graph has no ready node and no failed node. *)
Theorem complete_iff_progress_full g :
  (is_complete g = true <-> (progress g).1 = (progress g).2)
  /\ (is_complete g = true ->
      pending_nodes g = [] /\ has_failed g = false /\ failed_nodes g = []).
Proof.
  split.
  - unfold is_complete, progress. cbn [fst snd].
    by rewrite filter_length_forallb.
  - unfold is_complete. intros Hc.
    assert (Hall : forall n, n ∈ nodes g -> StepNode.is_done n = true).
    { intros n Hn. apply list_elem_of_In in Hn.
      by apply (proj1 (forallb_forall _ _) Hc). }
    split; [|split].
    + rewrite pending_nodes_positions. apply positions_where_none.
      intros j n Hj. apply list_elem_of_lookup_2 in Hj.
      specialize (Hall n Hj). unfold StepNode.is_done in Hall.
      apply andb_false_iff. left. apply bool_decide_eq_false. intros Hp.
      rewrite Hp in Hall. done.
    + unfold has_failed. apply not_true_is_false. intros H.
      apply existsb_exists in H as (n & Hn & Hf).
      apply bool_decide_eq_true in Hf. apply list_elem_of_In in Hn.
      specialize (Hall n Hn). unfold StepNode.is_done in Hall.
      rewrite Hf in Hall. done.
    + unfold failed_nodes.
      destruct (List.filter _ (nodes g)) as [|n rest] eqn:Hfl; [done|].
      assert (In n (List.filter
                      (fun n => bool_decide (StepNode.status n = FAILED))
                      (nodes g))) as Hin by (rewrite Hfl; by left).
      apply filter_In in Hin as [Hn Hf]. apply bool_decide_eq_true in Hf.
      apply list_elem_of_In in Hn. specialize (Hall n Hn).
      unfold StepNode.is_done in Hall. rewrite Hf in Hall. done.
Qed.

Lemma replan_scan_retrying sid ns :
  replan_scan sid true ns = map StepNode.reset_for_retry ns.
Proof.
  induction ns as [|n ns IH]; [done|]. cbn [replan_scan map].
  case_bool_decide; by rewrite IH.
Qed.

Lemma replan_loop_nodes sid ns : forall retrying i,
  (replan_loop sid retrying i ns).1 = replan_scan sid retrying ns.
Proof.
  induction ns as [|n ns IH]; intros retrying i; [done|].
  cbn [replan_loop replan_scan fst]. by rewrite IH.
Qed.

Lemma replan_loop_retrying sid ns : forall i,
  (replan_loop sid true i ns).2 = seq i (length ns).
Proof.
  induction ns as [|n ns IH]; intros i; [done|].
  cbn [replan_loop snd length seq]. case_bool_decide; by rewrite IH.
Qed.

Lemma replan_scan_split sid ns : forall i,
  exists before after,
    ns = (before ++ after)%list
    /\ replan_scan sid false ns
       = (before ++ map StepNode.reset_for_retry after)%list
    /\ (replan_loop sid false i ns).2
       = seq (i + length before) (length after)
    /\ Forall (fun n => StepNode.step_id n <> sid) before
    /\ match after with
       | [] => True
       | n :: _ => StepNode.step_id n = sid
       end.
Proof.
  induction ns as [|n ns IH]; intros i.
  - by exists [], [].
  - cbn [replan_scan replan_loop snd]. case_bool_decide as He.
    + exists [], (n :: ns). cbn [app map length seq].
      rewrite replan_scan_retrying, replan_loop_retrying, Nat.add_0_r. done.
    + destruct (IH (S i)) as (before & after & -> & Hr & Hl & Hb & Ha).
      exists (n :: before), after. cbn [app length]. rewrite Hr, Hl.
      split; [done|]. split; [done|].
      split; [f_equal; lia|]. split; [|done]. by constructor.
Qed.

(** X5: [replan_from] leaves the graph frozen, whatever it was before, and
    keeps the index, the task name and the number of nodes.  The nodes
    before the first node whose id is the given id are untouched; that node
    and all nodes after it are reset and are the nodes returned: status
    PENDING and error cleared, attempts and the fields fixed at construction
    kept.  With an id that no node has, no node changes and nothing is
    returned. *)
Theorem replan_from_resets_suffix g sid :
  _frozen (replan_from g sid) = true
  /\ _id_index (replan_from g sid) = _id_index g
  /\ task_name (replan_from g sid) = task_name g
  /\ length (nodes (replan_from g sid)) = length (nodes g)
  /\ (replan_loop sid false 0 (nodes g)).1 = nodes (replan_from g sid)
  /\ (exists before after,
        nodes g = (before ++ after)%list
        /\ nodes (replan_from g sid)
           = (before ++ map StepNode.reset_for_retry after)%list
        /\ (replan_loop sid false 0 (nodes g)).2
           = seq (length before) (length after)
        /\ Forall (fun n => StepNode.step_id n <> sid) before
        /\ match after with
           | [] => True
           | n :: _ => StepNode.step_id n = sid
           end)
  /\ ((forall n, n ∈ nodes g -> StepNode.step_id n <> sid) ->
      nodes (replan_from g sid) = nodes g
      /\ (replan_loop sid false 0 (nodes g)).2 = [])
  /\ (forall n, StepNode.status (StepNode.reset_for_retry n) = PENDING
                /\ StepNode.error (StepNode.reset_for_retry n) = ""
                /\ StepNode.attempts (StepNode.reset_for_retry n)
                   = StepNode.attempts n
                /\ StepNode.structure (StepNode.reset_for_retry n)
                   = StepNode.structure n).
Proof.
  unfold replan_from. cbn [_frozen _id_index task_name nodes].
  split; [done|]. split; [done|]. split; [done|].
  destruct (replan_scan_split sid (nodes g) 0)
    as (before & after & Hn & Hr & Hl & Hb & Ha).
  split; [|split; [|split; [|split; [|done]]]].
  - rewrite Hr, Hn, !length_app, length_map. done.
  - apply replan_loop_nodes.
  - exists before, after. done.
  - intros Hno. destruct after as [|n after].
    + rewrite Hr, Hl, Hn. done.
    + exfalso. apply (Hno n); [|done]. rewrite Hn. set_solver.
Qed.

(** X6: a node allows [max_retries] executions and no more: starting from
    a node that is not done, after [k] rounds of [mark_running],
    [mark_failed] and [reset_for_retry] the attempt counter has grown by
    [k], and [can_retry] holds exactly while the counter is below
    [max_retries]; a node that is done can never be retried. *)
Theorem can_retry_counts_attempts (nows : list datetime) (err : string)
    (n : StepNode.t) :
  StepNode.is_done n = false ->
  let n' := foldl (fun m now =>
                     StepNode.reset_for_retry
                       (StepNode.mark_failed now err
                          (StepNode.mark_running now m))) n nows in
  StepNode.attempts n' = StepNode.attempts n + length nows
  /\ StepNode.max_retries n' = StepNode.max_retries n
  /\ StepNode.can_retry n'
     = bool_decide (StepNode.attempts n + length nows < StepNode.max_retries n)
  /\ (forall now mu, StepNode.can_retry (StepNode.mark_success now mu n') = false).
Proof.
  intros Hnd. cbv zeta.
  assert (H : forall l m, StepNode.is_done m = false ->
            let m' := foldl (fun m now =>
                         StepNode.reset_for_retry
                           (StepNode.mark_failed now err
                              (StepNode.mark_running now m))) m l in
            StepNode.attempts m' = StepNode.attempts m + length l
            /\ StepNode.max_retries m' = StepNode.max_retries m
            /\ StepNode.is_done m' = false).
  { induction l as [|now l IH]; intros m Hm; cbv zeta; cbn [foldl length].
    - split; [lia|]. done.
    - destruct (IH (StepNode.reset_for_retry
                      (StepNode.mark_failed now err
                         (StepNode.mark_running now m)))) as (H1 & H2 & H3);
        [done|].
      cbv zeta in H1, H2, H3. rewrite H1, H2, H3.
      assert (StepNode.status m <> SUCCESS) as Hs.
      { intros Hs. unfold StepNode.is_done in Hm. by rewrite Hs in Hm. }
      unfold StepNode.mark_running. rewrite bool_decide_eq_false_2 by done.
      cbn. split; [lia|]. done. }
  destruct (H nows n Hnd) as (H1 & H2 & H3). cbv zeta in H1, H2, H3.
  split; [done|]. split; [done|]. split.
  2:{ intros now mu. unfold StepNode.can_retry.
      replace (StepNode.is_done (StepNode.mark_success now mu _)) with true
        by done.
      apply andb_false_r. }
  unfold StepNode.can_retry. rewrite H1, H2, H3, andb_true_r.
  destruct (Nat.ltb_spec (StepNode.attempts n + length nows)
              (StepNode.max_retries n));
    [by rewrite bool_decide_eq_true_2|by rewrite bool_decide_eq_false_2 by lia].
Qed.

Lemma can_retry_counts_attempts_witness :
  StepNode.is_done (make_node "a1b2c3" 1 None
                      (mk_step "navigate" "https://example.org" "browser"))
  = false
  /\ StepNode.can_retry
       (foldl (fun m now =>
                 StepNode.reset_for_retry
                   (StepNode.mark_failed now "timeout"
                      (StepNode.mark_running now m)))
              (make_node "a1b2c3" 1 None
                 (mk_step "navigate" "https://example.org" "browser"))
              [1%Z; 2%Z; 3%Z])
     = bool_decide (0 + 3 < 3).
Proof.
  split; [reflexivity|].
  exact (proj1 (proj2 (proj2
    (can_retry_counts_attempts [1%Z; 2%Z; 3%Z] "timeout"
       (make_node "a1b2c3" 1 None
          (mk_step "navigate" "https://example.org" "browser"))
       eq_refl)))).
Defined.

End graph_properties.

(** ** Further properties of [RetryPolicy] *)

Section retry_properties.
Import RetryPolicy.
Context {W : Type} (fn : step_dict -> W -> fn_outcome * W).

Lemma is_success_Some o r :
  is_success o = Some r -> o = Returned r /\ ActionResult.success r = true.
Proof.
  destruct o as [r'| |]; simpl; [|done..].
  unfold ActionResult.to_bool. destruct (ActionResult.success r') eqn:Hs; [|done].
  by intros [= <-].
Qed.

Lemma level1_Some n : forall step action m rp w r rp' w',
  level1 fn n step action m rp w = (Some r, rp', w') ->
  ActionResult.success r = true
  /\ exists w0, fn (<["method" := m]> step) w0 = (Returned r, w').
Proof.
  induction n as [|n IH]; intros step action m rp w r rp' w'; cbn [level1];
    [done|].
  destruct (fn (<["method" := m]> step) w) as [o w1] eqn:Hf.
  destruct (is_success o) as [r1|] eqn:Hs.
  - intros [= <- <- <-]. apply is_success_Some in Hs as [-> Hs]. eauto.
  - apply IH.
Qed.

Lemma level2_Some fbs : forall step action rp w r rp' w',
  level2 fn fbs step action rp w = (Some r, rp', w') ->
  ActionResult.success r = true
  /\ exists fb w0, fb ∈ fbs /\ fn (<["method" := fb]> step) w0 = (Returned r, w').
Proof.
  induction fbs as [|fb fbs IH]; intros step action rp w r rp' w';
    cbn [level2]; [done|].
  destruct (FAILURE_DEMOTION_THRESHOLD <=? fails rp action fb)%nat.
  - intros H. destruct (IH _ _ _ _ _ _ _ H) as (Hs & fb' & w0 & Hin & Hf).
    split; [done|]. exists fb', w0. split; [by right|done].
  - destruct (fn (<["method" := fb]> step) w) as [o w1] eqn:Hf.
    destruct (is_success o) as [r1|] eqn:Hs.
    + intros [= <- <- <-]. apply is_success_Some in Hs as [-> Hs].
      split; [done|]. exists fb, w. split; [by left|done].
    + intros H. destruct (IH _ _ _ _ _ _ _ H) as (Hs' & fb' & w0 & Hin & Hf').
      split; [done|]. exists fb', w0. split; [by right|done].
Qed.

(** X7: whatever the callable does, a result that [execute_with_retry]
    returns is a successful [ActionResult] that the callable itself
    returned, in the call it made last, for the step with some method put
    in; the policy never makes up a success. *)
Theorem execute_with_retry_returns_a_real_success step rp w r rp' w' :
  execute_with_retry fn step rp w = (Some r, rp', w') ->
  ActionResult.success r = true
  /\ exists m w0, fn (<["method" := m]> step) w0 = (Returned r, w').
Proof.
  unfold execute_with_retry.
  destruct (level1 fn _ step _ _ rp w) as [[[r1|] rp1] w1] eqn:H1.
  - intros [= <- <- <-]. apply level1_Some in H1 as [Hs [w0 Hf]]. eauto.
  - destruct (level2 fn _ step _ rp1 w1) as [[[r2|] rp2] w2] eqn:H2.
    + intros [= <- <- <-].
      apply level2_Some in H2 as (Hs & fb & w0 & _ & Hf). eauto.
    + case_bool_decide; [|done].
      destruct (fn (<["method" := "system"]> step) w2) as [o w3] eqn:Hf.
      intros [= Hs <- <-]. apply is_success_Some in Hs as [-> Hs]. eauto.
Qed.

Lemma spy_eq d w (log : list step_dict) :
  spy fn d (w, log) = ((fn d w).1, ((fn d w).2, (log ++ [d])%list)).
Proof. unfold spy. cbn [fst snd]. by destruct (fn d w). Qed.

Lemma level1_spy_bound n : forall step action m rp w log,
  exists calls,
    (level1 (spy fn) n step action m rp (w, log)).2.2 = (log ++ calls)%list
    /\ length calls <= n
    /\ Forall (fun d => exists x, d = <["method" := x]> step) calls
    /\ config (level1 (spy fn) n step action m rp (w, log)).1.2 = config rp.
Proof.
  induction n as [|n IH]; intros step action m rp w log; cbn [level1].
  - exists []. cbn. rewrite app_nil_r. repeat split; [lia|constructor].
  - rewrite !spy_eq.
    destruct (fn (<["method" := m]> step) w) as [o w1]. cbn [fst snd].
    destruct (is_success o) as [r|].
    + exists [<["method" := m]> step]. cbn. split; [done|]. split; [lia|].
      split; [|done]. repeat constructor. eauto.
    + destruct (IH step action m (_record_failure action m rp) w1
                  (log ++ [<["method" := m]> step])%list)
        as (calls & Hl & Hn & Hc & Hcfg).
      exists (<["method" := m]> step :: calls). rewrite Hl, Hcfg.
      split; [by rewrite <- app_assoc|]. split; [simpl; lia|].
      split; [|done]. constructor; [eauto|done].
Qed.

Lemma level2_spy_bound fbs : forall step action rp w log,
  exists calls,
    (level2 (spy fn) fbs step action rp (w, log)).2.2 = (log ++ calls)%list
    /\ length calls <= length fbs
    /\ Forall (fun d => exists x, d = <["method" := x]> step) calls
    /\ config (level2 (spy fn) fbs step action rp (w, log)).1.2 = config rp.
Proof.
  induction fbs as [|fb fbs IH]; intros step action rp w log; cbn [level2].
  - exists []. cbn. rewrite app_nil_r. repeat split; [lia|constructor].
  - destruct (FAILURE_DEMOTION_THRESHOLD <=? fails rp action fb)%nat.
    + destruct (IH step action rp w log) as (calls & Hl & Hn & Hc & Hcfg).
      exists calls. split; [done|]. split; [simpl; lia|]. done.
    + rewrite !spy_eq.
      destruct (fn (<["method" := fb]> step) w) as [o w1]. cbn [fst snd].
      destruct (is_success o) as [r|].
      * exists [<["method" := fb]> step]. cbn. split; [done|]. split; [lia|].
        split; [|done]. repeat constructor. eauto.
      * destruct (IH step action (_record_failure action fb rp) w1
                    (log ++ [<["method" := fb]> step])%list)
          as (calls & Hl & Hn & Hc & Hcfg).
        exists (<["method" := fb]> step :: calls). rewrite Hl, Hcfg.
        split; [by rewrite <- app_assoc|]. split; [simpl; lia|].
        split; [|done]. constructor; [eauto|done].
Qed.

(** X8: whatever the callable does, [execute_with_retry] calls it at most
    [max_attempts] times with the step's own method, once per entry of the
    action's static priority list, and once more as a last resort; every
    call passes the step with only the method replaced, and the retry
    configuration is not changed. *)
Theorem execute_with_retry_call_bound step rp w :
  let out := execute_with_retry (spy fn) step rp (w, []) in
  length out.2.2
    <= max_attempts (config rp)
       + length (baseline (dict_get step "action" "unknown")) + 1
  /\ Forall (fun d => exists x, d = <["method" := x]> step) out.2.2
  /\ config out.1.2 = config rp.
Proof.
  cbv zeta. unfold execute_with_retry.
  set (action := dict_get step "action" "unknown").
  set (m := dict_get step "method" "accessibility").
  destruct (level1_spy_bound (max_attempts (config rp)) step action m rp w [])
    as (c1 & Hl1 & Hn1 & Hc1 & Hcfg1).
  destruct (level1 (spy fn) _ step action m rp (w, []))
    as [[[r1|] rp1] [w1 log1]]; cbn [fst snd app] in *.
  - subst log1. split; [lia|]. done.
  - destruct (level2_spy_bound (get_fallback_chain rp1 action m) step action
                rp1 w1 log1) as (c2 & Hl2 & Hn2 & Hc2 & Hcfg2).
    assert (length (get_fallback_chain rp1 action m) <= length (baseline action))
      as Hlen.
    { rewrite (Permutation_length (fallback_chain_perm rp1 action m)).
      apply length_filter. }
    destruct (level2 (spy fn) _ step action rp1 (w1, log1))
      as [[[r2|] rp2] [w2 log2]]; cbn [fst snd] in *.
    + subst. rewrite length_app. split; [lia|]. split; [|congruence].
      by apply Forall_app.
    + case_bool_decide.
      * rewrite !spy_eq.
        destruct (fn (<["method" := "system"]> step) w2) as [o w3].
        cbn [fst snd]. subst. rewrite !length_app. cbn [length].
        split; [lia|]. split; [|congruence].
        repeat (apply Forall_app; split); try done.
        repeat constructor. eauto.
      * cbn [fst snd]. subst. rewrite length_app. split; [lia|].
        split; [|congruence]. by apply Forall_app.
Qed.

Lemma sort_by_const {A} (key : A -> nat) (c : nat) (l : list A) :
  Forall (fun a => key a = c) l -> sort_by key l = l.
Proof.
  induction 1 as [|x l Hx Hl IH]; [done|]. cbn [sort_by foldr].
  fold (sort_by key l). rewrite IH. destruct l as [|y l]; [done|].
  cbn [insert_by]. apply Forall_cons in Hl as [Hy _].
  by rewrite Hx, Hy, Nat.leb_refl.
Qed.

(** X9: after [reset_session] every failure count is zero and the
    fallback chain is the static priority list of the action (the default
    list for an unknown action) without the failed method, in the static
    order; the configuration is kept. *)
Theorem reset_session_restores_static_chain rp action m :
  (forall a x, fails (reset_session rp) a x = 0)
  /\ get_fallback_chain (reset_session rp) action m
     = filter (fun x => x <> m) (baseline action)
  /\ config (reset_session rp) = config rp.
Proof.
  assert (H0 : forall a x, fails (reset_session rp) a x = 0).
  { intros a x. unfold fails, reset_session. cbn. by rewrite lookup_empty. }
  split; [exact H0|]. split; [|done].
  unfold get_fallback_chain. apply (sort_by_const _ 0).
  apply Forall_forall. intros x _. apply H0.
Qed.

End retry_properties.

Section retry_accounting.
Import RetryPolicy.
Context {W : Type} (fn : step_dict -> W -> fn_outcome * W).
Hypothesis always_fails : forall d w0, is_success (fn d w0).1 = None.

Lemma fails_record_eq action m rp :
  fails (_record_failure action m rp) action m = fails rp action m + 1.
Proof. unfold fails, _record_failure. cbn. by rewrite lookup_insert_eq. Qed.

Lemma level1_counts n : forall step action m rp w,
  exists rp' w',
    level1 fn n step action m rp w = (None, rp', w')
    /\ fails rp' action m = fails rp action m + n
    /\ (forall x, x <> m -> fails rp' action x = fails rp action x).
Proof.
  induction n as [|n IH]; intros step action m rp w; cbn [level1].
  - exists rp, w. split; [done|]. split; [lia|done].
  - pose proof (always_fails (<["method" := m]> step) w) as Hf.
    destruct (fn (<["method" := m]> step) w) as [o w1]. cbn in Hf. rewrite Hf.
    destruct (IH step action m (_record_failure action m rp) w1)
      as (rp' & w' & He & Hm & Hx).
    exists rp', w'. split; [done|]. split.
    + rewrite Hm, fails_record_eq. lia.
    + intros x Hne. rewrite (Hx x Hne). by apply fails_record_ne.
Qed.

Lemma level2_counts fbs : forall step action rp w,
  NoDup fbs ->
  exists rp' w',
    level2 fn fbs step action rp w = (None, rp', w')
    /\ forall x, fails rp' action x
                 = fails rp action x
                   + (if bool_decide (x ∈ fbs /\ fails rp action x < 3)
                      then 1 else 0).
Proof.
  induction fbs as [|fb fbs IH]; intros step action rp w Hnd; cbn [level2].
  - exists rp, w. split; [done|]. intros x.
    rewrite bool_decide_eq_false_2; [lia|]. intros [H _]. by apply elem_of_nil in H.
  - apply NoDup_cons in Hnd as [Hnin Hnd]. unfold FAILURE_DEMOTION_THRESHOLD.
    destruct (3 <=? fails rp action fb)%nat eqn:Hle.
    + apply Nat.leb_le in Hle.
      destruct (IH step action rp w Hnd) as (rp' & w' & He & Hc).
      exists rp', w'. split; [done|]. intros x. rewrite Hc.
      rewrite (bool_decide_ext (x ∈ fb :: fbs /\ fails rp action x < 3)
                               (x ∈ fbs /\ fails rp action x < 3)); [done|].
      rewrite elem_of_cons.
      split; [|tauto]. intros [[->|?] ?]; [lia|tauto].
    + apply Nat.leb_gt in Hle.
      pose proof (always_fails (<["method" := fb]> step) w) as Hf.
      destruct (fn (<["method" := fb]> step) w) as [o w1]. cbn in Hf.
      rewrite Hf.
      destruct (IH step action (_record_failure action fb rp) w1 Hnd)
        as (rp' & w' & He & Hc).
      exists rp', w'. split; [done|]. intros x. rewrite Hc.
      destruct (decide (x = fb)) as [->|Hne].
      * rewrite fails_record_eq.
        rewrite (bool_decide_eq_false_2 (fb ∈ fbs /\ _)) by tauto.
        rewrite bool_decide_eq_true_2; [lia|]. split; [by left|lia].
      * rewrite fails_record_ne by done.
        rewrite (bool_decide_ext (x ∈ fb :: fbs /\ fails rp action x < 3)
                                 (x ∈ fbs /\ fails rp action x < 3)); [done|].
        rewrite elem_of_cons. tauto.
Qed.

(** X10: when every call of the callable fails, [execute_with_retry]
    returns nothing and the failure counts of the action have grown by
    [max_attempts] for the step's own method and by one for every fallback
    of the static list that was not already at the demotion threshold; the
    counts of all other methods, among them the demoted ones, are unchanged
    (the last-resort call is not counted). *)
Theorem exhausted_retries_are_counted step rp w :
  let action := dict_get step "action" "unknown" in
  let m := dict_get step "method" "accessibility" in
  exists rp' w',
    execute_with_retry fn step rp w = (None, rp', w')
    /\ fails rp' action m = fails rp action m + max_attempts (config rp)
    /\ forall x, x <> m ->
         fails rp' action x
         = fails rp action x
           + (if bool_decide (x ∈ baseline action /\ fails rp action x < 3)
              then 1 else 0).
Proof.
  intros action m. unfold execute_with_retry. fold action. fold m.
  destruct (level1_counts (max_attempts (config rp)) step action m rp w)
    as (rp1 & w1 & H1 & Hm1 & Hx1).
  rewrite H1.
  destruct (level2_counts (get_fallback_chain rp1 action m) step action rp1 w1
              (fallback_chain_NoDup rp1 action m)) as (rp2 & w2 & H2 & Hc2).
  rewrite H2.
  assert (Hres : exists w',
    (if bool_decide (action ∈ single_method_actions)
     then let '(o, w3) := fn (<["method" := "system"]> step) w2 in
          (is_success o, rp2, w3)
     else (None, rp2, w2)) = (None, rp2, w')).
  { case_bool_decide; [|eauto].
    pose proof (always_fails (<["method" := "system"]> step) w2) as Hf.
    destruct (fn (<["method" := "system"]> step) w2) as [o w3]. cbn in Hf.
    rewrite Hf. eauto. }
  destruct Hres as [w' ->]. exists rp2, w'. split; [done|]. split.
  - rewrite Hc2, Hm1. rewrite bool_decide_eq_false_2; [lia|].
    intros [Hin _]. by apply fallback_chain_not_current in Hin.
  - intros x Hne. rewrite Hc2, (Hx1 x Hne).
    rewrite (bool_decide_ext
               (x ∈ get_fallback_chain rp1 action m /\ fails rp action x < 3)
               (x ∈ baseline action /\ fails rp action x < 3)); [done|].
    rewrite (fallback_chain_perm rp1 action m), list_elem_of_filter. tauto.
Qed.

End retry_accounting.

Section retry_witnesses.
Import RetryPolicy.

Lemma execute_with_retry_returns_a_real_success_witness :
  exists r rp' w',
    execute_with_retry example_cv_only_fn example_click_step example_policy 0
    = (Some r, rp', w')
    /\ ActionResult.success r = true
    /\ exists m w0,
         example_cv_only_fn (<["method" := m]> example_click_step) w0
         = (Returned r, w').
Proof.
  eexists _, _, _. split; [vm_compute; reflexivity|].
  refine (execute_with_retry_returns_a_real_success example_cv_only_fn
            example_click_step example_policy 0 _ _ _ _).
  vm_compute. reflexivity.
Defined.

Lemma exhausted_retries_are_counted_witness :
  (forall d w0, is_success (example_denied_fn d w0).1 = None)
  /\ exists rp' w',
       execute_with_retry example_denied_fn example_click_step example_policy tt
       = (None, rp', w')
       /\ fails rp' "click_button" "accessibility" = 0 + 3
       /\ forall x, x <> "accessibility" ->
            fails rp' "click_button" x
            = fails example_policy "click_button" x
              + (if bool_decide (x ∈ baseline "click_button"
                                 /\ fails example_policy "click_button" x < 3)
                 then 1 else 0).
Proof.
  split; [done|].
  exact (exhausted_retries_are_counted example_denied_fn (fun _ _ => eq_refl)
           example_click_step example_policy tt).
Defined.

End retry_witnesses.

(** ** Further properties of the error classifier and of [ActionResult] *)

Section classifier_properties.

(** X11: a classified error allows as many retries as its budget and no
    more: after [k] calls of [consume_retry], [should_retry] holds exactly
    when [k] is below the budget, the budget never drops below zero, and
    class, message and strategy are untouched.  For the result of
    [classify] the budget is the entry of [RETRY_BUDGET] for its class. *)
Theorem consume_retry_counts_down (k : nat) (e : ClassifiedError.t) :
  ClassifiedError.should_retry (Nat.iter k ClassifiedError.consume_retry e)
  = bool_decide (k < ClassifiedError.retry_budget e)
  /\ ClassifiedError.retry_budget (Nat.iter k ClassifiedError.consume_retry e)
     = ClassifiedError.retry_budget e - k
  /\ ClassifiedError.error_class (Nat.iter k ClassifiedError.consume_retry e)
     = ClassifiedError.error_class e
  /\ ClassifiedError.original_msg (Nat.iter k ClassifiedError.consume_retry e)
     = ClassifiedError.original_msg e
  /\ ClassifiedError.strategy (Nat.iter k ClassifiedError.consume_retry e)
     = ClassifiedError.strategy e
  /\ (forall re_search str_lower msg action method,
        ClassifiedError.should_retry
          (Nat.iter k ClassifiedError.consume_retry
             (ErrorClassifier.classify re_search str_lower msg action method))
        = bool_decide
            (k < RETRY_BUDGET
                   (ClassifiedError.error_class
                      (ErrorClassifier.classify re_search str_lower msg action
                                                method)))).
Proof.
  assert (H : forall e0,
    ClassifiedError.retry_budget (Nat.iter k ClassifiedError.consume_retry e0)
    = ClassifiedError.retry_budget e0 - k
    /\ ClassifiedError.error_class (Nat.iter k ClassifiedError.consume_retry e0)
       = ClassifiedError.error_class e0
    /\ ClassifiedError.original_msg (Nat.iter k ClassifiedError.consume_retry e0)
       = ClassifiedError.original_msg e0
    /\ ClassifiedError.strategy (Nat.iter k ClassifiedError.consume_retry e0)
       = ClassifiedError.strategy e0).
  { induction k as [|k IH]; intros e0.
    - cbn. split; [lia|done].
    - rewrite !Nat.iter_succ. destruct (IH e0) as (H1 & H2 & H3 & H4).
      set (e1 := Nat.iter k ClassifiedError.consume_retry e0) in *.
      unfold ClassifiedError.consume_retry.
      cbn [ClassifiedError.retry_budget ClassifiedError.error_class
           ClassifiedError.original_msg ClassifiedError.strategy].
      rewrite H1, H2, H3, H4. split; [lia|done]. }
  assert (Hs : forall e0,
    ClassifiedError.should_retry (Nat.iter k ClassifiedError.consume_retry e0)
    = bool_decide (k < ClassifiedError.retry_budget e0)).
  { intros e0. unfold ClassifiedError.should_retry.
    destruct (H e0) as (-> & _).
    destruct (Nat.ltb_spec 0 (ClassifiedError.retry_budget e0 - k));
      [rewrite bool_decide_eq_true_2 by lia|
       rewrite bool_decide_eq_false_2 by lia]; done. }
  destruct (H e) as (H1 & H2 & H3 & H4).
  split; [apply Hs|]. repeat (split; [done|]).
  intros re_search str_lower msg action method. by rewrite Hs.
Qed.

Lemma first_match_prefix re_search pats1 p c pats2 msg :
  Forall (fun q => re_search q.1 msg = false) pats1 ->
  re_search p msg = true ->
  ErrorClassifier.first_match re_search (pats1 ++ (p, c) :: pats2) msg = c.
Proof.
  induction 1 as [|[q c'] pats1 Hq _ IH]; intros Hp; cbn.
  - by rewrite Hp.
  - cbn in Hq. rewrite Hq. by apply IH.
Qed.

Lemma first_match_none re_search pats msg :
  Forall (fun q => re_search q.1 msg = false) pats ->
  ErrorClassifier.first_match re_search pats msg = UNKNOWN.
Proof.
  induction 1 as [|[q c'] pats Hq _ IH]; cbn; [done|].
  cbn in Hq. by rewrite Hq.
Qed.

(** X12: [classify] gives the class of the first pattern of [_PATTERNS]
    that matches the lower-cased message, whatever the action and the
    method are; only when no pattern matches does the context decide (the
    method first, then the action).  The original message is kept as given,
    and strategy and budget are the table entries of the class. *)
Theorem classify_first_pattern_wins re_search str_lower msg action method :
  (forall pats1 p c pats2,
      ErrorClassifier._PATTERNS = (pats1 ++ (p, c) :: pats2)%list ->
      Forall (fun q => re_search q.1 (str_lower msg) = false) pats1 ->
      re_search p (str_lower msg) = true ->
      ClassifiedError.error_class
        (ErrorClassifier.classify re_search str_lower msg action method) = c)
  /\ (Forall (fun q => re_search q.1 (str_lower msg) = false)
             ErrorClassifier._PATTERNS ->
      ClassifiedError.error_class
        (ErrorClassifier.classify re_search str_lower msg action method)
      = ErrorClassifier._contextual_classify action method (str_lower msg))
  /\ ClassifiedError.original_msg
       (ErrorClassifier.classify re_search str_lower msg action method) = msg
  /\ ClassifiedError.strategy
       (ErrorClassifier.classify re_search str_lower msg action method)
     = RECOVERY_STRATEGY
         (ClassifiedError.error_class
            (ErrorClassifier.classify re_search str_lower msg action method))
  /\ ClassifiedError.retry_budget
       (ErrorClassifier.classify re_search str_lower msg action method)
     = RETRY_BUDGET
         (ClassifiedError.error_class
            (ErrorClassifier.classify re_search str_lower msg action method)).
Proof.
  split; [|split; [|done]].
  - intros pats1 p c pats2 Hpats Hno Hp.
    unfold ErrorClassifier.classify, ErrorClassifier._match_patterns.
    cbn [ClassifiedError.error_class]. rewrite Hpats.
    rewrite (first_match_prefix re_search pats1 p c pats2 _ Hno Hp).
    assert (c <> UNKNOWN) as Hc.
    { assert (Forall (fun q => q.2 <> UNKNOWN) ErrorClassifier._PATTERNS) as Hall
        by (repeat constructor; done).
      rewrite Hpats in Hall. apply Forall_app in Hall as [_ Hall].
      by apply Forall_cons in Hall as [Hall _]. }
    by rewrite bool_decide_eq_false_2.
  - intros Hno.
    unfold ErrorClassifier.classify, ErrorClassifier._match_patterns.
    cbn [ClassifiedError.error_class].
    rewrite (first_match_none re_search _ _ Hno).
    by rewrite bool_decide_eq_true_2.
Qed.

Lemma classify_first_pattern_wins_witness :
  example_re_search_refused
    "connection refused|network.*error|dns.*fail|http.*error [45]\d\d|ssl.*error|name.*resolution"
    "connection refused by browser" = true
  /\ ClassifiedError.error_class
       (ErrorClassifier.classify example_re_search_refused id
          "connection refused by browser" "navigate" "accessibility")
     = BROWSER_CRASH.
Proof.
  split; [reflexivity|].
  refine (proj1 (classify_first_pattern_wins example_re_search_refused id
                   "connection refused by browser" "navigate" "accessibility")
            (firstn 5 ErrorClassifier._PATTERNS) _ BROWSER_CRASH
            (skipn 6 ErrorClassifier._PATTERNS) eq_refl _ eq_refl).
  repeat constructor.
Defined.

(** X13: [get_fallback_method] never suggests the method that just failed,
    and following its suggestions from any method and for any error class
    ends after at most three suggestions: the fourth lookup finds nothing,
    so the suggestions cannot loop. *)
Theorem get_fallback_method_terminates (c : ErrorClass) (m : string) :
  get_fallback_method c m <> Some m
  /\ Nat.iter 4 (fun o => o ≫= get_fallback_method c) (Some m) = None
  /\ (forall m', get_fallback_method c m = Some m' ->
        m' ∈ ["cv"; "system"; "accessibility"; "browser"]).
Proof.
  unfold get_fallback_method.
  assert (Hknown : forall k, k ∈ ["accessibility"; "cv"; "browser"] ->
            table_get (fallback_map c) k <> Some k
            /\ Nat.iter 4 (fun o => o ≫= (fun x => table_get (fallback_map c) x))
                        (Some k) = None
            /\ forall m', table_get (fallback_map c) k = Some m' ->
                 m' ∈ ["cv"; "system"; "accessibility"; "browser"]).
  { intros k Hk. repeat (apply elem_of_cons in Hk as [->|Hk]);
      [| | |by apply elem_of_nil in Hk].
    all: destruct c; (split; [done|]); (split; [done|]); intros m'; cbn;
      try done; intros [= <-]; set_solver. }
  destruct (decide (m ∈ ["accessibility"; "cv"; "browser"])) as [Hin|Hnin];
    [by apply Hknown|].
  assert (table_get (fallback_map c) m = None) as Hn.
  { destruct c; cbn; unfold table_get; cbn; try done;
      repeat (rewrite bool_decide_eq_false_2 by set_solver); done. }
  split; [by rewrite Hn|]. split; [|by rewrite Hn].
  cbn. by rewrite Hn.
Qed.

(** X14: a result built by [ActionResult.fail] is a failure that always
    carries a recovery hint, so it needs recovery: a hint given by the
    caller is kept, otherwise the hint is the entry of the code in
    [_CODE_TO_HINT], which for the code of each error class is the strategy
    [RECOVERY_STRATEGY] gives that class, and "full_reset" for a code that
    is not in the table.  It is retryable unless its code is
    permission_denied or schema_invalid.  A result built by
    [ActionResult.ok] is truthy, needs no recovery and is not retryable. *)
Theorem fail_always_carries_a_hint action value method error code hint t :
  ActionResult.to_bool
    (ActionResult.fail action value method error code hint t) = false
  /\ needs_recovery (ActionResult.fail action value method error code hint t)
     = true
  /\ (hint <> "" ->
      ActionResult.recovery_hint
        (ActionResult.fail action value method error code hint t) = hint)
  /\ (forall c : ErrorClass,
        ActionResult.recovery_hint
          (ActionResult.fail action value method error (ErrorClass_value c) "" t)
        = RECOVERY_STRATEGY c)
  /\ ((forall c : ErrorClass, code <> ErrorClass_value c) ->
      ActionResult.recovery_hint
        (ActionResult.fail action value method error code "" t)
      = RHint.FULL_RESET)
  /\ ActionResult.is_retryable
       (ActionResult.fail action value method error code hint t)
     = negb (bool_decide (code ∈ ["permission_denied"; "schema_invalid"]))
  /\ ActionResult.to_bool (ActionResult.ok action value method t) = true
  /\ needs_recovery (ActionResult.ok action value method t) = false
  /\ ActionResult.is_retryable (ActionResult.ok action value method t) = false.
Proof.
  split; [done|]. split; [|split; [|split; [|split; [|split]]]]; try done.
  - unfold needs_recovery, ActionResult.fail.
    cbn [ActionResult.success ActionResult.recovery_hint negb andb].
    apply negb_true_iff, bool_decide_eq_false. unfold RHint.NONE.
    destruct (truthy hint) eqn:Hh.
    + unfold truthy in Hh. apply negb_true_iff, bool_decide_eq_false in Hh. done.
    + unfold table_get, _CODE_TO_HINT. cbn.
      repeat (case_bool_decide; [done|]). done.
  - intros Hh. unfold ActionResult.fail. cbn.
    unfold truthy. by rewrite bool_decide_eq_false_2.
  - by intros [].
  - intros Hno. unfold ActionResult.fail. cbn.
    unfold table_get, _CODE_TO_HINT. cbn.
    pose proof (Hno ELEMENT_NOT_FOUND). pose proof (Hno WINDOW_NOT_OPEN).
    pose proof (Hno TIMEOUT). pose proof (Hno PROCESS_DEAD).
    pose proof (Hno PERMISSION_DENIED). pose proof (Hno BROWSER_CRASH).
    pose proof (Hno NETWORK_ERROR). pose proof (Hno SCHEMA_INVALID).
    pose proof (Hno ACCESSIBILITY_FAIL). pose proof (Hno CV_NO_MATCH).
    pose proof (Hno COMMAND_FAILED). pose proof (Hno UNKNOWN).
    repeat (rewrite bool_decide_eq_false_2 by done). done.
  - unfold ActionResult.is_retryable, ActionResult.fail. cbn.
    unfold ECode.PERMISSION_DENIED, ECode.SCHEMA_INVALID.
    f_equal. repeat case_bool_decide; set_solver.
Qed.

End classifier_properties.

(** ** Further properties of [StateMachine] *)

Section state_machine_properties.

Lemma transition_spec now s n a tot sm :
  StateMachine.transition now s n a tot sm
  = if allowed_b (StateMachine._state sm) s
    then Ok (StateMachine._apply now s n a tot sm)
    else Raise (IllegalTransitionError
                  (TaskState.value (StateMachine._state sm))
                  (TaskState.value s)).
Proof.
  unfold StateMachine.transition, StateMachine._validate, allowed_b.
  destruct (bool_decide (s ∈ ALLOWED (StateMachine._state sm))); [|done].
  cbn [negb andb].
  destruct (bool_decide (StateMachine._state sm ∈ TERMINAL_STATES)); [|done].
  cbn [negb andb orb]. by destruct (bool_decide (s = TaskState.INIT)).
Qed.

Lemma chained_snoc a h e b :
  chained a (h ++ [e]) b
  <-> chained a h (StateMachine.h_from e) /\ StateMachine.h_to e = b.
Proof.
  revert a. induction h as [|x h IH]; intros a; cbn.
  - split; [intros (<- & <-)|intros (-> & <-)]; done.
  - rewrite IH. tauto.
Qed.

Lemma apply_history now s n a tot sm :
  StateMachine._history (StateMachine._apply now s n a tot sm)
  = (StateMachine._history sm
     ++ [StateMachine.mk_entry (TaskState.value (StateMachine._state sm))
                               (TaskState.value s) n a now])%list.
Proof. unfold StateMachine._apply. by case_bool_decide. Qed.

(** X15: the history of a state machine is a gap-free audit trail.  After
    any sequence of [transition] and [force_reset] calls on a fresh machine
    (a [transition] that raises changes nothing), the history has exactly
    one entry per call that succeeded, the entries lead from "INIT" to the
    current state with each entry starting where the one before it ended,
    and a machine in INIT has no current step, task name or start time. *)
Theorem history_is_a_gap_free_trail (calls : list sm_call) :
  let sm := foldl after_call StateMachine.init calls in
  chained "INIT" (StateMachine._history sm)
          (TaskState.value (StateMachine._state sm))
  /\ length (StateMachine._history sm)
     = count_successes StateMachine.init calls
  /\ (StateMachine._state sm = TaskState.INIT ->
      StateMachine._step sm = None /\ StateMachine.task_name sm = ""
      /\ StateMachine._task_start sm = None).
Proof.
  cbv zeta.
  assert (H : forall l sm0,
    chained "INIT" (StateMachine._history sm0)
            (TaskState.value (StateMachine._state sm0)) ->
    (StateMachine._state sm0 = TaskState.INIT ->
     StateMachine._step sm0 = None /\ StateMachine.task_name sm0 = ""
     /\ StateMachine._task_start sm0 = None) ->
    chained "INIT" (StateMachine._history (foldl after_call sm0 l))
            (TaskState.value (StateMachine._state (foldl after_call sm0 l)))
    /\ length (StateMachine._history (foldl after_call sm0 l))
       = length (StateMachine._history sm0) + count_successes sm0 l
    /\ (StateMachine._state (foldl after_call sm0 l) = TaskState.INIT ->
        StateMachine._step (foldl after_call sm0 l) = None
        /\ StateMachine.task_name (foldl after_call sm0 l) = ""
        /\ StateMachine._task_start (foldl after_call sm0 l) = None)).
  { induction l as [|c l IH]; intros sm0 Hch Hin; cbn [foldl count_successes].
    - split; [done|]. split; [lia|done].
    - assert (chained "INIT" (StateMachine._history (after_call sm0 c))
                (TaskState.value (StateMachine._state (after_call sm0 c)))
              /\ length (StateMachine._history (after_call sm0 c))
                 = length (StateMachine._history sm0)
                   + (if call_succeeds sm0 c then 1 else 0)
              /\ (StateMachine._state (after_call sm0 c) = TaskState.INIT ->
                  StateMachine._step (after_call sm0 c) = None
                  /\ StateMachine.task_name (after_call sm0 c) = ""
                  /\ StateMachine._task_start (after_call sm0 c) = None))
        as (H1 & H2 & H3).
      { destruct c as [now s n a tot|now]; cbn [after_call call_succeeds].
        - rewrite transition_spec.
          destruct (allowed_b (StateMachine._state sm0) s).
          + rewrite apply_history, sm_apply_state, length_app. cbn [length].
            split; [by apply chained_snoc|]. split; [done|].
            intros Hs. unfold StateMachine._apply. subst s.
            by rewrite (bool_decide_eq_true_2 (TaskState.INIT = TaskState.INIT)).
          + split; [done|]. split; [lia|done].
        - unfold StateMachine.force_reset.
          cbn [StateMachine._history StateMachine._state StateMachine._step
               StateMachine.task_name StateMachine._task_start].
          rewrite length_app. cbn [length].
          split; [by apply chained_snoc|]. done. }
      destruct (IH (after_call sm0 c) H1 H3) as (G1 & G2 & G3).
      split; [done|]. split; [lia|done]. }
  destruct (H calls StateMachine.init) as (G1 & G2 & G3); [done..|].
  split; [done|]. split; [|done]. rewrite G2. done.
Qed.

Lemma need_step s x :
  allowed_b s x = true ->
  forall y, y ∈ needed_before_success s ->
            y = x \/ y ∈ needed_before_success x.
Proof.
  destruct s, x; cbn; try discriminate; intros _ y Hy;
    repeat (apply elem_of_cons in Hy as [->|Hy]);
    try (by apply elem_of_nil in Hy);
    first [by left | right; set_solver].
Qed.

Lemma run_transitions_needs l : forall sm sm',
  run_transitions sm l = Ok sm' ->
  StateMachine._state sm' = TaskState.SUCCESS ->
  l <> [] ->
  forall y, y ∈ needed_before_success (StateMachine._state sm) ->
            y ∈ map (fun c => c.1.1.1.2) l.
Proof.
  induction l as [|[[[[now s] n] a] tot] l IH]; intros sm sm' Hrun Hs Hne y Hy;
    [done|].
  cbn [run_transitions] in Hrun. rewrite transition_spec in Hrun.
  destruct (allowed_b (StateMachine._state sm) s) eqn:Hal; [|done].
  cbn [map fst snd].
  destruct l as [|c l].
  - cbn in Hrun. injection Hrun as <-. rewrite sm_apply_state in Hs. subst s.
    destruct (StateMachine._state sm); try discriminate.
    by apply elem_of_nil in Hy.
  - destruct (need_step _ _ Hal y Hy) as [->|Hy']; [by left|]. right.
    apply (IH _ _ Hrun Hs); [done|]. by rewrite sm_apply_state.
Qed.

Lemma run_transitions_last l : forall sm0 sm,
  run_transitions sm0 l = Ok sm -> l <> [] ->
  exists smk now s n a tot,
    allowed_b (StateMachine._state smk) s = true
    /\ sm = StateMachine._apply now s n a tot smk.
Proof.
  induction l as [|[[[[now s] n] a] tot] l IH]; intros sm0 sm Hrun Hne; [done|].
  cbn [run_transitions] in Hrun. rewrite transition_spec in Hrun.
  destruct (allowed_b (StateMachine._state sm0) s) eqn:Hal; [|done].
  destruct l as [|c l].
  - cbn in Hrun. injection Hrun as <-. eauto 10.
  - by apply (IH _ _ Hrun).
Qed.

Lemma apply_prev now s n a tot sm :
  StateMachine._prev (StateMachine._apply now s n a tot sm)
  = Some (StateMachine._state sm).
Proof. unfold StateMachine._apply. by case_bool_decide. Qed.

(** X16: a task can only succeed after a step was executed and verified.
    If a sequence of [transition] calls made on a fresh state machine all
    succeed and leave it in SUCCESS, then the sequence entered PLANNED,
    EXECUTING and VERIFYING, and its last call came from VERIFYING. *)
Theorem success_needs_an_executed_step calls sm :
  run_transitions StateMachine.init calls = Ok sm ->
  StateMachine._state sm = TaskState.SUCCESS ->
  TaskState.PLANNED ∈ map (fun c => c.1.1.1.2) calls
  /\ TaskState.EXECUTING ∈ map (fun c => c.1.1.1.2) calls
  /\ TaskState.VERIFYING ∈ map (fun c => c.1.1.1.2) calls
  /\ StateMachine._prev sm = Some TaskState.VERIFYING.
Proof.
  intros Hrun Hs.
  assert (calls <> []) as Hne.
  { intros ->. cbn in Hrun. injection Hrun as <-. done. }
  pose proof (run_transitions_needs calls _ _ Hrun Hs Hne) as H.
  cbn in H. repeat split; try (apply H; set_solver).
  destruct (run_transitions_last calls _ _ Hrun Hne)
    as (smk & now & s & n & a & tot & Hal & ->).
  rewrite sm_apply_state in Hs. subst s. rewrite apply_prev.
  by destruct (StateMachine._state smk).
Qed.

Lemma success_needs_an_executed_step_witness :
  exists sm,
    run_transitions StateMachine.init
      [(1%Z, TaskState.PLANNED, 0, "", 0);
       (2%Z, TaskState.EXECUTING, 1, "open_app", 1);
       (3%Z, TaskState.VERIFYING, 1, "", 0);
       (4%Z, TaskState.SUCCESS, 0, "", 0)] = Ok sm
    /\ StateMachine._state sm = TaskState.SUCCESS
    /\ StateMachine._prev sm = Some TaskState.VERIFYING.
Proof.
  eexists. split; [vm_compute; reflexivity|]. split; [reflexivity|].
  refine (proj2 (proj2 (proj2
    (success_needs_an_executed_step
       [(1%Z, TaskState.PLANNED, 0, "", 0);
        (2%Z, TaskState.EXECUTING, 1, "open_app", 1);
        (3%Z, TaskState.VERIFYING, 1, "", 0);
        (4%Z, TaskState.SUCCESS, 0, "", 0)] _ _ _)))).
  - vm_compute. reflexivity.
  - reflexivity.
Defined.

(** X17: the state machine has no dead end and its terminal states are
    locked.  From SUCCESS, FAILED and CANCELLED the only [transition] that
    succeeds is the one to INIT; from every other state than INIT a
    [transition] to FAILED succeeds, after which the one to INIT does; a
    [transition] that is refused raises [IllegalTransitionError] with the
    values of both states. *)
Theorem terminal_states_lead_only_to_init now n a tot (sm : StateMachine.t) :
  (StateMachine.is_terminal sm = true ->
   forall s, (exists sm', StateMachine.transition now s n a tot sm = Ok sm')
             <-> s = TaskState.INIT)
  /\ (StateMachine._state sm <> TaskState.INIT ->
      StateMachine.is_terminal sm = false ->
      exists sm1 sm2,
        StateMachine.transition now TaskState.FAILED n a tot sm = Ok sm1
        /\ StateMachine.transition now TaskState.INIT n a tot sm1 = Ok sm2
        /\ StateMachine._state sm2 = TaskState.INIT)
  /\ (forall s,
        StateMachine.transition now s n a tot sm
        = Ok (StateMachine._apply now s n a tot sm)
        \/ StateMachine.transition now s n a tot sm
           = Raise (IllegalTransitionError
                      (TaskState.value (StateMachine._state sm))
                      (TaskState.value s))).
Proof.
  split; [|split].
  - unfold StateMachine.is_terminal. intros Ht s. rewrite transition_spec.
    apply bool_decide_eq_true in Ht.
    destruct (StateMachine._state sm), s; cbn;
      try (exfalso; set_solver); split; try done; try (intros [? ?]; done);
      eauto.
  - unfold StateMachine.is_terminal. intros Hi Ht.
    apply bool_decide_eq_false in Ht.
    destruct (StateMachine._state sm) eqn:Hs; try done;
      try (exfalso; apply Ht; set_solver).
    + do 2 eexists.
      rewrite !transition_spec, Hs. cbn. split; [reflexivity|].
      rewrite sm_apply_state. cbn. split; [reflexivity|]. apply sm_apply_state.
    + do 2 eexists.
      rewrite !transition_spec, Hs. cbn. split; [reflexivity|].
      rewrite sm_apply_state. cbn. split; [reflexivity|]. apply sm_apply_state.
    + do 2 eexists.
      rewrite !transition_spec, Hs. cbn. split; [reflexivity|].
      rewrite sm_apply_state. cbn. split; [reflexivity|]. apply sm_apply_state.
    + do 2 eexists.
      rewrite !transition_spec, Hs. cbn. split; [reflexivity|].
      rewrite sm_apply_state. cbn. split; [reflexivity|]. apply sm_apply_state.
  - intros s. rewrite transition_spec.
    destruct (allowed_b _ _); [by left|by right].
Qed.

End state_machine_properties.

(** ** Further properties of [ExecutionContext] *)

Section context_properties.
Import ExecutionContext.

Lemma simulate_fold steps : forall c,
  mode c = DRY_RUN ->
  let c2 := foldl (fun c' step => (can_execute step c').2) c steps in
  mode c2 = DRY_RUN
  /\ _dry_run_log c2
     = (_dry_run_log c
        ++ map (fun step => mk_dry (step !! "action") (step !! "value")
                                   (step !! "method") "would execute") steps)%list
  /\ task_name c2 = task_name c /\ _active_app c2 = _active_app c
  /\ _last_success_method c2 = _last_success_method c
  /\ _retry_counter c2 = _retry_counter c
  /\ _blocked_count c2 = _blocked_count c
  /\ _step_history c2 = _step_history c.
Proof.
  induction steps as [|step steps IH]; intros c Hm; cbv zeta; cbn [foldl map].
  - rewrite app_nil_r. done.
  - unfold can_execute at 2 4 6 8 10 12 14 16. rewrite Hm. cbn [snd].
    destruct (IH (_record_dry step "would execute" c) Hm)
      as (H1 & H2 & H3 & H4 & H5 & H6 & H7 & H8).
    cbv zeta in H1, H2, H3, H4, H5, H6, H7, H8.
    rewrite H1, H2, H3, H4, H5, H6, H7, H8. cbn.
    rewrite <- app_assoc. done.
Qed.

(** X18: [simulate] executes nothing and leaves the context as it found
    it, but for the dry-run log: the mode it switched to DRY_RUN is
    restored, the blocked counter, the step history and the other fields
    are unchanged, the log kept before is dropped, and the log it returns
    and leaves behind has one entry per plan step, in plan order, noted
    "would execute" with the step's action, value and method as the step
    gives them (nothing where a key is missing). *)
Theorem simulate_only_logs steps c :
  (simulate steps c).1
  = map (fun step => mk_dry (step !! "action") (step !! "value")
                            (step !! "method") "would execute") steps
  /\ _dry_run_log (simulate steps c).2 = (simulate steps c).1
  /\ mode (simulate steps c).2 = mode c
  /\ task_name (simulate steps c).2 = task_name c
  /\ _active_app (simulate steps c).2 = _active_app c
  /\ _last_success_method (simulate steps c).2 = _last_success_method c
  /\ _retry_counter (simulate steps c).2 = _retry_counter c
  /\ _blocked_count (simulate steps c).2 = _blocked_count c
  /\ _step_history (simulate steps c).2 = _step_history c.
Proof.
  unfold simulate. cbn [fst snd].
  destruct (simulate_fold steps
              (mk DRY_RUN (task_name c) (_active_app c)
                  (_last_success_method c) (_retry_counter c)
                  (_blocked_count c) [] (_step_history c)) eq_refl)
    as (H1 & H2 & H3 & H4 & H5 & H6 & H7 & H8).
  cbv zeta in H1, H2, H3, H4, H5, H6, H7, H8.
  unfold set_mode. cbn. rewrite H2, H3, H4, H5, H6, H7, H8. done.
Qed.

(** X19: the execution-mode gate.  In LIVE mode every step may run and the
    context is not touched.  In SAFE_MODE a step may run exactly when its
    action is in [SAFE_ACTIONS] (no action is both there and in
    [BLOCKED_IN_SAFE]); an admitted step leaves the context untouched, a
    refused one adds one to the blocked counter and one entry to the dry-run
    log.  In DRY_RUN no step may run and each call adds one log entry
    without counting as blocked.  The gate never changes the mode or the
    step history. *)
Theorem can_execute_gate step c :
  (can_execute step c).1 = admits (mode c) step
  /\ (mode c = SAFE_MODE ->
      (can_execute step c).1
      = bool_decide (dict_get step "action" "" ∈ SAFE_ACTIONS))
  /\ ((can_execute step c).1 = true -> (can_execute step c).2 = c)
  /\ ((can_execute step c).1 = false ->
      _blocked_count (can_execute step c).2
      = _blocked_count c + (if decide (mode c = SAFE_MODE) then 1 else 0)
      /\ length (_dry_run_log (can_execute step c).2)
         = length (_dry_run_log c) + 1)
  /\ mode (can_execute step c).2 = mode c
  /\ _step_history (can_execute step c).2 = _step_history c.
Proof.
  unfold can_execute, admits.
  destruct (mode c) eqn:Hm; cbn [fst snd].
  - repeat split; try done.
  - repeat split; try done; cbn; try (rewrite length_app; cbn; lia); try lia.
  - destruct (bool_decide (dict_get step "action" "" ∈ BLOCKED_IN_SAFE))
      eqn:Hb.
    + apply bool_decide_eq_true in Hb.
      assert (dict_get step "action" "" ∉ SAFE_ACTIONS) as Hs.
      { unfold BLOCKED_IN_SAFE, SAFE_ACTIONS in *.
        repeat (apply elem_of_cons in Hb as [->|Hb]);
          [| | | |by apply elem_of_nil in Hb];
          intros H; repeat (apply elem_of_cons in H as [H|H]; [done|]);
          by apply elem_of_nil in H. }
      rewrite (bool_decide_eq_false_2 _ Hs). cbn.
      repeat split; try done; try (rewrite length_app; cbn; lia).
    + destruct (bool_decide (dict_get step "action" "" ∈ SAFE_ACTIONS)); cbn;
        repeat split; try done; try (rewrite length_app; cbn; lia).
Qed.

End context_properties.

(** ** Further properties of [Watchdog] *)

Section watchdog_properties.
Import Watchdog.
Context {C : Type} (cb : string -> string -> C -> C) (fmt0 : float -> string).

(** X20: a heartbeat timeout is reported once.  When [_check_heartbeat]
    finds the heartbeat older than the timeout (the float [now -
    _last_heartbeat] exceeds it) it counts one event and restarts the clock
    at the time of the check, so that a further check whose age does not
    exceed the timeout changes nothing; likewise a check whose age, counted
    from a [heartbeat], does not exceed the timeout changes nothing. *)
Theorem heartbeat_timeout_fires_once (now now' : float) (s : t * C) :
  (HEARTBEAT_TIMEOUT_S <? now - _last_heartbeat s.1)%float = true ->
  (HEARTBEAT_TIMEOUT_S <? now' - now)%float = false ->
  events_count (_check_heartbeat cb fmt0 now s).1 = events_count s.1 + 1
  /\ last_event (_check_heartbeat cb fmt0 now s).1
     = Some WatchdogEvent.HEARTBEAT_TIMEOUT
  /\ _last_heartbeat (_check_heartbeat cb fmt0 now s).1 = now
  /\ _check_heartbeat cb fmt0 now' (_check_heartbeat cb fmt0 now s)
     = _check_heartbeat cb fmt0 now s
  /\ (forall label c,
        _check_heartbeat cb fmt0 now' (heartbeat now label s.1, c)
        = (heartbeat now label s.1, c)).
Proof.
  intros Hto Hfresh.
  assert (H : _last_heartbeat (_check_heartbeat cb fmt0 now s).1 = now
              /\ events_count (_check_heartbeat cb fmt0 now s).1
                 = events_count s.1 + 1
              /\ last_event (_check_heartbeat cb fmt0 now s).1
                 = Some WatchdogEvent.HEARTBEAT_TIMEOUT).
  { unfold _check_heartbeat. by rewrite Hto. }
  destruct H as (H1 & H2 & H3).
  split; [done|]. split; [done|]. split; [done|]. split.
  - apply check_heartbeat_alive. by rewrite H1.
  - intros label c. by apply check_heartbeat_alive.
Qed.

Lemma fire_counts ev msg (s : t * C) :
  events_count (_fire cb ev msg s).1 = events_count s.1 + 1
  /\ _watched_procs (_fire cb ev msg s).1 = _watched_procs s.1.
Proof. done. Qed.

Lemma dead_fold_counts (alive : string -> bool) procs : forall s0 : t * C,
  let s1 := foldl (fun s' proc =>
              if alive proc then s'
              else _fire cb WatchdogEvent.PROCESS_DEAD
                         ("Monitored process died: " ++ proc) s')
              s0 procs in
  events_count s1.1
  = events_count s0.1
    + length (filter (fun proc => alive proc = false) procs).
Proof.
  induction procs as [|proc procs IH]; intros s0; cbv zeta; cbn [foldl].
  - cbn. lia.
  - rewrite filter_cons. destruct (alive proc) eqn:Ha.
    + rewrite decide_False by done. apply IH.
    + rewrite decide_True by done. cbn [length].
      rewrite (IH (_fire cb WatchdogEvent.PROCESS_DEAD
                         ("Monitored process died: " ++ proc) s0)).
      cbn. lia.
Qed.

Lemma no_dead_among_alive (alive : string -> bool) (l : list string) :
  filter (fun proc => alive proc = false)
         (filter (fun proc => alive proc = true) l) = [].
Proof.
  induction l as [|x l IH]; [done|].
  rewrite (filter_cons (fun proc => alive proc = true)).
  case_decide as Hd; [|exact IH].
  rewrite filter_cons, IH. rewrite decide_False; [done|]. congruence.
Qed.

(** X21: the death of a watched process is reported once.
    [_check_processes] counts one event for every watched process that
    [pgrep] does not find and one more when a window is not responding,
    and it keeps on the watch list exactly the processes that were found,
    in their order; so a second check with the same findings counts no
    process again. *)
Theorem dead_process_is_reported_once (p : Probe) (s : t * C) :
  let s1 := _check_processes cb p s in
  _watched_procs s1.1
  = filter (fun proc => p_alive p proc = true) (_watched_procs s.1)
  /\ events_count s1.1
     = events_count s.1
       + length (filter (fun proc => p_alive p proc = false)
                        (_watched_procs s.1))
       + (if p_not_responding p then 1 else 0)
  /\ events_count (_check_processes cb p s1).1
     = events_count s1.1 + (if p_not_responding p then 1 else 0)
  /\ _watched_procs (_check_processes cb p s1).1 = _watched_procs s1.1.
Proof.
  cbv zeta.
  assert (H : forall s0 : t * C,
    _watched_procs (_check_processes cb p s0).1
    = filter (fun proc => p_alive p proc = true) (_watched_procs s0.1)
    /\ events_count (_check_processes cb p s0).1
       = events_count s0.1
         + length (filter (fun proc => p_alive p proc = false)
                          (_watched_procs s0.1))
         + (if p_not_responding p then 1 else 0)).
  { intros s0. unfold _check_processes.
    pose proof (dead_fold_counts (p_alive p) (_watched_procs s0.1) s0) as Hc.
    cbv zeta in Hc.
    destruct (p_not_responding p); cbn; rewrite Hc; split; try done; lia. }
  destruct (H s) as [H1 H2]. destruct (H (_check_processes cb p s)) as [H3 H4].
  split; [done|]. split; [done|].
  assert (filter (fun proc => p_alive p proc = false)
            (_watched_procs (_check_processes cb p s).1) = []) as Hnil.
  { rewrite H1. apply no_dead_among_alive. }
  rewrite Hnil in H4. cbn in H4. split; [lia|].
  rewrite H3, H1. apply list_filter_filter_l. done.
Qed.

End watchdog_properties.

Section watchdog_examples.
Import Watchdog.

Lemma heartbeat_timeout_fires_once_witness :
  (HEARTBEAT_TIMEOUT_S <? 20 - _last_heartbeat (Watchdog.init 0))%float = true
  /\ events_count
       (_check_heartbeat Run._on_watchdog_alert (fun _ => "0") 20
          (Watchdog.init 0, false)).1 = 0 + 1
  /\ _check_heartbeat Run._on_watchdog_alert (fun _ => "0") 30
       (_check_heartbeat Run._on_watchdog_alert (fun _ => "0") 20
          (Watchdog.init 0, false))
     = _check_heartbeat Run._on_watchdog_alert (fun _ => "0") 20
         (Watchdog.init 0, false).
Proof.
  assert (H1 : (HEARTBEAT_TIMEOUT_S
                <? 20 - _last_heartbeat (Watchdog.init 0))%float = true)
    by (vm_compute; reflexivity).
  assert (H2 : (HEARTBEAT_TIMEOUT_S <? 30 - 20)%float = false)
    by (vm_compute; reflexivity).
  split; [exact H1|].
  pose proof (heartbeat_timeout_fires_once Run._on_watchdog_alert
                (fun _ => "0") 20 30 (Watchdog.init 0, false) H1 H2)
    as (G1 & _ & _ & G4 & _).
  split; [exact G1|exact G4].
Defined.

(** The age is computed in floating point.  With the heartbeat read at
    [0x1.666666666665fp-1] (0.6999999999999992...) and the check made at
    [0x1.f666666666666p+3] (15.7), the age the check computes is exactly
    15, which does not exceed the timeout: no event is counted and
    nothing changes. *)
Lemma heartbeat_age_is_a_float :
  let s := (heartbeat 0x1.666666666665fp-1 "" (Watchdog.init 0), false) in
  (0x1.f666666666666p+3 - _last_heartbeat s.1 =? 15)%float = true
  /\ _check_heartbeat Run._on_watchdog_alert (fun _ => "0")
       0x1.f666666666666p+3 s = s.
Proof. cbv zeta. split; vm_compute; reflexivity. Qed.

End watchdog_examples.

(** ** Further properties of [RollbackManager] and [StepExecutor] *)

Section rollback_properties.
Import Orchestrator.
Variable env : Env.

Lemma run_rollbacks_results entries : forall sm rp wd rb ab g c w,
  exists w',
    Run.run_rollbacks env entries (mk sm rp wd rb ab g c w)
    = (Ok (imap (fun k e =>
                   RollbackManager.result_of e
                     (env_backend env (n_backend w + k) SystemB
                                  (RollbackManager.step e))) entries),
       mk sm rp wd rb ab g c w')
    /\ n_backend w' = n_backend w + length entries
    /\ n_verify w' = n_verify w
    /\ backend_log w'
       = (backend_log w
          ++ map (fun e => (SystemB, RollbackManager.step e)) entries)%list.
Proof.
  induction entries as [|e entries IH]; intros sm rp wd rb ab g c w.
  - exists w. cbn [Run.run_rollbacks]. msimpl. rewrite app_nil_r.
    cbn. repeat split; try done; lia.
  - cbn [Run.run_rollbacks]. msimpl.
    match goal with
    | |- context [Run.run_rollbacks env entries (mk ?a ?b ?c0 ?d ?e0 ?f ?g0 ?h)] =>
        destruct (IH a b c0 d e0 f g0 h) as (w' & He & Hn & Hv & Hlog)
    end.
    rewrite He. msimpl. eexists. split.
    + cbn [imap]. rewrite Nat.add_0_r. do 3 f_equal.
      apply imap_ext. intros k x _. cbn. do 2 f_equal. lia.
    + cbn [map length]. rewrite Hn, Hv, Hlog. cbn.
      rewrite <- app_assoc. repeat split; try done; lia.
Qed.

(** X22: [RollbackManager.push] ignores a step that has no action (missing
    or empty) and appends any other step at the end of the stack.
    [rollback_all] makes one call of the system backend per entry, the
    entry pushed last first, and returns one result per entry in that
    order: action, value and source step of the entry, success exactly when
    the call returned a truthy value, and the error text otherwise; a call
    that fails, times out or raises does not stop the others.  It makes no
    other call and empties the stack, so that a second [rollback_all]
    returns no result and calls nothing. *)
Theorem rollback_all_runs_each_entry_once sm rp wd rb ab g c w :
  (forall d sid stack,
      RollbackManager.push d sid stack
      = if truthy (dict_get d "action" "")
        then (stack ++ [RollbackManager.new_entry d sid])%list
        else stack)
  /\ (forall e o,
        let r := RollbackManager.result_of e o in
        RollbackManager.rr_action r = dict_get (RollbackManager.step e) "action" ""
        /\ RollbackManager.rr_value r = dict_get (RollbackManager.step e) "value" ""
        /\ RollbackManager.rr_source_step r = RollbackManager.source_step_id e
        /\ RollbackManager.rr_success r
           = match o with Truthy => true | _ => false end
        /\ RollbackManager.rr_error r
           = match o with
             | Truthy => ""
             | Falsy => "Rollback action returned False"
             | ExTimeout => "Rollback timeout"
             | ExRaise msg => msg
             end)
  /\ exists w',
       Run.rollback_all env (mk sm rp wd rb ab g c w)
       = (Ok (imap (fun k e =>
                      RollbackManager.result_of e
                        (env_backend env (n_backend w + k) SystemB
                                     (RollbackManager.step e))) (rev rb)),
          mk sm rp wd [] ab g c w')
       /\ backend_log w'
          = (backend_log w
             ++ map (fun e => (SystemB, RollbackManager.step e)) (rev rb))%list
       /\ n_backend w' = n_backend w + length rb
       /\ n_verify w' = n_verify w
       /\ Run.rollback_all env (mk sm rp wd [] ab g c w')
          = (Ok [], mk sm rp wd [] ab g c w').
Proof.
  split; [|split].
  - intros d sid stack. unfold RollbackManager.push, dict_get.
    destruct (d !! "action") as [a|]; cbn; [|done].
    by destruct (truthy a).
  - intros e o. by destruct o.
  - unfold Run.rollback_all. msimpl. destruct rb as [|e rb'].
    + exists w. msimpl. rewrite app_nil_r. cbn.
      repeat split; try done; lia.
    + destruct (run_rollbacks_results (rev (e :: rb')) sm rp wd (e :: rb')
                  ab g c w) as (w' & He & Hn & Hv & Hlog).
      rewrite He. msimpl. exists w'. split; [reflexivity|].
      rewrite length_rev in Hn. repeat split; done.
Qed.

End rollback_properties.

Section executor_properties.
Import Orchestrator.

(** X23: [StepExecutor.execute] never raises.  It makes exactly one backend
    call, on the backend [_pick_executor] chooses for the action and the
    resolved method, with the step in which the method is replaced by the
    resolved one; the result is a success exactly when the call returns a
    truthy value, a timeout or an exception of the backend gives a failure
    with the text of the error, and the result carries the step's action
    and value and the resolved method.  Nothing but the world changes. *)
Theorem execute_makes_one_call_and_never_raises env step sm rp wd rb ab g c w :
  let method := StepExecutor._resolve_method (env_capabilities env) step in
  let b := StepExecutor._pick_executor (dict_get step "action" "") method in
  let d := <["method" := method]> step in
  exists r w',
    Run.execute env step (mk sm rp wd rb ab g c w)
    = (Ok r, mk sm rp wd rb ab g c w')
    /\ n_backend w' = S (n_backend w)
    /\ n_verify w' = n_verify w
    /\ backend_log w' = (backend_log w ++ [(b, d)])%list
    /\ ActionResult.success r
       = match env_backend env (n_backend w) b d with
         | Truthy => true
         | _ => false
         end
    /\ ActionResult.action r = dict_get step "action" ""
    /\ ActionResult.value r = dict_get step "value" ""
    /\ ActionResult.method r = method
    /\ (forall msg, env_backend env (n_backend w) b d = ExRaise msg ->
                    ActionResult.error r = msg)
    /\ (env_backend env (n_backend w) b d = Falsy ->
        ActionResult.error r = "Executor returned falsy result").
Proof.
  intros method b d. unfold Run.execute. fold method. fold b. fold d. msimpl.
  destruct (env_backend env (n_backend w) b d) eqn:Ho; msimpl;
    do 2 eexists; (split; [reflexivity|]); cbn; repeat split; try done;
    intros msg0 [= <-]; done.
Qed.

(** X24: routing without a capability detector.  A step whose method is
    a name other than "auto" is executed with that method.  A step without
    method, or with "auto", is resolved by its action: the browser-native
    actions go to the browser backend with method "browser", the
    system-native ones to the system backend with method "system", every
    other action to the UI backend with method "accessibility"; the resolved
    method is never "auto" and never empty. *)
Theorem auto_method_routes_by_action (step : step_dict) :
  let action := dict_get step "action" "" in
  let hinted := dict_get step "method" "auto" in
  let method := StepExecutor._resolve_method None step in
  method <> "auto" /\ method <> ""
  /\ (hinted <> "auto" -> hinted <> "" -> method = hinted)
  /\ (hinted = "auto" \/ hinted = "" ->
      (method, StepExecutor._pick_executor action method)
      = if bool_decide (action ∈ StepExecutor.browser_native)
        then ("browser", BrowserB)
        else if bool_decide (action ∈ StepExecutor.system_native)
        then ("system", SystemB)
        else ("accessibility", UI)).
Proof.
  cbv zeta. unfold StepExecutor._resolve_method.
  set (hinted := dict_get step "method" "auto").
  set (action := dict_get step "action" "").
  destruct (decide (hinted = "")) as [He|He];
    [|destruct (decide (hinted = "auto")) as [Ha|Ha]].
  3:{ unfold truthy. rewrite !bool_decide_eq_false_2 by done. cbn.
      repeat split; try done. by intros [?|?]. }
  all: assert (truthy hinted && negb (bool_decide (hinted = "auto")) = false)
         as -> by (unfold truthy; rewrite ?He, ?Ha; done).
  all: split; [by repeat case_bool_decide|].
  all: split; [by repeat case_bool_decide|].
  all: split; [done|]. all: intros _.
  all: unfold StepExecutor._pick_executor.
  all: destruct (bool_decide (action ∈ StepExecutor.browser_native)) eqn:Hb;
         [done|].
  all: apply bool_decide_eq_false in Hb.
  all: destruct (bool_decide (action ∈ StepExecutor.system_native)) eqn:Hs.
  all: try apply bool_decide_eq_true in Hs.
  all: try apply bool_decide_eq_false in Hs.
  all: unfold StepExecutor.browser_native, StepExecutor.system_native in *.
  all: rewrite ?(bool_decide_eq_false_2 ("system" = "browser")) by done.
  all: rewrite ?(bool_decide_eq_false_2 ("accessibility" = "browser")) by done.
  all: rewrite ?(bool_decide_eq_false_2 ("accessibility" = "system")) by done.
  all: rewrite (bool_decide_eq_false_2
                  (action ∈ ["navigate"; "wait_for_element"; "scroll";
                             "get_text"; "find_and_click"])) by set_solver.
  all: cbn [orb]; rewrite ?bool_decide_eq_true_2 by done; cbn [orb]; try done.
  all: rewrite (bool_decide_eq_false_2
                  (action ∈ ["set_volume"; "set_brightness"; "run_command";
                             "focus_window"; "close_window"; "open_terminal";
                             "open_menu"; "verify_window"])) by set_solver.
  all: done.
Qed.

End executor_properties.

(** ** Further properties of planning and of the execution-mode gate in a run *)

Section planning_properties.
Import Orchestrator.

(** X25: when planning fails (the planner gives nothing, or nothing valid
    is left of its answer), [run], started in a state from which PLANNED is
    allowed, returns a failed result with the error "Planning failed", the
    command, no task name, 0 of 0 steps and no graph, in every execution
    mode; no backend and no verifier is called, the rollback stack is empty,
    the watchdog is stopped and the state machine is back in INIT. *)
Theorem planning_failure_ends_the_run env cmd mode o :
  Run._plan env = None ->
  allowed_b (StateMachine._state (state_machine o)) TaskState.PLANNED = true ->
  exists r o',
    Run.run env cmd mode o = (Ok r, o')
    /\ tr_success r = false
    /\ tr_error r = "Planning failed"
    /\ tr_command r = cmd
    /\ tr_task_name r = ""
    /\ tr_steps_done r = 0 /\ tr_steps_total r = 0
    /\ tr_graph r = None
    /\ StateMachine._state (state_machine o') = TaskState.INIT
    /\ Watchdog._running (watchdog o') = false
    /\ rollback_mgr o' = []
    /\ graph o' = graph o
    /\ n_backend (world o') = n_backend (world o)
    /\ n_verify (world o') = n_verify (world o)
    /\ backend_log (world o') = backend_log (world o).
Proof.
  intros Hplan Hal. destruct o as [sm rp wd rb ab g c w]. simpl in Hal.
  unfold Run.run. msimpl. rewrite watchdog_ran_frame. msimpl.
  destruct (Watchdog._running (Run.ticks env (n_check w) (wd, ab)).1)
    eqn:Hrun; msimpl.
  all: rewrite (sm_transition_from env (StateMachine._state sm)) by done.
  all: msimpl; rewrite Hplan; msimpl.
  all: rewrite (sm_transition_from env TaskState.PLANNED)
         by (rewrite ?sm_apply_state; reflexivity).
  all: msimpl; rewrite watchdog_ran_frame; msimpl.
  all: do 2 eexists; (split; [reflexivity|]); simpl.
  all: repeat split; reflexivity.
Qed.

Lemma planning_failure_ends_the_run_witness :
  Run._plan example_env_no_plan = None
  /\ exists r o',
       Run.run example_env_no_plan "open example.org" LIVE
         (init example_env_no_plan LIVE) = (Ok r, o')
       /\ tr_success r = false
       /\ tr_error r = "Planning failed"
       /\ backend_log (world o') = [].
Proof.
  split; [reflexivity|].
  destruct (planning_failure_ends_the_run example_env_no_plan
              "open example.org" LIVE (init example_env_no_plan LIVE)
              eq_refl eq_refl)
    as (r & o' & Hr & H1 & H2 & _ & _ & _ & _ & _ & _ & _ & _ & _ & _ & _ & H3).
  exists r, o'. repeat split; assumption.
Defined.

Lemma filter_all_valid {A} (f : A -> bool) l :
  forallb f l = true -> List.filter f l = l.
Proof.
  induction l as [|x l IH]; simpl; [done|].
  intros H. apply andb_true_iff in H as [Hx Hl]. rewrite Hx. f_equal. auto.
Qed.

Lemma filter_keeps_valid {A} (f : A -> bool) l :
  Forall (fun x => f x = true) (List.filter f l).
Proof.
  induction l as [|x l IH]; simpl; [constructor|].
  destruct (f x) eqn:Hx; [constructor|]; done.
Qed.

Lemma filter_none_valid {A} (f : A -> bool) l :
  List.filter f l = [] <-> Forall (fun x => f x = false) l.
Proof.
  induction l as [|x l IH]; simpl; [split; [constructor|done]|].
  destruct (f x) eqn:Hx.
  - split; [done|]. intros H. inversion H; congruence.
  - rewrite IH. split; [by constructor|]. intros H. by inversion H.
Qed.

(** X26: the plan [_plan] hands to the run consists of the steps of the
    planner's answer that pass [_validate_step], in their order; there is at
    least one, and the task name is the planner's, or "unknown" when the
    planner gave none.  An answer that [validate_plan] accepts is handed on
    as it is.  There is no plan exactly when the planner gives no answer or
    none of its steps is valid. *)
Theorem plan_keeps_the_valid_steps env :
  (forall plan, Run._plan env = Some plan ->
     exists p, env_planner env = Some p
       /\ StepGraph.plan_steps plan
          = List.filter (env_valid_step env) (StepGraph.plan_steps p)
       /\ StepGraph.plan_steps plan <> []
       /\ Forall (fun s => env_valid_step env s = true)
                 (StepGraph.plan_steps plan)
       /\ default "unknown" (StepGraph.plan_task plan)
          = default "unknown" (StepGraph.plan_task p)
       /\ (Run.validate_plan env p = true -> plan = p))
  /\ (Run._plan env = None
      <-> forall p, env_planner env = Some p ->
            Forall (fun s => env_valid_step env s = false)
                   (StepGraph.plan_steps p)).
Proof.
  assert (Hval : forall p, Run.validate_plan env p = true ->
            StepGraph.plan_steps p <> []
            /\ forallb (env_valid_step env) (StepGraph.plan_steps p) = true).
  { intros p Hv. unfold Run.validate_plan in Hv.
    destruct (StepGraph.plan_task p); [|done].
    repeat (apply andb_true_iff in Hv as [Hv ?]).
    apply negb_true_iff, bool_decide_eq_false in Hv. done. }
  split.
  - intros plan. unfold Run._plan.
    destruct (env_planner env) as [p|]; [|done].
    destruct (Run.validate_plan env p) eqn:Hv.
    + intros [= <-]. destruct (Hval p Hv) as [Hne Hall].
      exists p. rewrite (filter_all_valid _ _ Hall).
      repeat split; try done.
      rewrite <- (filter_all_valid _ _ Hall). apply filter_keeps_valid.
    + destruct (StepGraph.plan_steps (Run.sanitize_plan env p)) eqn:Hs; [done|].
      intros [= <-]. exists p. cbn [Run.sanitize_plan StepGraph.plan_steps
                                      StepGraph.plan_task] in *.
      repeat split; try done; try congruence.
      apply filter_keeps_valid.
  - unfold Run._plan. destruct (env_planner env) as [p|].
    2:{ split; [intros _ p [=]|done]. }
    destruct (Run.validate_plan env p) eqn:Hv.
    + split; [done|]. intros H. specialize (H p eq_refl).
      destruct (Hval p Hv) as [Hne Hall].
      destruct (StepGraph.plan_steps p) as [|s l]; [done|].
      simpl in Hall. apply andb_true_iff in Hall as [Hs _].
      inversion H; congruence.
    + cbn [Run.sanitize_plan StepGraph.plan_steps].
      destruct (List.filter (env_valid_step env) (StepGraph.plan_steps p))
        eqn:Hf.
      * split; [|done]. intros _ p' [= <-]. by apply filter_none_valid.
      * split; [done|]. intros H. specialize (H p eq_refl).
        apply filter_none_valid in H. congruence.
Qed.

Lemma plan_keeps_the_valid_steps_example :
  Run._plan example_env_partly_valid
  = Some (StepGraph.mk_plan (Some "unknown")
            [mk_step "navigate" "https://example.org" "browser"]).
Proof. reflexivity. Qed.

End planning_properties.

Section skip_properties.
Import Orchestrator.
Variable env : Env.


End skip_properties.

Section skip_witness.
Import Orchestrator.


End skip_witness.

(** ** The backend calls of a successful run *)

Section run_log.
Import Orchestrator.
Variable env : Env.

(** X28: in a run of a chain of steps that all succeed at their first call
    and are verified, [run] returns a result whatever the watchdog thread
    does meanwhile; and if the watchdog has raised no abort (its
    [abort_requested] is still down when [run] returns), the result is a
    success and the backends have received exactly one call per plan step,
    in the order of the plan and nothing else: the call
    [StepExecutor.execute] makes for the step's action, value and method,
    on the backend picked for it, with the resolved method.  No
    compensating action is executed and the rollback stack is not run. *)
Theorem successful_run_calls_each_step_once cmd mode plan o :
  operational o ->
  StepGraph.lists_elements (env_set_order env) ->
  Run._plan env = Some plan ->
  (forall step, step ∈ StepGraph.plan_steps plan -> admits mode step = true) ->
  (forall n b d, (n_backend (world o) <= n
                  < n_backend (world o) + length (StepGraph.plan_steps plan))%nat ->
                 env_backend env n b d = Truthy) ->
  (forall n d, (n_verify (world o) <= n
                < n_verify (world o) + length (StepGraph.plan_steps plan))%nat ->
               env_verifier env n d = true) ->
  let out := Run.run env cmd mode o in
  exists r,
    out.1 = Ok r
    /\ (Watchdog.abort_requested (watchdog out.2) = false ->
        tr_success r = true
        /\ backend_log (world out.2)
           = (backend_log (world o)
              ++ map (fun s => executor_call (env_capabilities env)
                                             (node_step s))
                     (StepGraph.plan_steps plan))%list
        /\ n_backend (world out.2)
           = n_backend (world o) + length (StepGraph.plan_steps plan)
        /\ (n_verify (world out.2)
            <= n_verify (world o) + length (StepGraph.plan_steps plan))%nat
        /\ Forall (fun n => StepNode.status n = SUCCESS)
                  (StepGraph.nodes (graph out.2))).
Proof.
  intros Hop Hord Hplan Hadm Hb Hv.
  pose proof (plan_nonempty env plan Hplan) as Hne.
  assert (mode <> DRY_RUN) as Hmode.
  { destruct (StepGraph.plan_steps plan) as [|s ?] eqn:Hs; [done|].
    apply (admits_not_dry_run mode s). apply Hadm. by left. }
  destruct (run_after_loop env cmd mode plan o Hop Hord Hplan Hmode)
    as (o0 & Hinv & Hlog0 & Hrb0 & Hcb0 & Hafter).
  destruct (exec_loop_success env plan mode (n_backend (world o))
              (n_verify (world o)) Hb Hv Hadm
              (length (StepGraph.plan_steps plan)) 0
              (S (length (StepGraph.plan_steps plan))) o0)
    as (r & o1 & Hloop & Hcases); [lia|lia|lia|exact Hinv|].
  cbv zeta.
  destruct Hcases as [(Hr & Hinv1 & Hlog1)|(Hs & Hreq & Hst)].
  - destruct (Hafter r o1 Hloop) as
      (r' & o' & Hrun & Hs' & _ & _ & _ & _ & _ & Hg' & Hnv' & Hok & _).
    { left. rewrite Hr. split; [done|].
      destruct Hinv1 as (_ & Hst1 & _). rewrite Hst1.
      rewrite decide_False; [done|].
      destruct (StepGraph.plan_steps plan); [done|simpl; lia]. }
    destruct Hok as (Hnb' & Hlog' & _); [by rewrite Hr|].
    rewrite Hrun. exists r'. split; [done|]. intros _. cbn [snd].
    destruct Hinv1 as (Hc1 & _ & _ & _ & _ & Hnb1 & Hnv1).
    rewrite Hs', Hr, Hlog', Hlog1, Hlog0, drop_0, Hnb', Hnv', Hg'.
    repeat split; try done; try lia.
    apply Forall_lookup. intros j n Hj.
    destruct Hc1 as (_ & _ & Hlen & Hn). destruct (Hn j n Hj) as (_ & Hsj & _).
    apply Hsj. apply lookup_lt_Some in Hj. lia.
  - destruct (Hafter r o1 Hloop) as
      (r' & o' & Hrun & _ & _ & _ & _ & Hwd' & _).
    { by right. }
    rewrite Hrun. exists r'. split; [done|].
    intros Hdown. cbn [snd] in Hdown.
    rewrite (stopped_flag env _ o1 _ Hwd' Hreq) in Hdown. discriminate.
Qed.

End run_log.

Section run_log_witness.
Import Orchestrator.

Lemma successful_run_calls_each_step_once_witness :
  operational (init example_env_all_ok_watched LIVE)
  /\ Run._plan example_env_all_ok_watched = Some example_plan3
  /\ env_watchdog example_env_all_ok_watched 2 <> []
  /\ exists r,
       (Run.run example_env_all_ok_watched "open example.org" LIVE
          (init example_env_all_ok_watched LIVE)).1 = Ok r
       /\ tr_success r = true
       /\ backend_log
            (world (Run.run example_env_all_ok_watched "open example.org" LIVE
                      (init example_env_all_ok_watched LIVE)).2)
          = [ (SystemB, mk_step "open_app" "firefox" "system");
              (BrowserB, mk_step "navigate" "https://example.org" "browser");
              (UI, mk_step "type_text" "hello" "accessibility") ].
Proof.
  assert (Hop : operational (init example_env_all_ok_watched LIVE))
    by (repeat split; reflexivity).
  split; [exact Hop|]. split; [reflexivity|]. split; [discriminate|].
  destruct (successful_run_calls_each_step_once example_env_all_ok_watched
              "open example.org" LIVE example_plan3
              (init example_env_all_ok_watched LIVE) Hop
              (fun X x => elem_of_elements X x) eq_refl
              (fun step _ => eq_refl)
              (fun n b d _ => eq_refl) (fun n d _ => eq_refl))
    as (r & Hr & Hcond).
  destruct Hcond as (Hs & Hlog & _); [vm_compute; reflexivity|].
  exists r. split; [exact Hr|]. split; [exact Hs|].
  rewrite Hlog. vm_compute. reflexivity.
Defined.

End run_log_witness.
